(** * datosEmbalses: the reservoir statistics pipeline of [main.py]

    A shallow embedding of [main.py] and the properties its specification
    states about it.

    Modelling conventions.
    - A pandas [Timestamp] of the [FECHA] column is a calendar day, held the
      way pandas holds it, as a number of days on the proleptic Gregorian
      time line (the ordinal of [datetime.date.toordinal]); its [year],
      [month] and [day] fields are recomputed from the ordinal.
    - [AGUA_ACTUAL] and [AGUA_TOTAL] are exact rationals, and so are their
      sums, means and roundings.  The program computes them in binary
      floating point, where the last digit of a sum depends on the order
      of the rows and a value that is half a hundredth from two multiples
      of 0.01 goes to either: the theorems on means and rounding (C1, C3,
      C4, C5) say how far the result is from the exact value and do not
      say which way a tie goes.  [nan], the value pandas gives to the mean of an empty
      selection, is kept as a separate constructor.
    - The two quantity columns are columns of [float64]: [pd.to_numeric]
      makes them so when a reading has a decimal part.  A column of whole
      numbers only would be a column of integers, written without a
      point; that case is outside the model.
    - Text is a [string] of bytes (the UTF-8 encoding written to disk).
    - The calendar is the proleptic Gregorian one over all of [Z]; the
      bounds of [Timestamp] (years 1677 to 2262) are outside the model.
    - What lies outside the program (the download, the archive, the digest,
      [mdb-export] with the cleaning of the table, and whether the output
      file can be written) is an environment given to [main]. *)

From Stdlib Require Import ZArith NArith QArith Qround Lia List Bool.
From Stdlib Require Import Ascii String DecimalString.
From Stdlib Require Import Permutation Morphisms Lqa Qabs Sorted.
Import ListNotations.

Local Open Scope Z_scope.

(* ================================================================== *)
(** * Part I. The model                                                *)
(* ================================================================== *)

(** ** Calendar arithmetic of [datetime] and [calendar] *)

Module Calendar.

Definition is_leap (year : Z) : bool :=
  (year mod 4 =? 0) && (negb (year mod 100 =? 0) || (year mod 400 =? 0)).

Definition DAYS_IN_MONTH (month : Z) : Z :=
  match month with
  | 1 => 31 | 2 => 28 | 3 => 31 | 4 => 30 | 5 => 31 | 6 => 30
  | 7 => 31 | 8 => 31 | 9 => 30 | 10 => 31 | 11 => 30 | 12 => 31
  | _ => -1
  end.

Definition DAYS_BEFORE_MONTH (month : Z) : Z :=
  match month with
  | 1 => 0 | 2 => 31 | 3 => 59 | 4 => 90 | 5 => 120 | 6 => 151
  | 7 => 181 | 8 => 212 | 9 => 243 | 10 => 273 | 11 => 304 | 12 => 334
  | _ => -1
  end.

(** [calendar.monthrange(year, month)[1]] *)
Definition days_in_month (year month : Z) : Z :=
  if (month =? 2) && is_leap year then 29 else DAYS_IN_MONTH month.

Definition days_before_year (year : Z) : Z :=
  let y := year - 1 in
  y * 365 + y / 4 - y / 100 + y / 400.

Definition days_before_month (year month : Z) : Z :=
  DAYS_BEFORE_MONTH month
  + (if (2 <? month) && is_leap year then 1 else 0).

(** Year, month, day to ordinal; 0001-01-01 is day 1. *)
Definition ymd2ord (year month day : Z) : Z :=
  days_before_year year + days_before_month year month + day.

Definition DI400Y : Z := 146097.
Definition DI100Y : Z := 36524.
Definition DI4Y : Z := 1461.

(** Ordinal to (year, month, day). *)
Definition ord2ymd (ordinal : Z) : Z * Z * Z :=
  let n := ordinal - 1 in
  let n400 := n / DI400Y in
  let n := n mod DI400Y in
  let year := n400 * 400 + 1 in
  let n100 := n / DI100Y in
  let n := n mod DI100Y in
  let n4 := n / DI4Y in
  let n := n mod DI4Y in
  let n1 := n / 365 in
  let n := n mod 365 in
  let year := year + n100 * 100 + n4 * 4 + n1 in
  if (n1 =? 4) || (n100 =? 4) then (year - 1, 12, 31)
  else
    let leapyear := (n1 =? 3) && (negb (n4 =? 24) || (n100 =? 3)) in
    let month := (n + 50) / 32 in
    let preceding :=
      DAYS_BEFORE_MONTH month
      + (if (2 <? month) && leapyear then 1 else 0) in
    let '(month, preceding) :=
      if n <? preceding
      then (month - 1,
            preceding - (DAYS_IN_MONTH (month - 1)
                         + (if (month - 1 =? 2) && leapyear then 1 else 0)))
      else (month, preceding) in
    (year, month, n - preceding + 1).

Definition valid_date (year month day : Z) : Prop :=
  1 <= month <= 12 /\ 1 <= day <= days_in_month year month.

Definition year_of (t : Z) : Z := fst (fst (ord2ymd t)).
Definition month_of (t : Z) : Z := snd (fst (ord2ymd t)).
Definition day_of (t : Z) : Z := snd (ord2ymd t).

(** Auxiliary definitions used to reason about [ord2ymd]. *)

(** The month and day that [ord2ymd] derives from a day-of-year [n]. *)
Definition month_day (leapyear : bool) (n : Z) : Z * Z :=
  let month := (n + 50) / 32 in
  let preceding :=
    DAYS_BEFORE_MONTH month + (if (2 <? month) && leapyear then 1 else 0) in
  let '(month, preceding) :=
    if n <? preceding
    then (month - 1,
          preceding - (DAYS_IN_MONTH (month - 1)
                       + (if (month - 1 =? 2) && leapyear then 1 else 0)))
    else (month, preceding) in
  (month, n - preceding + 1).

Definition check_month_day (leapyear : bool) (n : Z) : bool :=
  let '(m, d) := month_day leapyear n in
  (1 <=? m) && (m <=? 12) && (1 <=? d)
  && (d <=? (if (m =? 2) && leapyear then 29 else DAYS_IN_MONTH m))
  && (DAYS_BEFORE_MONTH m + (if (2 <? m) && leapyear then 1 else 0) + d
      =? n + 1).

Fixpoint check_upto (chk : Z -> bool) (k : nat) (n : Z) : bool :=
  match k with
  | O => true
  | S k' => chk n && check_upto chk k' (n + 1)
  end.

Definition year_length (y : Z) : Z := if is_leap y then 366 else 365.

End Calendar.

(** ** [pandas.Timestamp], [pandas.Timedelta], [dateutil.relativedelta] *)

(** A day on the time line. *)
Definition Timestamp : Type := Z.

(** [Timestamp(year, month, day)] *)
Definition fecha (year month day : Z) : Timestamp :=
  Calendar.ymd2ord year month day.

(** [pd.Timedelta(days=n)] is the number of days itself: subtracting it from
    a [Timestamp] is subtraction on the time line. *)
Definition Timedelta (days : Z) : Z := days.

(** The relative offsets the program builds have only [years] and [months]
    (all of absolute value at most 1 for [months], so the constructor's
    carry of 12 months into a year never fires). *)
Record relativedelta : Type := mk_relativedelta { years : Z; months : Z }.

Definition rd_neg (rd : relativedelta) : relativedelta :=
  {| years := - years rd; months := - months rd |}.

(** [relativedelta.__radd__]: shift the year, shift the month with a carry
    into the year, clamp the day to the length of the target month, and
    rebuild the date. *)
Definition rd_radd (rd : relativedelta) (dt : Timestamp) : Timestamp :=
  let '(y, m, d) := Calendar.ord2ymd dt in
  let year := y + years rd in
  let '(year, month) :=
    if months rd =? 0 then (year, m)
    else
      let month := m + months rd in
      if 12 <? month then (year + 1, month - 12)
      else if month <? 1 then (year - 1, month + 12)
      else (year, month) in
  let day := Z.min (Calendar.days_in_month year month) d in
  Calendar.ymd2ord year month day.

(** [dt - rd] and [dt + rd] *)
Definition ts_sub (dt : Timestamp) (rd : relativedelta) : Timestamp :=
  rd_radd (rd_neg rd) dt.
Definition ts_add (dt : Timestamp) (rd : relativedelta) : Timestamp :=
  rd_radd rd dt.

(** ** Numbers: [float64] means and [round(x, 2)] *)

Inductive float64 : Type :=
| NaN
| Fin (q : Q).

Definition Qsum (xs : list Q) : Q := fold_right Qplus 0%Q xs.

(** [Series.mean()]: [nan] on an empty selection. *)
Definition mean (xs : list Q) : float64 :=
  match xs with
  | [] => NaN
  | _ :: _ => Fin (Qsum xs / inject_Z (Z.of_nat (List.length xs)))%Q
  end.

(** Round to the nearest integer, ties to the even one ([rint]). *)
Definition rint (q : Q) : Z :=
  let fl := Qfloor q in
  match (q - inject_Z fl ?= 1 # 2)%Q with
  | Lt => fl
  | Gt => fl + 1
  | Eq => if Z.even fl then fl else fl + 1
  end.

(** [round(x, 2)] on a finite number: scale by 100, [rint], scale back. *)
Definition round2 (q : Q) : Q := Qmake (rint (q * 100)) 100.

(** [round(x, 2)] on a [float64]: [nan] stays [nan]. *)
Definition py_round2 (x : float64) : float64 :=
  match x with
  | NaN => NaN
  | Fin q => Fin (round2 q)
  end.

(** ** Text *)

Module Texto.

Local Open Scope string_scope.

Definition LF : ascii := "010"%char.
Definition QUOTE : ascii := "034"%char.
Definition BACKSLASH : ascii := "092"%char.

Definition nl : string := String LF EmptyString.

(** The text [s] between two double quotes, for the literal pieces of the
    output. *)
Definition entre_comillas (s : string) : string :=
  String QUOTE (s ++ String QUOTE EmptyString).

Fixpoint repeat_string (s : string) (n : nat) : string :=
  match n with
  | O => EmptyString
  | S k => s ++ repeat_string s k
  end.

(** [str(n)] for a natural number *)
Definition str_N (n : N) : string := NilEmpty.string_of_uint (N.to_uint n).

(** [s.zfill(width)] *)
Definition zfill (width : nat) (s : string) : string :=
  repeat_string "0" (width - String.length s) ++ s.

(** [Timestamp.strftime('%Y-%m-%d')] *)
Definition strftime_Ymd (t : Timestamp) : string :=
  zfill 4 (str_N (Z.to_N (Calendar.year_of t))) ++ "-"
  ++ zfill 2 (str_N (Z.to_N (Calendar.month_of t))) ++ "-"
  ++ zfill 2 (str_N (Z.to_N (Calendar.day_of t))).

(** The characters of a text. *)
Abbreviation chars := list_ascii_of_string.

(** [c.isspace()] on an ASCII character: tab, line feed, vertical tab,
    form feed, carriage return, the four separators 0x1c to 0x1f, and the
    space. *)
Definition is_space (c : ascii) : bool :=
  let n := N_of_ascii c in
  (((9 <=? n) && (n <=? 13)) || ((28 <=? n) && (n <=? 32)))%N.

(** A line break. *)
Definition es_salto (c : ascii) : bool :=
  let n := N_of_ascii c in ((n =? 10) || (n =? 13))%N.

End Texto.
Import Texto.

(** ** Rows and the per-reservoir statistics *)

(** A row of the cleaned frame: after [dropna] all five columns are
    present. *)
Record fila : Type := mk_fila {
  AMBITO_NOMBRE : string;
  EMBALSE_NOMBRE : string;
  FECHA : Timestamp;
  AGUA_TOTAL : Q;
  AGUA_ACTUAL : Q
}.

(** [sort_values('FECHA', ascending=False)]: rows by date, latest first.
    Here rows of the same date keep their relative order; the sort of
    pandas does not promise it, so nothing is stated about which of
    several rows of the latest date comes first. *)
Fixpoint insert_desc (r : fila) (l : list fila) : list fila :=
  match l with
  | [] => [r]
  | x :: t =>
      if FECHA x <=? FECHA r then r :: x :: t else x :: insert_desc r t
  end.

Definition sort_values_desc (df : list fila) : list fila :=
  fold_right insert_desc [] df.

Definition columna_agua_actual (df : list fila) : list Q :=
  map AGUA_ACTUAL df.

(** The three rolling selections [df_1s], [df_2s], [df_1m] are
    [df_dias 7], [df_dias 14], [df_dias 30]. *)
Definition df_dias (n : Z) (fecha_referencia : Timestamp)
    (df_embalse : list fila) : list fila :=
  filter (fun r => fecha_referencia - Timedelta n <=? FECHA r) df_embalse.

Definition df_hist_mes (mes_ref : Z) (df_embalse : list fila) : list fila :=
  filter (fun r => Calendar.month_of (FECHA r) =? mes_ref) df_embalse.

(** The rows that [media_historica(anios)] averages. *)
Definition df_historica (anios : Z) (fecha_referencia : Timestamp)
    (mes_ref : Z) (df_embalse : list fila) : list fila :=
  let fecha_limite :=
    ts_sub fecha_referencia {| years := anios; months := 0 |} in
  filter (fun r => fecha_limite <=? FECHA r) (df_hist_mes mes_ref df_embalse).

Definition media_historica (anios : Z) (fecha_referencia : Timestamp)
    (mes_ref : Z) (df_embalse : list fila) : float64 :=
  mean (columna_agua_actual
          (df_historica anios fecha_referencia mes_ref df_embalse)).

Definition fecha_anio_ant_inicio (fecha_referencia : Timestamp) : Timestamp :=
  ts_sub fecha_referencia {| years := 1; months := 1 |}.

Definition fecha_anio_ant_fin (fecha_referencia : Timestamp) : Timestamp :=
  ts_add (ts_sub fecha_referencia {| years := 1; months := 0 |})
         {| years := 0; months := 1 |}.

Definition df_anio_ant (fecha_referencia : Timestamp) (mes_ref : Z)
    (df_embalse : list fila) : list fila :=
  filter (fun r =>
            (fecha_anio_ant_inicio fecha_referencia <? FECHA r)
            && (FECHA r <=? fecha_anio_ant_fin fecha_referencia)
            && (Calendar.month_of (FECHA r) =? mes_ref))
         df_embalse.

(** The dictionary [stats]; [ma1] alone may be [None]. *)
Record stats : Type := mk_stats {
  aa : float64;
  at_ : float64;
  f : string;
  m1s : float64;
  m2s : float64;
  m1m : float64;
  ma1 : option float64;
  h3a : float64;
  h5a : float64;
  h10a : float64;
  h20a : float64;
  ht : float64
}.

(** [calcular_estadisticas_embalse]; [None] stands for the empty
    [pd.Series()] returned on an empty frame. *)
Definition calcular_estadisticas_embalse (df : list fila) : option stats :=
  match sort_values_desc df with
  | [] => None
  | (primera :: _) as df_embalse =>
      let fecha_referencia := FECHA primera in
      let mes_ref := Calendar.month_of fecha_referencia in
      let df_1s := df_dias 7 fecha_referencia df_embalse in
      let df_2s := df_dias 14 fecha_referencia df_embalse in
      let df_1m := df_dias 30 fecha_referencia df_embalse in
      let df_mes := df_hist_mes mes_ref df_embalse in
      let df_ant := df_anio_ant fecha_referencia mes_ref df_embalse in
      Some {|
        aa := py_round2 (Fin (AGUA_ACTUAL primera));
        at_ := py_round2 (Fin (AGUA_TOTAL primera));
        f := strftime_Ymd fecha_referencia;
        m1s := py_round2 (mean (columna_agua_actual df_1s));
        m2s := py_round2 (mean (columna_agua_actual df_2s));
        m1m := py_round2 (mean (columna_agua_actual df_1m));
        ma1 := match df_ant with
               | [] => None
               | _ :: _ => Some (py_round2 (mean (columna_agua_actual df_ant)))
               end;
        h3a := py_round2 (media_historica 3 fecha_referencia mes_ref df_embalse);
        h5a := py_round2 (media_historica 5 fecha_referencia mes_ref df_embalse);
        h10a := py_round2 (media_historica 10 fecha_referencia mes_ref df_embalse);
        h20a := py_round2 (media_historica 20 fecha_referencia mes_ref df_embalse);
        ht := py_round2 (mean (columna_agua_actual df_mes))
      |}
  end.

(** The head of a frame is on or after every row of it. *)
Definition head_latest (l : list fila) : Prop :=
  match l with
  | [] => True
  | r0 :: _ => forall x, In x l -> FECHA x <= FECHA r0
  end.

(** The reference date of a series as the specification names it: the
    latest date present. *)
Definition max_fecha (df : list fila) : Timestamp :=
  match df with
  | [] => 0
  | r :: t => fold_right (fun x acc => Z.max (FECHA x) acc) (FECHA r) t
  end.


(** ** The statistics as the specification words them *)

(** The reference date: the latest date of the series. *)
Definition reference_date (df : list fila) : Timestamp := max_fecha df.

(** The rounded mean of [volume_current] over the rows of the series that
    pass a test. *)
Definition mean_over (p : fila -> bool) (df : list fila) : float64 :=
  py_round2 (mean (columna_agua_actual (filter p df))).

(** The closed interval [[reference_date - n days, reference_date]]. *)
Definition in_rolling_window (n : Z) (df : list fila) (r : fila) : bool :=
  (reference_date df - n <=? FECHA r) && (FECHA r <=? reference_date df).

(** Strictly after [reference_date - 1 year - 1 month], on or before
    [reference_date - 1 year + 1 month], in the month of the reference
    date. *)
Definition in_prior_year_window (df : list fila) (r : fila) : bool :=
  (ts_sub (reference_date df) {| years := 1; months := 1 |} <? FECHA r)
  && (FECHA r <=? ts_add (ts_sub (reference_date df)
                                  {| years := 1; months := 0 |})
                         {| years := 0; months := 1 |})
  && (Calendar.month_of (FECHA r) =? Calendar.month_of (reference_date df)).

(** The rows averaged by [mean_hist_K] on a series. *)
Definition ventana_historica (anios : Z) (df : list fila) : list fila :=
  df_historica anios (reference_date df)
    (Calendar.month_of (reference_date df)) (sort_values_desc df).

(** The field of the snapshot that holds [mean_hist_K]. *)
Definition campo_historico (anios : Z) (s : stats) : float64 :=
  match anios with
  | 3 => h3a s
  | 5 => h5a s
  | 10 => h10a s
  | _ => h20a s
  end.

(** ** Mean, rounding and dates in the words of the specification *)

Module Spec.

(** The arithmetic mean of [volume_current] over some rows: the sum of
    the values divided by their number. *)
Definition arithmetic_mean (rows : list fila) : Q :=
  (fold_right Qplus 0 (map AGUA_ACTUAL rows)
   / inject_Z (Z.of_nat (List.length rows)))%Q.

(** [y] is [x] rounded to 2 decimal places: a whole number of hundredths
    at most half a hundredth away from [x]. *)
Definition rounded_to_2 (x : Q) (y : float64) : Prop :=
  exists z : Z, y = Fin (z # 100) /\ (Qabs ((z # 100) - x) <= 1 # 200)%Q.

(** [y] is the mean of [volume_current] over [rows], which has a row,
    rounded to 2 decimal places. *)
Definition rounded_mean (rows : list fila) (y : float64) : Prop :=
  rows <> [] /\ rounded_to_2 (arithmetic_mean rows) y.

(** A field that is null when no row is behind it and the rounded mean
    otherwise. *)
Definition mean_or_null (rows : list fila) (v : option float64) : Prop :=
  match rows with
  | [] => v = None
  | _ :: _ => exists y, v = Some y /\ rounded_mean rows y
  end.

(** [ref] is the maximum date of the series. *)
Definition latest_date (df : list fila) (ref : Timestamp) : Prop :=
  (exists r, In r df /\ FECHA r = ref)
  /\ forall r, In r df -> FECHA r <= ref.

(** [t] is the day [d] of month [m] of year [y], or the last day of
    that month when the month has fewer than [d] days: the day that
    calendar arithmetic on years and months lands on. *)
Definition is_day (t : Timestamp) (y m d : Z) : Prop :=
  Calendar.year_of t = y
  /\ Calendar.month_of t = m
  /\ Calendar.day_of t = Z.min d (Calendar.days_in_month y m).

(** Dated in the closed interval [[ref - n days, ref]]. *)
Definition within_days (n : Z) (ref : Timestamp) (r : fila) : bool :=
  (ref - n <=? FECHA r) && (FECHA r <=? ref).

(** Dated in the calendar month of [ref]. *)
Definition same_month (ref : Timestamp) (r : fila) : bool :=
  Calendar.month_of (FECHA r) =? Calendar.month_of ref.

(** Dated in the calendar month of [ref] of the year before. *)
Definition year_before (ref : Timestamp) (r : fila) : bool :=
  same_month ref r
  && (Calendar.year_of (FECHA r) =? Calendar.year_of ref - 1).

(** Dated in the calendar month of [ref], on or after the day of [ref]
    [k] calendar years back: in a later year than that day, or in its
    year and on or after its day of the month. *)
Definition within_years (k : Z) (ref : Timestamp) (r : fila) : bool :=
  same_month ref r
  && ((Calendar.year_of ref - k <? Calendar.year_of (FECHA r))
      || ((Calendar.year_of (FECHA r) =? Calendar.year_of ref - k)
          && (Z.min (Calendar.day_of ref)
                    (Calendar.days_in_month (Calendar.year_of ref - k)
                                            (Calendar.month_of ref))
              <=? Calendar.day_of (FECHA r)))).

(** Strictly after [inicio], on or before [fin], in the calendar month of
    [ref]. *)
Definition between (inicio fin ref : Timestamp) (r : fila) : bool :=
  (inicio <? FECHA r) && (FECHA r <=? fin) && same_month ref r.

(** The rows behind the nine means [m1s], [m2s], [m1m], [ma1], [h3a],
    [h5a], [h10a], [h20a] and [ht], in this order. *)
Definition selections (df : list fila) (ref : Timestamp)
  : list (list fila) :=
  [ filter (within_days 7 ref) df;
    filter (within_days 14 ref) df;
    filter (within_days 30 ref) df;
    filter (year_before ref) df;
    filter (within_years 3 ref) df;
    filter (within_years 5 ref) df;
    filter (within_years 10 ref) df;
    filter (within_years 20 ref) df;
    filter (same_month ref) df ].

End Spec.

(** ** Sample series *)

Module Ejemplos.

Local Open Scope string_scope.

Definition fila_de (t : Timestamp) (actual : Q) : fila :=
  {| AMBITO_NOMBRE := "Tajo"; EMBALSE_NOMBRE := "Buendia";
     FECHA := t; AGUA_TOTAL := 16395 # 10; AGUA_ACTUAL := actual |}.

(** Two June readings exactly three calendar years apart. *)
Definition fila_2024 : fila := fila_de (fecha 2024 6 15) (10 # 1).
Definition fila_2021 : fila := fila_de (fecha 2021 6 15) (20 # 1).
Definition serie_tres_anios : list fila := [fila_2024; fila_2021].

(** Two readings a day apart whose mean is exactly 12.345. *)
Definition serie_12_345 : list fila :=
  [fila_de (fecha 2024 6 15) (1234 # 100);
   fila_de (fecha 2024 6 14) (1235 # 100)].

(** The snapshot of [serie_12_345]. *)
Definition stats_12_345 : stats :=
  {| aa := Fin (1234 # 100); at_ := Fin (163950 # 100); f := "2024-06-15";
     m1s := Fin (1234 # 100); m2s := Fin (1234 # 100);
     m1m := Fin (1234 # 100); ma1 := None;
     h3a := Fin (1234 # 100); h5a := Fin (1234 # 100);
     h10a := Fin (1234 # 100); h20a := Fin (1234 # 100);
     ht := Fin (1234 # 100) |}.

(** A series over three years with readings in and out of every
    window. *)
Definition serie_larga : list fila :=
  [fila_de (fecha 2023 5 20) (300 # 1);
   fila_de (fecha 2024 6 15) (1000 # 3);
   fila_de (fecha 2024 6 10) (400 # 1);
   fila_de (fecha 2023 6 20) (250 # 1);
   fila_de (fecha 2024 5 30) (500 # 1);
   fila_de (fecha 2021 6 16) (100 # 1);
   fila_de (fecha 2020 6 1) (50 # 1);
   fila_de (fecha 2003 6 30) (40 # 1)].

End Ejemplos.

(** ** Python values and [json] *)

#[warning="-register-all"]
Inductive pyobj : Type :=
| PyNone
| PyFloat (x : float64)
| PyStr (s : string)
| PyDict (items : list (string * pyobj)).

Module Json.

Local Open Scope string_scope.

Definition digit (d : Z) : ascii := ascii_of_N (48 + Z.to_N d).

Definition hex_digit (d : N) : ascii :=
  if (d <? 10)%N then ascii_of_N (48 + d) else ascii_of_N (87 + d).

(** [ESCAPE_DCT]: what [py_encode_basestring] writes for one character.
    Backslash, the double quote and the control characters below 0x20
    are escaped; every other byte is written as it is. *)
Definition escape_char (c : ascii) : string :=
  let n := N_of_ascii c in
  if (n =? 92)%N then String BACKSLASH (String BACKSLASH EmptyString)
  else if (n =? 34)%N then String BACKSLASH (String QUOTE EmptyString)
  else if (n =? 8)%N then String BACKSLASH "b"
  else if (n =? 12)%N then String BACKSLASH "f"
  else if (n =? 10)%N then String BACKSLASH "n"
  else if (n =? 13)%N then String BACKSLASH "r"
  else if (n =? 9)%N then String BACKSLASH "t"
  else if (n <? 32)%N
       then String BACKSLASH
              ("u00" ++ String (hex_digit (n / 16))
                          (String (hex_digit (n mod 16)) EmptyString))
       else String c EmptyString.

Fixpoint escape (s : string) : string :=
  match s with
  | EmptyString => EmptyString
  | String c rest => escape_char c ++ escape rest
  end.

(** [py_encode_basestring], the string encoder under
    [ensure_ascii=False] *)
Definition py_encode_basestring (s : string) : string :=
  String QUOTE (escape s ++ String QUOTE EmptyString).

(** The decimal digits of [num / den] after the point, for
    [0 <= num < den], at most [fuel] of them, stopping when the
    expansion ends. *)
Fixpoint frac_digits (fuel : nat) (num den : Z) : string :=
  match fuel with
  | O => EmptyString
  | S k =>
      if (num =? 0)%Z then EmptyString
      else String (digit (num * 10 / den))
                  (frac_digits k ((num * 10) mod den) den)
  end.

(** [float.__repr__] on a finite number in positional notation: the
    integer part, a point, and the decimals with no trailing zero (at
    least one decimal).  On a number with two decimals, as [round(x, 2)]
    returns, this is the text Python writes for a [float64] (below 1e16
    in absolute value, where Python changes to exponent notation, and but
    for the sign of a negative zero).  The whole numbers of a column of
    integers, which Python writes without a point, are outside the
    model. *)
Definition repr_Q (q : Q) : string :=
  let n := Z.abs (Qnum q) in
  let d := Zpos (Qden q) in
  (if (Qnum q <? 0)%Z then "-" else EmptyString)
  ++ str_N (Z.to_N (n / d)) ++ "."
  ++ match frac_digits 17 (n mod d) d with
     | EmptyString => "0"
     | s => s
     end.

Definition float_repr (x : float64) : string :=
  match x with
  | NaN => "NaN"
  | Fin q => repr_Q q
  end.

(** [JSONEncoder.iterencode], joined: [indent] is the text of one
    indentation step ([None] without [indent=]). *)
Fixpoint encode (indent : option string)
    (item_separator key_separator : string)
    (current_indent_level : nat) (o : pyobj) {struct o} : string :=
  match o with
  | PyNone => "null"
  | PyFloat x => float_repr x
  | PyStr s => py_encode_basestring s
  | PyDict items =>
      match items with
      | [] => "{}"
      | _ :: _ =>
          let newline_indent :=
            match indent with
            | Some step => nl ++ repeat_string step (S current_indent_level)
            | None => EmptyString
            end in
          let separator := item_separator ++ newline_indent in
          "{" ++ newline_indent
          ++ String.concat separator
               (map (fun kv =>
                       py_encode_basestring (fst kv) ++ key_separator
                       ++ encode indent item_separator key_separator
                            (S current_indent_level) (snd kv))
                    items)
          ++ match indent with
             | Some step => nl ++ repeat_string step current_indent_level
             | None => EmptyString
             end
          ++ "}"
      end
  end.

(** [json.dumps(record, ensure_ascii=False, separators=(',', ':'))] *)
Definition dumps_compact (o : pyobj) : string :=
  encode None "," ":" 0 o.

(** [json.dump(obj, f, ensure_ascii=False, indent=2)] *)
Definition dump_indent2 (o : pyobj) : string :=
  encode (Some "  ") "," ": " 0 o.

(** Reading a JSON text: outside a string literal, inside one, or inside
    one right after a backslash. *)
Inductive lugar : Type := Fuera | Dentro | DentroEscape.

(** The characters of a JSON text that are outside its string literals
    (the quotes that delimit a literal belong to it). *)
Fixpoint fuera_de_cadenas_desde (st : lugar) (s : string) : list ascii :=
  match s with
  | EmptyString => []
  | String c rest =>
      match st with
      | Fuera =>
          if Ascii.eqb c QUOTE then fuera_de_cadenas_desde Dentro rest
          else c :: fuera_de_cadenas_desde Fuera rest
      | Dentro =>
          if Ascii.eqb c BACKSLASH then fuera_de_cadenas_desde DentroEscape rest
          else if Ascii.eqb c QUOTE then fuera_de_cadenas_desde Fuera rest
          else fuera_de_cadenas_desde Dentro rest
      | DentroEscape => fuera_de_cadenas_desde Dentro rest
      end
  end.

Definition fuera_de_cadenas (s : string) : list ascii :=
  fuera_de_cadenas_desde Fuera s.

(** A value that is not a dictionary, and a record all of whose values
    are such: the shape of the records of [to_dict(orient='records')]. *)
Definition escalar (o : pyobj) : bool :=
  match o with
  | PyDict _ => false
  | _ => true
  end.

Definition registro_plano (o : pyobj) : bool :=
  match o with
  | PyDict items => forallb (fun kv => escalar (snd kv)) items
  | _ => false
  end.

(** One [key:value] of a compact record. *)
Definition item_compact (kv : string * pyobj) : string :=
  py_encode_basestring (fst kv) ++ ":" ++ encode None "," ":" 1 (snd kv).

(** A character of a token: not a blank and not a quote. *)
Definition simple (c : ascii) : bool :=
  negb (is_space c) && negb (Ascii.eqb c QUOTE).

Definition sin_salto (c : ascii) : bool := negb (es_salto c).

End Json.

(** ** Configuration *)

Module Config.

Local Open Scope string_scope.

Definition METADATA : pyobj :=
  PyDict [
    ("fuente", PyStr "MITECO");
    ("mapeo", PyDict [
       ("an", PyStr "AMBITO_NOMBRE");
       ("en", PyStr "EMBALSE_NOMBRE");
       ("at", PyStr "AGUA_TOTAL");
       ("aa", PyStr "AGUA_ACTUAL");
       ("f", PyStr "FECHA_ULTIMO_DATO");
       ("m1s", PyStr "Media_Ultima_Semana");
       ("m2s", PyStr "Media_Ultimas_2_Semanas");
       ("m1m", PyStr "Media_Ultimo_Mes");
       ("ma1", PyStr "Media_Mismo_Mes_Anio_Anterior");
       ("h3a", PyStr "Media_Historica_Mes_3_Anios");
       ("h5a", PyStr "Media_Historica_Mes_5_Anios");
       ("h10a", PyStr "Media_Historica_Mes_10_Anios");
       ("h20a", PyStr "Media_Historica_Mes_20_Anios");
       ("ht", PyStr "Media_Historica_Mes_Total")
    ])
  ].

(** The metadata block as it is written, line by line. *)
Definition metadatos_lineas : list string :=
  let par (sangria k v : string) (coma : bool) : string :=
    sangria ++ entre_comillas k ++ ": " ++ entre_comillas v
    ++ (if coma then "," else EmptyString) in
  [ "{";
    par "  " "fuente" "MITECO" true;
    "  " ++ entre_comillas "mapeo" ++ ": {";
    par "    " "an" "AMBITO_NOMBRE" true;
    par "    " "en" "EMBALSE_NOMBRE" true;
    par "    " "at" "AGUA_TOTAL" true;
    par "    " "aa" "AGUA_ACTUAL" true;
    par "    " "f" "FECHA_ULTIMO_DATO" true;
    par "    " "m1s" "Media_Ultima_Semana" true;
    par "    " "m2s" "Media_Ultimas_2_Semanas" true;
    par "    " "m1m" "Media_Ultimo_Mes" true;
    par "    " "ma1" "Media_Mismo_Mes_Anio_Anterior" true;
    par "    " "h3a" "Media_Historica_Mes_3_Anios" true;
    par "    " "h5a" "Media_Historica_Mes_5_Anios" true;
    par "    " "h10a" "Media_Historica_Mes_10_Anios" true;
    par "    " "h20a" "Media_Historica_Mes_20_Anios" true;
    par "    " "ht" "Media_Historica_Mes_Total" false;
    "  }";
    "}" ].

End Config.

(** ** Grouping, assembling and writing: [procesar_datos] *)

Module Proceso.

Local Open Scope string_scope.

(** The grouping key, compared as a tuple of strings. *)
Definition clave : Type := (string * string)%type.

Definition clave_de (r : fila) : clave := (AMBITO_NOMBRE r, EMBALSE_NOMBRE r).

Definition compare_clave (a b : clave) : comparison :=
  match String.compare (fst a) (fst b) with
  | Eq => String.compare (snd a) (snd b)
  | c => c
  end.

(** [df.groupby(['AMBITO_NOMBRE', 'EMBALSE_NOMBRE'])]: the groups by
    ascending key, each with its rows in the order of the frame. *)
Fixpoint insert_group (r : fila) (gs : list (clave * list fila))
  : list (clave * list fila) :=
  match gs with
  | [] => [(clave_de r, [r])]
  | (k, rows) :: rest =>
      match compare_clave (clave_de r) k with
      | Eq => (k, r :: rows) :: rest
      | Lt => (clave_de r, [r]) :: gs
      | Gt => (k, rows) :: insert_group r rest
      end
  end.

Definition groupby (df : list fila) : list (clave * list fila) :=
  fold_right insert_group [] df.

(** The items of the [stats] dictionary, in its order. *)
Definition stats_items (s : stats) : list (string * pyobj) :=
  [ ("aa", PyFloat (aa s));
    ("at", PyFloat (at_ s));
    ("f", PyStr (f s));
    ("m1s", PyFloat (m1s s));
    ("m2s", PyFloat (m2s s));
    ("m1m", PyFloat (m1m s));
    ("ma1", match ma1 s with Some x => PyFloat x | None => PyNone end);
    ("h3a", PyFloat (h3a s));
    ("h5a", PyFloat (h5a s));
    ("h10a", PyFloat (h10a s));
    ("h20a", PyFloat (h20a s));
    ("ht", PyFloat (ht s)) ].

(** One row of the frame that [groupby(...).apply(...)], [reset_index]
    and [rename] build, as the group gives it: the two keys of the group
    under their short names, then the [stats] dictionary. *)
Definition registro (k : clave) (s : stats) : pyobj :=
  PyDict (("an", PyStr (fst k)) :: ("en", PyStr (snd k)) :: stats_items s).

(** [record[key]] on a record; [None] when the key is missing. *)
Definition campo (record : pyobj) (key : string) : option pyobj :=
  match record with
  | PyDict items =>
      option_map snd (List.find (fun kv => String.eqb (fst kv) key) items)
  | _ => None
  end.

(** The value under [key] is a number, or is [None] (JSON [null]). *)
Definition numero_en (record : pyobj) (key : string) : Prop :=
  exists q, campo record key = Some (PyFloat (Fin q)).

Definition nulo_en (record : pyobj) (key : string) : Prop :=
  campo record key = Some PyNone.

(** The short keys of the eight means that are not [ma1]. *)
Definition claves_medias : list string :=
  ["m1s"; "m2s"; "m1m"; "h3a"; "h5a"; "h10a"; "h20a"; "ht"].

(** The type of a column of the frame.  The frame is built from the rows
    of all the groups, and the type of a column is inferred from its
    cells: a column that holds a number is a [float64] column, one that
    holds none (the names, the text of the date, a [ma1] that is [None]
    for every reservoir) is a column of objects. *)
Inductive dtype : Type :=
| Float64
| Object.

Definition dtype_columna (rows : list pyobj) (key : string) : dtype :=
  if existsb (fun row =>
                match campo row key with
                | Some (PyFloat _) => true
                | _ => false
                end) rows
  then Float64
  else Object.

(** A cell as its column stores it: a [float64] column has no [None],
    a missing value in it is [nan]. *)
Definition celda (d : dtype) (v : pyobj) : pyobj :=
  match d, v with
  | Float64, PyNone => PyFloat NaN
  | _, _ => v
  end.

(** [df.where(pd.notnull(df), None)] on a cell of a column of type [d]:
    in a column of objects a missing cell becomes [None]; in a [float64]
    column the [None] put in place of [nan] is stored as [nan] again, so
    the cell stays [nan]. *)
Definition where_notnull (d : dtype) (v : pyobj) : pyobj :=
  match d, v with
  | Object, PyFloat NaN => PyNone
  | _, _ => v
  end.

(** The rows of the frame of step 3, one for each group. *)
Definition filas_agrupadas (df : list fila) : list pyobj :=
  flat_map (fun g =>
              match calcular_estadisticas_embalse (snd g) with
              | Some s => [registro (fst g) s]
              | None => []
              end)
           (groupby df).

(** One record of [to_dict(orient='records')] after [where]: the cells of
    a row as the columns of the frame hold them. *)
Definition a_registro (rows : list pyobj) (row : pyobj) : pyobj :=
  match row with
  | PyDict items =>
      PyDict
        (map (fun kv =>
                let d := dtype_columna rows (fst kv) in
                (fst kv, where_notnull d (celda d (snd kv))))
             items)
  | _ => row
  end.

(** Steps 3 and 4 up to the list of records. *)
Definition datos (df : list fila) : list pyobj :=
  let rows := filas_agrupadas df in
  map (a_registro rows) rows.

(** The loop over [enumerate(records)]: [i] is the index of the head of
    [records], [total] is [len(records)]. *)
Fixpoint escribir_registros (i total : Z) (records : list pyobj) : string :=
  match records with
  | [] => EmptyString
  | record :: rest =>
      "    " ++ Json.dumps_compact record
      ++ (if (i <? total - 1)%Z then "," ++ nl else nl)
      ++ escribir_registros (i + 1) total rest
  end.

(** Everything the hybrid writer sends to the file. *)
Definition escritura_hibrida (metadatos : pyobj) (records : list pyobj)
  : string :=
  "{" ++ nl ++ "  " ++ entre_comillas "metadatos" ++ ": "
  ++ Json.dump_indent2 metadatos
  ++ "," ++ nl ++ "  " ++ entre_comillas "datos" ++ ": [" ++ nl
  ++ escribir_registros 0 (Z.of_nat (List.length records)) records
  ++ "  ]" ++ nl ++ "}" ++ nl.

(** The text of the data lines as the specification lays them out: each
    record but the last on a line ending in a comma, the last on a line of
    its own. *)
Fixpoint lineas_de_datos (anteriores : list pyobj) (ultimo : pyobj)
  : string :=
  match anteriores with
  | [] => "    " ++ Json.dumps_compact ultimo ++ nl
  | record :: resto =>
      "    " ++ Json.dumps_compact record ++ "," ++ nl
      ++ lineas_de_datos resto ultimo
  end.

(** The record of a reservoir whose name has a space in it, and a frame
    of two reservoirs. *)
Definition registro_la_serena : pyobj :=
  registro ("Guadiana", "La Serena") Ejemplos.stats_12_345.

Definition registro_buendia : pyobj :=
  registro ("Tajo", "Buendia") Ejemplos.stats_12_345.

Definition dos_embalses : list fila :=
  [ {| AMBITO_NOMBRE := "Tajo"; EMBALSE_NOMBRE := "Buendia";
       FECHA := fecha 2024 6 15; AGUA_TOTAL := 16395 # 10;
       AGUA_ACTUAL := 1234 # 100 |};
    {| AMBITO_NOMBRE := "Guadiana"; EMBALSE_NOMBRE := "La Serena";
       FECHA := fecha 2024 6 15; AGUA_TOTAL := 16395 # 10;
       AGUA_ACTUAL := 1234 # 100 |};
    {| AMBITO_NOMBRE := "Tajo"; EMBALSE_NOMBRE := "Buendia";
       FECHA := fecha 2024 6 14; AGUA_TOTAL := 16395 # 10;
       AGUA_ACTUAL := 1235 # 100 |} ].

(** A frame of two reservoirs: Buendia has a row in June of the year
    before its latest date, Mequinenza has its latest row only. *)
Definition con_y_sin_anio_anterior : list fila :=
  [ {| AMBITO_NOMBRE := "Tajo"; EMBALSE_NOMBRE := "Buendia";
       FECHA := fecha 2024 6 15; AGUA_TOTAL := 16395 # 10;
       AGUA_ACTUAL := 1234 # 100 |};
    {| AMBITO_NOMBRE := "Tajo"; EMBALSE_NOMBRE := "Buendia";
       FECHA := fecha 2023 6 15; AGUA_TOTAL := 16395 # 10;
       AGUA_ACTUAL := 2505 # 10 |};
    {| AMBITO_NOMBRE := "Ebro"; EMBALSE_NOMBRE := "Mequinenza";
       FECHA := fecha 2024 6 15; AGUA_TOTAL := 15335 # 10;
       AGUA_ACTUAL := 9876 # 10 |} ].

End Proceso.

(** ** The run: files, the change gate and [main] *)

Module Pipeline.

Local Open Scope string_scope.

(** The four files the program touches. *)
Inductive archivo : Type := ZIP_FILE | MDB_FILE | HASH_FILE | JSON_OUTPUT.

Definition archivo_eqb (a b : archivo) : bool :=
  match a, b with
  | ZIP_FILE, ZIP_FILE | MDB_FILE, MDB_FILE
  | HASH_FILE, HASH_FILE | JSON_OUTPUT, JSON_OUTPUT => true
  | _, _ => false
  end.

(** The working directory: the content of each file, if it exists. *)
Definition disco : Type := archivo -> option string.

Definition escribir (d : disco) (a : archivo) (contenido : string) : disco :=
  fun b => if archivo_eqb a b then Some contenido else d b.

Definition borrar (d : disco) (a : archivo) : disco :=
  fun b => if archivo_eqb a b then None else d b.

(** What the server sends: the bytes received, whether the transfer
    broke off after them, and the members of the archive (name and
    content) when the bytes are a readable ZIP. *)
Record respuesta : Type := mk_respuesta {
  contenido : string;
  interrumpida : bool;
  miembros : option (list (string * string))
}.

(** How writing [JSON_OUTPUT] goes. *)
Inductive resultado_escritura : Type :=
| EscrituraOk
| FalloAlAbrir
| FalloTras (n : nat).

(** The world outside the program during one run.  [requests_get] is
    [None] when the request raises; [mdb_export] stands for [mdb-export],
    [read_csv] and the cleaning of step 2, [None] when the extraction
    fails; [sha256_hexdigest] is [get_file_hash] on the bytes of a file. *)
Record entorno : Type := mk_entorno {
  requests_get : option respuesta;
  sha256_hexdigest : string -> string;
  mdb_export : string -> option (list fila);
  escritura : resultado_escritura
}.

(** How a call ends: it returns, it calls [sys.exit], or an exception
    leaves it. *)
Inductive salida : Type :=
| Retorna
| SysExit (code : Z)
| Excepcion.

(** The exit status of the process: an uncaught exception ends the
    interpreter with status 1. *)
Definition exit_status (s : salida) : Z :=
  match s with
  | Retorna => 0
  | SysExit code => code
  | Excepcion => 1
  end.

(** What a run does, in order: [procesar_datos] is entered, the
    statistics are computed, [JSON_OUTPUT] is written to the end, the
    fingerprint is stored. *)
Inductive evento : Type :=
| EvProcesar
| EvEstadisticas
| EvEscrituraJson
| EvGuardarHash.

Record resultado : Type := mk_resultado {
  estado : salida;
  disco_final : disco;
  traza : list evento
}.

Definition lower_char (c : ascii) : ascii :=
  let n := N_of_ascii c in
  if ((65 <=? n) && (n <=? 90))%N then ascii_of_N (n + 32) else c.

Fixpoint lower (s : string) : string :=
  match s with
  | EmptyString => EmptyString
  | String c rest => String (lower_char c) (lower rest)
  end.

Definition endswith (s suffix : string) : bool :=
  let ls := String.length s in
  let lf := String.length suffix in
  (lf <=? ls)%nat && String.eqb (substring (ls - lf) lf s) suffix.

(** The first member whose name ends in [.mdb], case ignored. *)
Definition mdb_interno (nombres : list string) : option string :=
  List.find (fun nombre => endswith (lower nombre) ".mdb") nombres.

(** [zip_ref.open(name)]: the last member of that name. *)
Definition zip_open (ms : list (string * string)) (name : string)
  : option string :=
  option_map snd (List.find (fun m => String.eqb (fst m) name) (rev ms)).

(** [descargar_y_extraer]: every exception inside it becomes
    [sys.exit(1)]. *)
Definition descargar_y_extraer (env : entorno) (d : disco)
  : salida * disco :=
  match requests_get env with
  | None => (SysExit 1, d)
  | Some resp =>
      let d1 := escribir d ZIP_FILE (contenido resp) in
      if interrumpida resp then (SysExit 1, d1)
      else
        match miembros resp with
        | None => (SysExit 1, d1)
        | Some ms =>
            match mdb_interno (map fst ms) with
            | None => (SysExit 1, d1)
            | Some nombre =>
                match zip_open ms nombre with
                | None => (SysExit 1, d1)
                | Some datos_mdb =>
                    (Retorna, borrar (escribir d1 MDB_FILE datos_mdb) ZIP_FILE)
                end
            end
        end
  end.

Fixpoint lstrip (s : string) : string :=
  match s with
  | EmptyString => EmptyString
  | String c rest => if is_space c then lstrip rest else s
  end.

Fixpoint rstrip (s : string) : string :=
  match s with
  | EmptyString => EmptyString
  | String c rest =>
      match rstrip rest with
      | EmptyString => if is_space c then EmptyString else String c EmptyString
      | r => String c r
      end
  end.

(** [str.strip()] on text whose white space is ASCII white space; the
    white space that Unicode adds is left in place here. *)
Definition strip (s : string) : string := rstrip (lstrip s).

(** [with open(JSON_OUTPUT, 'w') as f]: the writes of the hybrid
    writer. *)
Definition escribir_json (env : entorno) (d : disco) (texto : string)
  : salida * disco :=
  match escritura env with
  | EscrituraOk => (Retorna, escribir d JSON_OUTPUT texto)
  | FalloAlAbrir => (Excepcion, d)
  | FalloTras n => (Excepcion, escribir d JSON_OUTPUT (substring 0 n texto))
  end.

Definition procesar_datos (env : entorno) (d : disco) : resultado :=
  match d MDB_FILE with
  | None => mk_resultado (SysExit 1) d [EvProcesar]
  | Some bytes =>
      match mdb_export env bytes with
      | None => mk_resultado (SysExit 1) d [EvProcesar]
      | Some df =>
          let records := Proceso.datos df in
          let texto := Proceso.escritura_hibrida Config.METADATA records in
          match escribir_json env d texto with
          | (Retorna, d1) =>
              mk_resultado Retorna d1
                [EvProcesar; EvEstadisticas; EvEscrituraJson]
          | (s, d1) => mk_resultado s d1 [EvProcesar; EvEstadisticas]
          end
      end
  end.

(** The change gate: a fingerprint is stored and, stripped, it is the
    digest of the file just extracted. *)
Definition sin_cambios (d : disco) (current_hash : string) : bool :=
  match d HASH_FILE with
  | Some guardado => String.eqb current_hash (strip guardado)
  | None => false
  end.

(** The bytes of the database that the download yields, when it goes
    through. *)
Definition mdb_descargado (env : entorno) : option string :=
  match requests_get env with
  | None => None
  | Some resp =>
      if interrumpida resp then None
      else
        match miembros resp with
        | None => None
        | Some ms =>
            match mdb_interno (map fst ms) with
            | None => None
            | Some nombre => zip_open ms nombre
            end
        end
  end.

Definition main (env : entorno) (d : disco) : resultado :=
  match descargar_y_extraer env d with
  | (Retorna, d1) =>
      match d1 MDB_FILE with
      | None => mk_resultado Excepcion d1 []
      | Some bytes =>
          let current_hash := sha256_hexdigest env bytes in
          if sin_cambios d1 current_hash
          then mk_resultado (SysExit 0) (borrar d1 MDB_FILE) []
          else
            let r := procesar_datos env d1 in
            match estado r with
            | Retorna =>
                mk_resultado Retorna
                  (borrar (escribir (disco_final r) HASH_FILE current_hash)
                          MDB_FILE)
                  (traza r ++ [EvGuardarHash])
            | _ => r
            end
      end
  | (s, d1) => mk_resultado s d1 []
  end.

(** A sample run: an archive with the database in a subfolder, a stand-in
    digest, and an extraction that yields the long sample series. *)
Definition entorno_ejemplo : entorno :=
  {| requests_get :=
       Some {| contenido := "PK-archive";
               interrumpida := false;
               miembros := Some [("LEEME.txt", "notas");
                                 ("datos/BD-Embalses.MDB", "mdb-bytes")] |};
     sha256_hexdigest := fun _ => "9f86d081884c7d65";
     mdb_export := fun _ => Some Ejemplos.serie_larga;
     escritura := EscrituraOk |}.

(** An empty working directory: the first run. *)
Definition disco_vacio : disco := fun _ => None.

End Pipeline.

(** ** The selections of the statistics, as tests on the rows of a series *)

(** Dated within [n] days before the latest date. *)
Definition en_dias (n : Z) (df : list fila) (r : fila) : bool :=
  max_fecha df - n <=? FECHA r.

(** In the calendar month of the latest date. *)
Definition en_mes (df : list fila) (r : fila) : bool :=
  Calendar.month_of (FECHA r) =? Calendar.month_of (max_fecha df).

(** In that month, and not before the latest date minus [anios] years. *)
Definition en_anios (anios : Z) (df : list fila) (r : fila) : bool :=
  en_mes df r
  && (ts_sub (max_fecha df) {| years := anios; months := 0 |} <=? FECHA r).

(** In that month of the calendar year before the one of the latest
    date. *)
Definition en_mes_anio_anterior (df : list fila) (r : fila) : bool :=
  en_mes df r
  && (Calendar.year_of (FECHA r) =? Calendar.year_of (max_fecha df) - 1).

(** The nine means of a snapshot, in the order of the dictionary. *)
Definition medias (s : stats) : list (option float64) :=
  [ Some (m1s s); Some (m2s s); Some (m1m s); ma1 s; Some (h3a s);
    Some (h5a s); Some (h10a s); Some (h20a s); Some (ht s) ].

(** ** Groups, by key *)

(** Two keys are the same pair of names. *)
Definition clave_eqb (a b : Proceso.clave) : bool :=
  String.eqb (fst a) (fst b) && String.eqb (snd a) (snd b).

(** One key sorts strictly before another. *)
Definition clave_lt (a b : Proceso.clave) : Prop :=
  Proceso.compare_clave a b = Lt.

(** The rows of a frame that carry a key, in the order of the frame. *)
Definition filas_de (k : Proceso.clave) (df : list fila) : list fila :=
  filter (fun r => clave_eqb (Proceso.clave_de r) k) df.

(** The rows grouped under a key, none when the key has no group. *)
Definition grupo_de (k : Proceso.clave)
    (gs : list (Proceso.clave * list fila)) : list fila :=
  match List.find (fun g => clave_eqb (fst g) k) gs with
  | Some g => snd g
  | None => []
  end.

(** ** Reading the output *)

Module Lectura.

Local Open Scope string_scope.

(** The keys of a dictionary, in its order. *)
Definition claves_dict (o : pyobj) : list string :=
  match o with
  | PyDict items => map fst items
  | _ => []
  end.

(** [METADATA["mapeo"]] *)
Definition mapeo : pyobj :=
  match Proceso.campo Config.METADATA "mapeo" with
  | Some m => m
  | None => PyNone
  end.

(** The mean of a snapshot under one of the eight keys that are not
    [ma1]. *)
Definition media_de (s : stats) (key : string) : float64 :=
  if String.eqb key "m1s" then m1s s
  else if String.eqb key "m2s" then m2s s
  else if String.eqb key "m1m" then m1m s
  else if String.eqb key "h3a" then h3a s
  else if String.eqb key "h5a" then h5a s
  else if String.eqb key "h10a" then h10a s
  else if String.eqb key "h20a" then h20a s
  else ht s.

(** The number of line feeds of a text. *)
Definition saltos (s : string) : nat :=
  count_occ ascii_dec (chars s) LF.

(** The decimals that positional notation gives to [r] hundredths,
    [0 <= r < 100]: one digit when the second would be a zero, two
    otherwise. *)
Definition decimales (r : Z) : string :=
  if (r mod 10 =? 0)%Z
  then String (Json.digit (r / 10)) EmptyString
  else String (Json.digit (r / 10))
         (String (Json.digit (r mod 10)) EmptyString).

Definition check_decimales (r : Z) : bool :=
  String.eqb
    (match Json.frac_digits 17 r 100 with
     | EmptyString => "0"
     | s => s
     end)
    (decimales r).

End Lectura.

(** ** Names in the archive *)

(** The name, in lower case, is some text followed by [.mdb]. *)
Definition termina_en_mdb (nombre : string) : Prop :=
  exists inicio, Pipeline.lower nombre = (inicio ++ ".mdb")%string.

(** ** The fingerprint of a file *)

Module Huella.

Local Open Scope string_scope.

(** The bytes asked for at each read. *)
Definition BLOQUE : nat := 4096.

(** [f.read(n)] on what is left of the file: up to [n] bytes, and what is
    left after them. *)
Fixpoint read (n : nat) (resto : string) : string * string :=
  match n, resto with
  | S k, String c r => let (chunk, r') := read k r in (String c chunk, r')
  | _, _ => (EmptyString, resto)
  end.

(** [for chunk in iter(lambda: f.read(n), b''): hasher.update(chunk)]: the
    hasher is the bytes it has been fed, in order. *)
Fixpoint bucle (fuel n : nat) (resto hasher : string) : option string :=
  match fuel with
  | O => None
  | S k =>
      match read n resto with
      | (EmptyString, _) => Some hasher
      | (chunk, resto') => bucle k n resto' (hasher ++ chunk)
      end
  end.

(** [get_file_hash]: [None] when the file cannot be opened. *)
Definition get_file_hash (sha256_hexdigest : string -> string)
    (d : Pipeline.disco) (filepath : Pipeline.archivo) : option string :=
  match d filepath with
  | None => None
  | Some contenido =>
      option_map sha256_hexdigest
        (bucle (S (String.length contenido)) BLOQUE contenido EmptyString)
  end.

(** A hexadecimal digit in lower case, as [hexdigest] gives. *)
Definition es_hex (c : ascii) : bool :=
  let n := N_of_ascii c in
  (((48 <=? n) && (n <=? 57)) || ((97 <=? n) && (n <=? 102)))%N.

End Huella.

(** ** The names of the columns *)

Module Limpieza.

Local Open Scope string_scope.

(** [c.split(QUOTE)[0]]: the text before the first double quote. *)
Fixpoint antes_de_comilla (s : string) : string :=
  match s with
  | EmptyString => EmptyString
  | String c rest =>
      if Ascii.eqb c Texto.QUOTE then EmptyString
      else String c (antes_de_comilla rest)
  end.

(** [s.replace(' ', '_')] *)
Fixpoint replace_espacio (s : string) : string :=
  match s with
  | EmptyString => EmptyString
  | String c rest =>
      String (if Ascii.eqb c " " then "_"%char else c) (replace_espacio rest)
  end.

(** An ASCII character that is no white space and no double quote. *)
Definition es_llano (a : ascii) : bool :=
  (N_of_ascii a <? 128)%N && negb (Texto.is_space a)
  && negb (Ascii.eqb a Texto.QUOTE).

(** [c.split(QUOTE)[0].strip().replace(' ', '_')] *)
Definition limpiar_columna (c : string) : string :=
  replace_espacio (Pipeline.strip (antes_de_comilla c)).

End Limpieza.
(* ================================================================== *)
(** * Part II. Lemmas and theorems                                      *)
(* ================================================================== *)

(** ** The calendar: [ord2ymd] and [ymd2ord] are inverse, and [ymd2ord]
    is monotone *)

Module CalendarFacts.
Import Calendar.

Lemma check_upto_sound (chk : Z -> bool) (k : nat) :
  forall n, check_upto chk k n = true ->
  forall i, n <= i < n + Z.of_nat k -> chk i = true.
Proof.
  induction k as [|k IH]; intros n H i Hi.
  - simpl in Hi. lia.
  - simpl in H. apply andb_true_iff in H as [H0 H1].
    destruct (Z.eq_dec i n) as [->|Hne]; [assumption|].
    apply (IH (n + 1) H1). lia.
Qed.

Lemma month_day_ok (leapyear : bool) (n : Z) :
  0 <= n < 365 + (if leapyear then 1 else 0) ->
  check_month_day leapyear n = true.
Proof.
  intros Hn.
  destruct leapyear; simpl in Hn.
  - apply (check_upto_sound (check_month_day true) 366 0); [vm_compute; reflexivity|lia].
  - apply (check_upto_sound (check_month_day false) 365 0); [vm_compute; reflexivity|lia].
Qed.

Lemma is_leap_decomp (q400 q100 q4 q1 : Z) :
  0 <= q100 <= 3 -> 0 <= q4 <= 24 -> 0 <= q1 <= 3 ->
  is_leap (q400 * 400 + 1 + q100 * 100 + q4 * 4 + q1)
  = (q1 =? 3) && (negb (q4 =? 24) || (q100 =? 3)).
Proof.
  intros H100 H4 H1. unfold is_leap.
  set (y := q400 * 400 + 1 + q100 * 100 + q4 * 4 + q1).
  assert (E4 : y mod 4 = (q1 + 1) mod 4).
  { unfold y. replace (q400 * 400 + 1 + q100 * 100 + q4 * 4 + q1)
      with (q1 + 1 + (q400 * 100 + q100 * 25 + q4) * 4) by ring.
    apply Z_mod_plus_full. }
  assert (E100 : y mod 100 = (q4 * 4 + q1 + 1) mod 100).
  { unfold y. replace (q400 * 400 + 1 + q100 * 100 + q4 * 4 + q1)
      with (q4 * 4 + q1 + 1 + (q400 * 4 + q100) * 100) by ring.
    apply Z_mod_plus_full. }
  assert (E400 : y mod 400 = (q100 * 100 + q4 * 4 + q1 + 1) mod 400).
  { unfold y. replace (q400 * 400 + 1 + q100 * 100 + q4 * 4 + q1)
      with (q100 * 100 + q4 * 4 + q1 + 1 + q400 * 400) by ring.
    apply Z_mod_plus_full. }
  rewrite E4, E100, E400. clearbody y.
  destruct (Z.eqb_spec q1 3), (Z.eqb_spec q4 24), (Z.eqb_spec q100 3);
    destruct (Z.eqb_spec ((q1 + 1) mod 4) 0),
             (Z.eqb_spec ((q4 * 4 + q1 + 1) mod 100) 0),
             (Z.eqb_spec ((q100 * 100 + q4 * 4 + q1 + 1) mod 400) 0);
    simpl; try reflexivity; exfalso; Z.div_mod_to_equations; lia.
Qed.

Lemma days_before_year_decomp (q400 q100 q4 q1 : Z) :
  0 <= q100 <= 3 -> 0 <= q4 <= 24 -> 0 <= q1 <= 3 ->
  days_before_year (q400 * 400 + 1 + q100 * 100 + q4 * 4 + q1)
  = q400 * 146097 + q100 * 36524 + q4 * 1461 + q1 * 365.
Proof.
  intros H100 H4 H1. unfold days_before_year.
  Z.div_mod_to_equations. lia.
Qed.


Lemma ord2ymd_unfold (ordinal : Z) :
  let a := ordinal - 1 in
  let q400 := a / 146097 in
  let q100 := (a mod 146097) / 36524 in
  let q4 := ((a mod 146097) mod 36524) / 1461 in
  let q1 := (((a mod 146097) mod 36524) mod 1461) / 365 in
  let r1 := (((a mod 146097) mod 36524) mod 1461) mod 365 in
  let year := q400 * 400 + 1 + q100 * 100 + q4 * 4 + q1 in
  ord2ymd ordinal =
  if (q1 =? 4) || (q100 =? 4) then (year - 1, 12, 31)
  else
    let leapyear := (q1 =? 3) && (negb (q4 =? 24) || (q100 =? 3)) in
    (year, fst (month_day leapyear r1), snd (month_day leapyear r1)).
Proof.
  intros a q400 q100 q4 q1 r1 year.
  unfold ord2ymd, DI400Y, DI100Y, DI4Y.
  fold a. fold q400. fold q100. fold q4. fold q1. fold r1. fold year.
  destruct ((q1 =? 4) || (q100 =? 4)); [reflexivity|].
  cbv zeta. unfold month_day.
  destruct (r1 <? _); reflexivity.
Qed.

Lemma ord2ymd_spec (n : Z) :
  valid_date (year_of n) (month_of n) (day_of n)
  /\ ymd2ord (year_of n) (month_of n) (day_of n) = n.
Proof.
  unfold year_of, month_of, day_of.
  rewrite (ord2ymd_unfold n). cbv zeta.
  set (a := n - 1).
  set (r400 := a mod 146097). set (q400 := a / 146097).
  set (r100 := r400 mod 36524). set (q100 := r400 / 36524).
  set (r4 := r100 mod 1461). set (q4 := r100 / 1461).
  set (r1 := r4 mod 365). set (q1 := r4 / 365).
  assert (Ea : a = 146097 * q400 + r400 /\ 0 <= r400 < 146097)
    by (unfold q400, r400; Z.div_mod_to_equations; lia).
  assert (E400 : r400 = 36524 * q100 + r100 /\ 0 <= r100 < 36524)
    by (unfold q100, r100; Z.div_mod_to_equations; lia).
  assert (E100 : r100 = 1461 * q4 + r4 /\ 0 <= r4 < 1461)
    by (unfold q4, r4; Z.div_mod_to_equations; lia).
  assert (E4 : r4 = 365 * q1 + r1 /\ 0 <= r1 < 365)
    by (unfold q1, r1; Z.div_mod_to_equations; lia).
  clearbody r400 q400 r100 q100 r4 q4 r1 q1.
  assert (Hn : n = a + 1) by (unfold a; lia). clearbody a.
  assert (B100 : 0 <= q100 <= 4) by lia.
  assert (B4 : 0 <= q4 <= 24) by lia.
  assert (B1 : 0 <= q1 <= 4) by lia.
  destruct (Z.eqb_spec q1 4) as [K1|K1]; simpl orb.
  - (* last day of the fourth year of a four-year cycle *)
    simpl fst; simpl snd.
    replace (q400 * 400 + 1 + q100 * 100 + q4 * 4 + q1 - 1)
      with (q400 * 400 + 1 + q100 * 100 + q4 * 4 + 3) by lia.
    assert (L : is_leap (q400 * 400 + 1 + q100 * 100 + q4 * 4 + 3) = true).
    { rewrite is_leap_decomp by lia.
      destruct (Z.eqb_spec q4 24); [lia|reflexivity]. }
    unfold valid_date, ymd2ord, days_in_month, days_before_month.
    rewrite L, days_before_year_decomp by lia. simpl. lia.
  - destruct (Z.eqb_spec q100 4) as [K100|K100].
    + (* last day of a 400-year cycle *)
      simpl fst; simpl snd.
      assert (q4 = 0 /\ q1 = 0) as [-> ->] by lia. subst q100.
      replace (q400 * 400 + 1 + 4 * 100 + 0 * 4 + 0 - 1)
        with (q400 * 400 + 1 + 3 * 100 + 24 * 4 + 3) by lia.
      assert (L : is_leap (q400 * 400 + 1 + 3 * 100 + 24 * 4 + 3) = true)
        by (rewrite is_leap_decomp by lia; reflexivity).
      unfold valid_date, ymd2ord, days_in_month, days_before_month.
      rewrite L, days_before_year_decomp by lia. simpl. lia.
    + simpl fst; simpl snd.
      set (leapyear := (q1 =? 3) && (negb (q4 =? 24) || (q100 =? 3))).
      assert (L : is_leap (q400 * 400 + 1 + q100 * 100 + q4 * 4 + q1)
                  = leapyear) by (apply is_leap_decomp; lia).
      assert (M : check_month_day leapyear r1 = true)
        by (apply month_day_ok; destruct leapyear; simpl; lia).
      unfold check_month_day in M.
      destruct (month_day leapyear r1) as [m d]. simpl fst; simpl snd.
      rewrite !andb_true_iff in M.
      destruct M as [[[[M1 M2] M3] M4] M5].
      apply Z.leb_le in M1, M2, M3, M4. apply Z.eqb_eq in M5.
      unfold valid_date, ymd2ord, days_in_month, days_before_month.
      rewrite L, days_before_year_decomp by lia. lia.
Qed.


Lemma days_before_year_succ (y : Z) :
  days_before_year (y + 1) = days_before_year y + year_length y.
Proof.
  unfold days_before_year, year_length, is_leap.
  replace (y + 1 - 1) with y by lia.
  destruct (Z.eqb_spec (y mod 4) 0), (Z.eqb_spec (y mod 100) 0),
           (Z.eqb_spec (y mod 400) 0); simpl;
    Z.div_mod_to_equations; lia.
Qed.

Lemma days_before_year_mono (y1 y2 : Z) :
  y1 <= y2 -> days_before_year y1 <= days_before_year y2.
Proof.
  unfold days_before_year. intros H.
  Z.div_mod_to_equations. lia.
Qed.

Ltac cal_simpl :=
  cbn [DAYS_BEFORE_MONTH DAYS_IN_MONTH Z.eqb Z.ltb Z.leb Z.compare Pos.eqb
       Pos.compare Pos.compare_cont andb orb negb CompOpp] in *.

Ltac month_cases m :=
  let H := fresh in
  assert (H : m = 1 \/ m = 2 \/ m = 3 \/ m = 4 \/ m = 5 \/ m = 6 \/ m = 7
              \/ m = 8 \/ m = 9 \/ m = 10 \/ m = 11 \/ m = 12) by lia;
  repeat (destruct H as [H|H]; [subst m|]); [..|subst m].

Lemma day_of_year_bounds (y m d : Z) :
  valid_date y m d ->
  1 <= days_before_month y m + d <= year_length y.
Proof.
  unfold valid_date, days_before_month, days_in_month, year_length.
  intros [Hm Hd]. month_cases m; destruct (is_leap y); cal_simpl; lia.
Qed.

Lemma days_before_month_next (y m1 m2 : Z) :
  1 <= m1 -> m1 < m2 -> m2 <= 12 ->
  days_before_month y m1 + days_in_month y m1 <= days_before_month y m2.
Proof.
  unfold days_before_month, days_in_month. intros H1 H12 H2.
  month_cases m1; month_cases m2; try lia;
    destruct (is_leap y); cal_simpl; lia.
Qed.

Lemma ymd2ord_lt_year (y1 m1 d1 y2 m2 d2 : Z) :
  y1 < y2 -> valid_date y1 m1 d1 -> 1 <= m2 <= 12 -> 1 <= d2 ->
  ymd2ord y1 m1 d1 < ymd2ord y2 m2 d2.
Proof.
  intros Hy V1 Hm2 Hd2. unfold ymd2ord.
  pose proof (day_of_year_bounds _ _ _ V1) as B1.
  pose proof (days_before_year_succ y1) as S1.
  pose proof (days_before_year_mono (y1 + 1) y2 ltac:(lia)) as Mo.
  assert (0 <= days_before_month y2 m2).
  { unfold days_before_month. month_cases m2; destruct (is_leap y2); cal_simpl; lia. }
  lia.
Qed.

Lemma ymd2ord_lt_month (y m1 d1 m2 d2 : Z) :
  m1 < m2 -> valid_date y m1 d1 -> m2 <= 12 -> 1 <= d2 ->
  ymd2ord y m1 d1 < ymd2ord y m2 d2.
Proof.
  intros Hm [Hm1 Hd1] Hm2 Hd2. unfold ymd2ord.
  pose proof (days_before_month_next y m1 m2 ltac:(lia) Hm Hm2). lia.
Qed.

Lemma ymd2ord_inj (y1 m1 d1 y2 m2 d2 : Z) :
  valid_date y1 m1 d1 -> valid_date y2 m2 d2 ->
  ymd2ord y1 m1 d1 = ymd2ord y2 m2 d2 ->
  (y1, m1, d1) = (y2, m2, d2).
Proof.
  intros V1 V2 E.
  assert (y1 = y2).
  { destruct (Z.lt_trichotomy y1 y2) as [L|[->|L]]; [|reflexivity|].
    - pose proof (ymd2ord_lt_year y1 m1 d1 y2 m2 d2 L V1
                    (proj1 V2) (proj1 (proj2 V2))). lia.
    - pose proof (ymd2ord_lt_year y2 m2 d2 y1 m1 d1 L V2
                    (proj1 V1) (proj1 (proj2 V1))). lia. }
  subst y2.
  assert (m1 = m2).
  { destruct (Z.lt_trichotomy m1 m2) as [L|[->|L]]; [|reflexivity|].
    - pose proof (ymd2ord_lt_month y1 m1 d1 m2 d2 L V1
                    (proj2 (proj1 V2)) (proj1 (proj2 V2))). lia.
    - pose proof (ymd2ord_lt_month y1 m2 d2 m1 d1 L V2
                    (proj2 (proj1 V1)) (proj1 (proj2 V1))). lia. }
  subst m2. unfold ymd2ord in E. f_equal. lia.
Qed.

Lemma ord2ymd_ymd2ord (y m d : Z) :
  valid_date y m d -> ord2ymd (ymd2ord y m d) = (y, m, d).
Proof.
  intros V.
  generalize (ord2ymd_spec (ymd2ord y m d)).
  unfold year_of, month_of, day_of.
  generalize (ord2ymd (ymd2ord y m d)). intros [[y' m'] d'].
  cbn [fst snd]. intros [V' E'].
  apply ymd2ord_inj; assumption.
Qed.

Lemma days_in_month_min (y m : Z) :
  1 <= m <= 12 -> 28 <= days_in_month y m <= 31.
Proof.
  unfold days_in_month. intros Hm.
  month_cases m; destruct (is_leap y); cal_simpl; lia.
Qed.

(** Clamping the day to the length of the target month gives a date. *)
Lemma valid_date_clamp (y m d : Z) :
  1 <= m <= 12 -> 1 <= d ->
  valid_date y m (Z.min (days_in_month y m) d).
Proof.
  intros Hm Hd. pose proof (days_in_month_min y m Hm).
  unfold valid_date. lia.
Qed.

End CalendarFacts.

(** ** Dates relative to the reference date *)

Section RelativeDates.
Import Calendar CalendarFacts.

Lemma ord2ymd_fields (t : Timestamp) :
  ord2ymd t = (year_of t, month_of t, day_of t).
Proof.
  unfold year_of, month_of, day_of. destruct (ord2ymd t) as [[y m] d].
  reflexivity.
Qed.

(** [t - relativedelta(years=k)], spelled out. *)
Lemma ts_sub_years_eq (t : Timestamp) (k : Z) :
  ts_sub t {| years := k; months := 0 |}
  = ymd2ord (year_of t - k) (month_of t)
      (Z.min (days_in_month (year_of t - k) (month_of t)) (day_of t)).
Proof.
  unfold ts_sub, rd_radd, rd_neg. cbn [years months].
  rewrite (ord2ymd_fields t). cbn [Z.opp Z.eqb].
  replace (year_of t + - k) with (year_of t - k) by lia. reflexivity.
Qed.

Lemma ts_sub_years_valid (t : Timestamp) (k : Z) :
  valid_date (year_of t - k) (month_of t)
    (Z.min (days_in_month (year_of t - k) (month_of t)) (day_of t)).
Proof.
  destruct (ord2ymd_spec t) as [[Hm Hd] _].
  apply valid_date_clamp; lia.
Qed.

(** Going back one year or more lands strictly before the date. *)
Lemma ts_sub_years_lt (t : Timestamp) (k : Z) :
  1 <= k -> ts_sub t {| years := k; months := 0 |} < t.
Proof.
  intros Hk. rewrite ts_sub_years_eq.
  destruct (ord2ymd_spec t) as [[Hm Hd] E].
  pose proof (ymd2ord_lt_year (year_of t - k) (month_of t)
                (Z.min (days_in_month (year_of t - k) (month_of t)) (day_of t))
                (year_of t) (month_of t) (day_of t)
                ltac:(lia) (ts_sub_years_valid t k) Hm (proj1 Hd)) as L.
  rewrite E in L. exact L.
Qed.

(** Going back whole years keeps the calendar month. *)
Lemma ts_sub_years_month (t : Timestamp) (k : Z) :
  month_of (ts_sub t {| years := k; months := 0 |}) = month_of t.
Proof.
  rewrite ts_sub_years_eq. unfold month_of at 1.
  rewrite ord2ymd_ymd2ord by apply ts_sub_years_valid. reflexivity.
Qed.

(** The end of the year-before window, eleven months back, is strictly
    before the reference date. *)
Lemma fecha_anio_ant_fin_lt (t : Timestamp) :
  fecha_anio_ant_fin t < t.
Proof.
  unfold fecha_anio_ant_fin, ts_add. rewrite ts_sub_years_eq.
  unfold rd_radd.
  rewrite ord2ymd_ymd2ord by apply ts_sub_years_valid.
  cbn [years months Z.eqb].
  destruct (ord2ymd_spec t) as [[Hm Hd] E].
  set (y := year_of t) in *. set (m := month_of t) in *.
  set (d := day_of t) in *.
  set (d1 := Z.min (days_in_month (y - 1) m) d).
  assert (Hd1 : 1 <= d1).
  { pose proof (days_in_month_min (y - 1) m Hm). unfold d1. lia. }
  apply Z.lt_le_trans with (ymd2ord y m d); [|lia].
  destruct (Z.ltb_spec 12 (m + 1)) as [H12|H12].
  - (* December: the window ends in January of the same year *)
    assert (Em : m = 12) by lia.
    replace (y - 1 + 0 + 1) with y by lia.
    replace (m + 1 - 12) with 1 by lia.
    apply ymd2ord_lt_month; [lia| |lia|lia].
    apply valid_date_clamp; lia.
  - destruct (Z.ltb_spec (m + 1) 1) as [H1|H1]; [lia|].
    apply ymd2ord_lt_year; [lia| |lia|lia].
    apply valid_date_clamp; lia.
Qed.

End RelativeDates.

(** ** Sorting by date *)

Lemma insert_desc_perm (r : fila) (l : list fila) :
  Permutation (insert_desc r l) (r :: l).
Proof.
  induction l as [|x t IH]; simpl.
  - apply Permutation_refl.
  - destruct (FECHA x <=? FECHA r).
    + apply Permutation_refl.
    + eapply Permutation_trans; [apply perm_skip, IH|apply perm_swap].
Qed.

Lemma sort_values_desc_perm (df : list fila) :
  Permutation (sort_values_desc df) df.
Proof.
  induction df as [|r t IH]; simpl.
  - apply Permutation_refl.
  - eapply Permutation_trans; [apply insert_desc_perm|apply perm_skip, IH].
Qed.

Lemma insert_desc_head_latest (r : fila) (l : list fila) :
  head_latest l -> head_latest (insert_desc r l).
Proof.
  destruct l as [|x t]; simpl.
  - intros _ y [<-|[]]. lia.
  - intros H. destruct (Z.leb_spec (FECHA x) (FECHA r)) as [L|L]; simpl.
    + intros y [<-|Hy]; [lia|]. specialize (H y Hy). lia.
    + intros y [<-|Hy]; [lia|].
      apply (Permutation_in _ (insert_desc_perm r t)) in Hy.
      destruct Hy as [<-|Hy]; [lia|]. apply H. right. exact Hy.
Qed.

Lemma sort_values_desc_head_latest (df : list fila) :
  head_latest (sort_values_desc df).
Proof.
  induction df as [|r t IH]; simpl; [exact I|].
  apply insert_desc_head_latest, IH.
Qed.

Lemma max_fecha_spec (df : list fila) :
  df <> [] ->
  (exists x, In x df /\ FECHA x = max_fecha df)
  /\ (forall x, In x df -> FECHA x <= max_fecha df).
Proof.
  destruct df as [|r t]; [congruence|intros _].
  unfold max_fecha. induction t as [|x t IH]; simpl.
  - split; [exists r; auto|]. intros y [<-|[]]. lia.
  - destruct IH as [[w [Hw Ew]] Hall].
    set (mx := fold_right (fun x acc => Z.max (FECHA x) acc) (FECHA r) t) in *.
    split.
    + destruct (Z.max_spec (FECHA x) mx) as [[_ E]|[_ E]]; rewrite E.
      * exists w. split; [|exact Ew]. destruct Hw as [<-|Hw]; simpl; auto.
      * exists x. simpl; auto.
    + intros y [<-|[<-|Hy]].
      * specialize (Hall r (or_introl eq_refl)). lia.
      * lia.
      * specialize (Hall y (or_intror Hy)). lia.
Qed.

(** On a frame with a row, sorting puts a row of the latest date first:
    [fecha_referencia] is the maximum date of the series. *)
Lemma sort_values_desc_head (df : list fila) :
  df <> [] ->
  exists primera resto,
    sort_values_desc df = primera :: resto
    /\ FECHA primera = max_fecha df.
Proof.
  intros Hne.
  pose proof (sort_values_desc_perm df) as P.
  pose proof (sort_values_desc_head_latest df) as H.
  destruct (sort_values_desc df) as [|r0 rest] eqn:E.
  - apply Permutation_nil in P. contradiction.
  - exists r0, rest. split; [reflexivity|].
    destruct (max_fecha_spec df Hne) as [[w [Hw Ew]] Hall].
    simpl in H.
    assert (In r0 df) by (apply (Permutation_in _ P); left; reflexivity).
    assert (In w (r0 :: rest)) by (apply (Permutation_in _ (Permutation_sym P)); exact Hw).
    specialize (H w ltac:(assumption)). specialize (Hall r0 ltac:(assumption)).
    lia.
Qed.

(** ** Means and rounding *)

Lemma rint_comp (p q : Q) : (p == q)%Q -> rint p = rint q.
Proof.
  intros E. unfold rint.
  assert (F : Qfloor p = Qfloor q) by (apply Qfloor_comp; exact E).
  rewrite F.
  assert (C : ((p - inject_Z (Qfloor q) ?= 1 # 2) =
               (q - inject_Z (Qfloor q) ?= 1 # 2))%Q).
  { apply Qcompare_comp; [rewrite E; reflexivity|reflexivity]. }
  rewrite C. reflexivity.
Qed.

Lemma round2_comp (p q : Q) : (p == q)%Q -> round2 p = round2 q.
Proof.
  intros E. unfold round2. f_equal. apply rint_comp. rewrite E. reflexivity.
Qed.

(** [rint] is the nearest integer, and the even one of the two on a tie. *)
Lemma rint_nearest_even (q : Q) :
  (Qabs (q - inject_Z (rint q)) <= 1 # 2)%Q
  /\ ((Qabs (q - inject_Z (rint q)) == 1 # 2)%Q -> Z.even (rint q) = true).
Proof.
  unfold rint.
  pose proof (Qfloor_le q) as Lo. pose proof (Qlt_floor q) as Hi.
  set (fl := Qfloor q) in *.
  assert (Hi' : (q < inject_Z fl + 1)%Q).
  { rewrite inject_Z_plus in Hi. exact Hi. }
  destruct (Qcompare_spec (q - inject_Z fl) (1 # 2)) as [E|L|G].
  - (* tie *)
    assert (Ev : Z.even (if Z.even fl then fl else fl + 1) = true).
    { destruct (Z.even fl) eqn:K; [exact K|].
      rewrite Z.even_add, K. reflexivity. }
    split; [|intros _; exact Ev].
    destruct (Z.even fl).
    + apply Qabs_Qle_condition. split; lra.
    + rewrite inject_Z_plus. apply Qabs_Qle_condition.
      change (inject_Z 1) with 1%Q. split; lra.
  - split.
    + apply Qabs_Qle_condition. split; lra.
    + intros A. exfalso.
      rewrite Qabs_pos in A by lra. lra.
  - rewrite inject_Z_plus. change (inject_Z 1) with 1%Q. split.
    + apply Qabs_Qle_condition. split; lra.
    + intros A. exfalso.
      rewrite Qabs_neg in A by lra. lra.
Qed.

Lemma Qsum_perm (xs ys : list Q) :
  Permutation xs ys -> (Qsum xs == Qsum ys)%Q.
Proof.
  induction 1; simpl.
  - reflexivity.
  - rewrite IHPermutation. reflexivity.
  - ring.
  - rewrite IHPermutation1. exact IHPermutation2.
Qed.

(** The rounded mean does not depend on the order of the rows. *)
Lemma round_mean_perm (xs ys : list Q) :
  Permutation xs ys -> py_round2 (mean xs) = py_round2 (mean ys).
Proof.
  intros P. pose proof (Permutation_length P) as L.
  destruct xs as [|x xs'], ys as [|y ys']; try discriminate.
  - reflexivity.
  - unfold mean, py_round2. f_equal. apply round2_comp.
    rewrite (Qsum_perm _ _ P), L. reflexivity.
Qed.

Lemma filter_perm {A : Type} (p : A -> bool) (l l' : list A) :
  Permutation l l' -> Permutation (filter p l) (filter p l').
Proof.
  induction 1; simpl.
  - constructor.
  - destruct (p x); [constructor|]; assumption.
  - destruct (p x), (p y); try apply Permutation_refl. apply perm_swap.
  - eapply Permutation_trans; eassumption.
Qed.

(** The rounded mean of a column over a selection: the same on the sorted
    frame and on the frame as given, and under any test that agrees on the
    rows of the frame. *)
Lemma round_mean_filter (p p' : fila -> bool) (df : list fila) :
  (forall r, In r df -> p r = p' r) ->
  py_round2 (mean (columna_agua_actual (filter p (sort_values_desc df))))
  = py_round2 (mean (columna_agua_actual (filter p' df))).
Proof.
  intros Hp. rewrite <- (filter_ext_in p p' df Hp).
  apply round_mean_perm. unfold columna_agua_actual.
  apply Permutation_map, filter_perm, sort_values_desc_perm.
Qed.

(** The mean of one value is the value. *)
Lemma round_mean_single (v : Q) :
  py_round2 (mean [v]) = Fin (round2 v).
Proof.
  unfold mean, py_round2. f_equal. apply round2_comp.
  simpl. field.
Qed.

(** A selection with a row in it has a number as its mean. *)
Lemma round_mean_nonempty (xs : list Q) :
  xs <> [] -> exists q, py_round2 (mean xs) = Fin q.
Proof.
  destruct xs as [|x t]; [congruence|intros _].
  eexists. reflexivity.
Qed.

(** ** The statistics of one reservoir *)

Section Estadisticas.
Import Calendar.

Lemma filter_head_nonempty {A : Type} (p : A -> bool) (x : A) (l : list A) :
  p x = true -> filter p (x :: l) <> [].
Proof. intros H. simpl. rewrite H. discriminate. Qed.

Lemma columna_nonempty (l : list fila) :
  l <> [] -> columna_agua_actual l <> [].
Proof. destruct l; [congruence|discriminate]. Qed.

(** No row of a series is later than its reference date. *)
Lemma fecha_le_reference (df : list fila) (r : fila) :
  In r df -> FECHA r <= reference_date df.
Proof.
  intros Hr. apply max_fecha_spec; [|exact Hr].
  intros ->. contradiction.
Qed.

(** The reference row passes the test of every rolling window. *)
Lemma df_dias_head (n : Z) (primera : fila) (resto : list fila) :
  0 <= n ->
  df_dias n (FECHA primera) (primera :: resto) <> [].
Proof.
  intros Hn. apply filter_head_nonempty. unfold Timedelta.
  apply Z.leb_le. lia.
Qed.

Lemma df_hist_mes_head (primera : fila) (resto : list fila) :
  df_hist_mes (month_of (FECHA primera)) (primera :: resto)
  = primera :: df_hist_mes (month_of (FECHA primera)) resto.
Proof. unfold df_hist_mes. simpl. rewrite Z.eqb_refl. reflexivity. Qed.

(** The reference row is in every month-anchored window. *)
Lemma df_historica_head (anios : Z) (primera : fila) (resto : list fila) :
  1 <= anios ->
  df_historica anios (FECHA primera) (month_of (FECHA primera))
    (primera :: resto) <> [].
Proof.
  intros Hk. unfold df_historica. rewrite df_hist_mes_head.
  apply filter_head_nonempty. apply Z.leb_le.
  pose proof (ts_sub_years_lt (FECHA primera) anios Hk). lia.
Qed.

(** Membership in the window of [media_historica]. *)
Lemma ventana_historica_In (anios : Z) (df : list fila) (r : fila) :
  In r (ventana_historica anios df) <->
  In r df
  /\ month_of (FECHA r) = month_of (reference_date df)
  /\ ts_sub (reference_date df) {| years := anios; months := 0 |}
     <= FECHA r.
Proof.
  unfold ventana_historica, df_historica, df_hist_mes.
  rewrite !filter_In, Z.leb_le, Z.eqb_eq.
  pose proof (sort_values_desc_perm df) as P.
  split.
  - intros [[H1 H2] H3]. repeat split; try assumption.
    apply (Permutation_in _ P H1).
  - intros [H1 [H2 H3]]. repeat split; try assumption.
    apply (Permutation_in _ (Permutation_sym P) H1).
Qed.

End Estadisticas.

(** ** The year-before window, by calendar fields *)

Section MesDelAnioAnterior.
Import Calendar CalendarFacts.

Lemma fecha_anio_ant_inicio_eq (t : Timestamp) :
  fecha_anio_ant_inicio t
  = if month_of t =? 1
    then ymd2ord (year_of t - 2) 12
           (Z.min (days_in_month (year_of t - 2) 12) (day_of t))
    else ymd2ord (year_of t - 1) (month_of t - 1)
           (Z.min (days_in_month (year_of t - 1) (month_of t - 1)) (day_of t)).
Proof.
  unfold fecha_anio_ant_inicio, ts_sub, rd_radd, rd_neg. cbn [years months].
  rewrite (ord2ymd_fields t). cbn [Z.opp Z.eqb].
  destruct (ord2ymd_spec t) as [[Hm _] _].
  destruct (Z.ltb_spec 12 (month_of t + -1)) as [H|H]; [lia|].
  destruct (Z.ltb_spec (month_of t + -1) 1) as [H1|H1];
    destruct (Z.eqb_spec (month_of t) 1) as [E|E]; try lia.
  - replace (year_of t + -1 - 1) with (year_of t - 2) by lia.
    replace (month_of t + -1 + 12) with 12 by lia. reflexivity.
  - replace (year_of t + -1) with (year_of t - 1) by lia.
    replace (month_of t + -1) with (month_of t - 1) by lia. reflexivity.
Qed.

Lemma fecha_anio_ant_fin_eq (t : Timestamp) :
  let d1 := Z.min (days_in_month (year_of t - 1) (month_of t)) (day_of t) in
  fecha_anio_ant_fin t
  = if month_of t =? 12
    then ymd2ord (year_of t) 1 (Z.min (days_in_month (year_of t) 1) d1)
    else ymd2ord (year_of t - 1) (month_of t + 1)
           (Z.min (days_in_month (year_of t - 1) (month_of t + 1)) d1).
Proof.
  cbv zeta. unfold fecha_anio_ant_fin, ts_add. rewrite ts_sub_years_eq.
  unfold rd_radd. rewrite ord2ymd_ymd2ord by apply ts_sub_years_valid.
  cbn [years months Z.eqb].
  destruct (ord2ymd_spec t) as [[Hm _] _].
  destruct (Z.ltb_spec 12 (month_of t + 1)) as [H|H];
    destruct (Z.eqb_spec (month_of t) 12) as [E|E]; try lia.
  - replace (year_of t - 1 + 0 + 1) with (year_of t) by lia.
    replace (month_of t + 1 - 12) with 1 by lia. reflexivity.
  - destruct (Z.ltb_spec (month_of t + 1) 1) as [H1|H1]; [lia|].
    replace (year_of t - 1 + 0) with (year_of t - 1) by lia. reflexivity.
Qed.

Lemma in_prior_year_window_unfold (df : list fila) (r : fila) :
  in_prior_year_window df r
  = (fecha_anio_ant_inicio (reference_date df) <? FECHA r)
    && (FECHA r <=? fecha_anio_ant_fin (reference_date df))
    && (month_of (FECHA r) =? month_of (reference_date df)).
Proof.
  unfold in_prior_year_window, fecha_anio_ant_inicio, fecha_anio_ant_fin.
  reflexivity.
Qed.

Lemma clamp_pos (y m d : Z) :
  1 <= m <= 12 -> 1 <= d -> 1 <= Z.min (days_in_month y m) d.
Proof. intros Hm Hd. pose proof (days_in_month_min y m Hm). lia. Qed.

(** The three tests of the year-before window select the rows of the
    month of the reference date in the calendar year before it. *)
Lemma in_prior_year_window_iff (df : list fila) (r : fila) :
  in_prior_year_window df r = true <->
  month_of (FECHA r) = month_of (reference_date df)
  /\ year_of (FECHA r) = year_of (reference_date df) - 1.
Proof.
  rewrite in_prior_year_window_unfold.
  rewrite !andb_true_iff, Z.ltb_lt, Z.leb_le, Z.eqb_eq.
  set (ref := reference_date df).
  rewrite fecha_anio_ant_inicio_eq.
  pose proof (fecha_anio_ant_fin_eq ref) as Efin. cbv zeta in Efin.
  rewrite Efin. clear Efin.
  destruct (ord2ymd_spec ref) as [[Hm Hd] _].
  destruct (ord2ymd_spec (FECHA r)) as [Vr Er].
  set (y := year_of ref) in *. set (m := month_of ref) in *.
  set (d := day_of ref) in *.
  set (Y := year_of (FECHA r)) in *. set (M := month_of (FECHA r)) in *.
  set (D := day_of (FECHA r)) in *.
  set (d1 := Z.min (days_in_month (y - 1) m) d).
  assert (Hd1 : 1 <= d1)
    by (pose proof (days_in_month_min (y - 1) m Hm); unfold d1; lia).
  rewrite <- Er. clear Er.
  split.
  - (* inside the window: the year is the one before *)
    intros [[Hlo Hhi] HM]. split; [exact HM|].
    destruct Vr as [VM VD]. rewrite HM in *.
    destruct (Z.lt_trichotomy Y (y - 1)) as [L|[E|G]]; [exfalso|exact E|exfalso].
    + (* an earlier year is before the start *)
      destruct (Z.eqb_spec m 1) as [E1|E1].
      * assert (ymd2ord Y m D < ymd2ord (y - 2) 12
                  (Z.min (days_in_month (y - 2) 12) d)); [|lia].
        destruct (Z.eq_dec Y (y - 2)) as [->|N].
        -- apply ymd2ord_lt_month; [lia|split; assumption|lia|].
           pose proof (days_in_month_min (y - 2) 12 ltac:(lia)). lia.
        -- apply ymd2ord_lt_year; [lia|split; assumption|lia|].
           pose proof (days_in_month_min (y - 2) 12 ltac:(lia)). lia.
      * assert (ymd2ord Y m D < ymd2ord (y - 1) (m - 1)
                  (Z.min (days_in_month (y - 1) (m - 1)) d)); [|lia].
        apply ymd2ord_lt_year; [lia|split; assumption|lia|].
        pose proof (days_in_month_min (y - 1) (m - 1) ltac:(lia)). lia.
    + (* a later year is after the end *)
      destruct (Z.eqb_spec m 12) as [E12|E12].
      * assert (ymd2ord y 1 (Z.min (days_in_month y 1) d1) < ymd2ord Y m D);
          [|lia].
        destruct (Z.eq_dec Y y) as [->|N].
        -- apply ymd2ord_lt_month; [lia|apply valid_date_clamp; lia|lia|lia].
        -- apply ymd2ord_lt_year; [lia|apply valid_date_clamp; lia|lia|lia].
      * assert (ymd2ord (y - 1) (m + 1)
                  (Z.min (days_in_month (y - 1) (m + 1)) d1) < ymd2ord Y m D);
          [|lia].
        apply ymd2ord_lt_year; [lia|apply valid_date_clamp; lia|lia|lia].
  - (* the month of the year before is inside the window *)
    intros [HM HY]. destruct Vr as [VM VD]. rewrite HM, HY in *.
    split; [split|reflexivity].
    + destruct (Z.eqb_spec m 1) as [E1|E1].
      * apply ymd2ord_lt_year; [lia|apply valid_date_clamp; lia|lia|lia].
      * apply ymd2ord_lt_month; [lia|apply valid_date_clamp; lia|lia|lia].
    + apply Z.lt_le_incl.
      destruct (Z.eqb_spec m 12) as [E12|E12].
      * apply ymd2ord_lt_year;
          [lia|split; assumption|lia|apply clamp_pos; lia].
      * apply ymd2ord_lt_month;
          [lia|split; assumption|lia|apply clamp_pos; lia].
Qed.

End MesDelAnioAnterior.

Lemma df_anio_ant_spec (df l : list fila) :
  df_anio_ant (reference_date df) (Calendar.month_of (reference_date df)) l
  = filter (in_prior_year_window df) l.
Proof. reflexivity. Qed.

Section UnSoloRegistro.
Import Calendar.

Lemma df_dias_single (n : Z) (r : fila) :
  0 <= n -> df_dias n (FECHA r) [r] = [r].
Proof.
  intros Hn. unfold df_dias, Timedelta. simpl.
  destruct (Z.leb_spec (FECHA r - n) (FECHA r)); [reflexivity|lia].
Qed.

Lemma df_historica_single (anios : Z) (r : fila) :
  1 <= anios ->
  df_historica anios (FECHA r) (month_of (FECHA r)) [r] = [r].
Proof.
  intros Hk. unfold df_historica. rewrite df_hist_mes_head. simpl.
  pose proof (ts_sub_years_lt (FECHA r) anios Hk).
  destruct (Z.leb_spec (ts_sub (FECHA r) {| years := anios; months := 0 |})
              (FECHA r)); [reflexivity|lia].
Qed.

(** The only row of a series is not in its own year-before window. *)
Lemma df_anio_ant_single (r : fila) :
  df_anio_ant (FECHA r) (month_of (FECHA r)) [r] = [].
Proof.
  unfold df_anio_ant. simpl.
  pose proof (fecha_anio_ant_fin_lt (FECHA r)).
  destruct (Z.leb_spec (FECHA r) (fecha_anio_ant_fin (FECHA r))); [lia|].
  rewrite andb_false_r. reflexivity.
Qed.

End UnSoloRegistro.

(** ** The calendar-year windows *)

(** The field [h3a], [h5a], [h10a] or [h20a] is the rounded mean over the
    window of that many years. *)
Lemma campo_historico_ventana (df : list fila) (anios : Z) :
  df <> [] -> In anios [3; 5; 10; 20] ->
  exists s,
    calcular_estadisticas_embalse df = Some s
    /\ campo_historico anios s
       = py_round2 (mean (columna_agua_actual (ventana_historica anios df))).
Proof.
  intros Hne Hk.
  destruct (sort_values_desc_head df Hne) as [primera [resto [E Eref]]].
  unfold calcular_estadisticas_embalse, ventana_historica, reference_date.
  rewrite E, <- Eref.
  eexists. split; [reflexivity|].
  unfold media_historica.
  simpl in Hk. destruct Hk as [<-|[<-|[<-|[<-|[]]]]]; reflexivity.
Qed.

(** C2, as the program has it.  Among the rows of the month of the
    reference date, [mean_hist_K] takes those dated on or after the
    reference date minus K calendar years: the row dated K years minus one
    day before the reference date is in, the row dated exactly K years
    before it is in as well, and every earlier row is out. *)
Theorem C2_calendar_year_window (df : list fila) (anios : Z) (r : fila) :
  df <> [] -> In anios [3; 5; 10; 20] -> In r df ->
  Calendar.month_of (FECHA r) = Calendar.month_of (reference_date df) ->
  (exists s,
     calcular_estadisticas_embalse df = Some s
     /\ campo_historico anios s
        = py_round2 (mean (columna_agua_actual (ventana_historica anios df))))
  /\ (FECHA r = ts_sub (reference_date df) {| years := anios; months := 0 |} + 1
      -> In r (ventana_historica anios df))
  /\ (FECHA r = ts_sub (reference_date df) {| years := anios; months := 0 |}
      -> In r (ventana_historica anios df))
  /\ (FECHA r < ts_sub (reference_date df) {| years := anios; months := 0 |}
      -> ~ In r (ventana_historica anios df)).
Proof.
  intros Hne Hk Hr Hm.
  split; [apply campo_historico_ventana; assumption|].
  repeat split.
  - intros E. apply ventana_historica_In. repeat split; try assumption. lia.
  - intros E. apply ventana_historica_In. repeat split; try assumption. lia.
  - intros L H. apply ventana_historica_In in H. lia.
Qed.

Lemma C2_calendar_year_window_witness :
  (exists s,
     calcular_estadisticas_embalse Ejemplos.serie_tres_anios = Some s
     /\ campo_historico 3 s
        = py_round2 (mean (columna_agua_actual
                             (ventana_historica 3 Ejemplos.serie_tres_anios))))
  /\ (FECHA Ejemplos.fila_2021
      = ts_sub (reference_date Ejemplos.serie_tres_anios)
               {| years := 3; months := 0 |} + 1
      -> In Ejemplos.fila_2021 (ventana_historica 3 Ejemplos.serie_tres_anios))
  /\ (FECHA Ejemplos.fila_2021
      = ts_sub (reference_date Ejemplos.serie_tres_anios)
               {| years := 3; months := 0 |}
      -> In Ejemplos.fila_2021 (ventana_historica 3 Ejemplos.serie_tres_anios))
  /\ (FECHA Ejemplos.fila_2021
      < ts_sub (reference_date Ejemplos.serie_tres_anios)
               {| years := 3; months := 0 |}
      -> ~ In Ejemplos.fila_2021
             (ventana_historica 3 Ejemplos.serie_tres_anios)).
Proof.
  apply (C2_calendar_year_window Ejemplos.serie_tres_anios 3
           Ejemplos.fila_2021).
  - discriminate.
  - simpl. auto.
  - simpl. auto.
  - vm_compute. reflexivity.
Defined.

(** C2, counterexample to the claim as stated: a June row dated exactly
    three calendar years before the reference date is averaged into
    [h3a]. *)
Lemma C2_exact_boundary_row_is_included :
  In Ejemplos.fila_2021 Ejemplos.serie_tres_anios
  /\ Calendar.month_of (FECHA Ejemplos.fila_2021)
     = Calendar.month_of (reference_date Ejemplos.serie_tres_anios)
  /\ FECHA Ejemplos.fila_2021
     = ts_sub (reference_date Ejemplos.serie_tres_anios)
              {| years := 3; months := 0 |}
  /\ In Ejemplos.fila_2021 (ventana_historica 3 Ejemplos.serie_tres_anios)
  /\ exists s,
       calcular_estadisticas_embalse Ejemplos.serie_tres_anios = Some s
       /\ h3a s = Fin (1500 # 100).
Proof.
  split; [simpl; auto|].
  split; [vm_compute; reflexivity|].
  split; [vm_compute; reflexivity|].
  split; [vm_compute; auto|].
  eexists. split; vm_compute; reflexivity.
Qed.

(** ** Rounding *)

(** [round2] gives the nearest multiple of 0.01, the even one on a tie. *)
Lemma round2_nearest_even (q : Q) :
  exists c : Z,
    round2 q = c # 100
    /\ (Qabs (q * 100 - inject_Z c) <= 1 # 2)%Q
    /\ ((Qabs (q * 100 - inject_Z c) == 1 # 2)%Q -> Z.even c = true).
Proof.
  exists (rint (q * 100)). split; [reflexivity|].
  apply rint_nearest_even.
Qed.

(** What the program rounds, field by field. *)
Lemma estadisticas_redondeadas (df : list fila) (s : stats) :
  calcular_estadisticas_embalse df = Some s ->
  exists primera resto,
    sort_values_desc df = primera :: resto
    /\ let df_embalse := primera :: resto in
       let fecha_referencia := FECHA primera in
       let mes_ref := Calendar.month_of fecha_referencia in
       let media w := py_round2 (mean (columna_agua_actual w)) in
       aa s = py_round2 (Fin (AGUA_ACTUAL primera))
       /\ at_ s = py_round2 (Fin (AGUA_TOTAL primera))
       /\ m1s s = media (df_dias 7 fecha_referencia df_embalse)
       /\ m2s s = media (df_dias 14 fecha_referencia df_embalse)
       /\ m1m s = media (df_dias 30 fecha_referencia df_embalse)
       /\ ma1 s = match df_anio_ant fecha_referencia mes_ref df_embalse with
                  | [] => None
                  | _ :: _ =>
                      Some (media (df_anio_ant fecha_referencia mes_ref
                                     df_embalse))
                  end
       /\ h3a s = media (df_historica 3 fecha_referencia mes_ref df_embalse)
       /\ h5a s = media (df_historica 5 fecha_referencia mes_ref df_embalse)
       /\ h10a s = media (df_historica 10 fecha_referencia mes_ref df_embalse)
       /\ h20a s = media (df_historica 20 fecha_referencia mes_ref df_embalse)
       /\ ht s = media (df_hist_mes mes_ref df_embalse).
Proof.
  unfold calcular_estadisticas_embalse.
  destruct (sort_values_desc df) as [|primera resto]; [discriminate|].
  intros E. injection E as <-.
  exists primera, resto. split; [reflexivity|].
  cbv zeta. repeat split.
Qed.

(** C5, counterexample to the claim as stated: the two readings of the
    last seven days, 12.34 and 12.35, have the exact mean 12.345, and
    [m1s] is rendered 12.34, not 12.35. *)
Lemma C5_exact_12_345_renders_12_34 :
  exists s q,
    calcular_estadisticas_embalse Ejemplos.serie_12_345 = Some s
    /\ mean (columna_agua_actual
               (filter (in_rolling_window 7 Ejemplos.serie_12_345)
                       Ejemplos.serie_12_345)) = Fin q
    /\ (q == 12345 # 1000)%Q
    /\ m1s s = Fin (1234 # 100)
    /\ Json.float_repr (m1s s) = "12.34"%string
    /\ ~ (1234 # 100 == 1235 # 100)%Q.
Proof.
  eexists. eexists.
  split; [vm_compute; reflexivity|].
  split; [vm_compute; reflexivity|].
  split; [vm_compute; reflexivity|].
  split; [vm_compute; reflexivity|].
  split; [vm_compute; reflexivity|].
  intros H. vm_compute in H. discriminate.
Qed.

(** ** The run *)

Module PipelineFacts.
Import Pipeline.

(** [descargar_y_extraer] returns when the download yields the bytes of
    the database, and calls [sys.exit(1)] otherwise; it touches neither the
    fingerprint nor the output file. *)
Lemma descargar_y_extraer_spec (env : entorno) (d : disco) :
  fst (descargar_y_extraer env d)
  = match mdb_descargado env with
    | Some _ => Retorna
    | None => SysExit 1
    end
  /\ snd (descargar_y_extraer env d) HASH_FILE = d HASH_FILE
  /\ snd (descargar_y_extraer env d) JSON_OUTPUT = d JSON_OUTPUT
  /\ forall bytes,
       mdb_descargado env = Some bytes ->
       snd (descargar_y_extraer env d) MDB_FILE = Some bytes.
Proof.
  unfold descargar_y_extraer, mdb_descargado.
  destruct (requests_get env) as [resp|]; [|cbn; repeat split; discriminate].
  destruct (interrumpida resp); [cbn; repeat split; discriminate|].
  destruct (miembros resp) as [ms|]; [|cbn; repeat split; discriminate].
  destruct (mdb_interno (map fst ms)) as [nombre|];
    [|cbn; repeat split; discriminate].
  destruct (zip_open ms nombre) as [bytes|];
    [|cbn; repeat split; discriminate].
  cbn. repeat split. intros b E. injection E as <-. reflexivity.
Qed.

(** What a run leaves behind, by what happens to it: the exit status, the
    trace, the stored fingerprint and the output file. *)
Lemma main_cases (env : entorno) (d : disco) :
  let r := main env d in
  match mdb_descargado env with
  | None =>
      estado r = SysExit 1 /\ traza r = []
      /\ disco_final r HASH_FILE = d HASH_FILE
      /\ disco_final r JSON_OUTPUT = d JSON_OUTPUT
  | Some bytes =>
      let current_hash := sha256_hexdigest env bytes in
      if sin_cambios d current_hash
      then
        estado r = SysExit 0 /\ traza r = []
        /\ disco_final r HASH_FILE = d HASH_FILE
        /\ disco_final r JSON_OUTPUT = d JSON_OUTPUT
      else
        match mdb_export env bytes with
        | None =>
            estado r = SysExit 1 /\ traza r = [EvProcesar]
            /\ disco_final r HASH_FILE = d HASH_FILE
            /\ disco_final r JSON_OUTPUT = d JSON_OUTPUT
        | Some df =>
            let texto :=
              Proceso.escritura_hibrida Config.METADATA (Proceso.datos df) in
            match escritura env with
            | EscrituraOk =>
                estado r = Retorna
                /\ traza r = [EvProcesar; EvEstadisticas; EvEscrituraJson;
                              EvGuardarHash]
                /\ disco_final r HASH_FILE = Some current_hash
                /\ disco_final r JSON_OUTPUT = Some texto
            | FalloAlAbrir =>
                estado r = Excepcion /\ traza r = [EvProcesar; EvEstadisticas]
                /\ disco_final r HASH_FILE = d HASH_FILE
                /\ disco_final r JSON_OUTPUT = d JSON_OUTPUT
            | FalloTras n =>
                estado r = Excepcion /\ traza r = [EvProcesar; EvEstadisticas]
                /\ disco_final r HASH_FILE = d HASH_FILE
                /\ disco_final r JSON_OUTPUT = Some (substring 0 n texto)
            end
        end
  end.
Proof.
  unfold main, mdb_descargado, descargar_y_extraer.
  destruct (requests_get env) as [resp|]; [|cbn; auto].
  destruct (interrumpida resp); [cbn; auto|].
  destruct (miembros resp) as [ms|]; [|cbn; auto].
  destruct (mdb_interno (map fst ms)) as [nombre|]; [|cbn; auto].
  destruct (zip_open ms nombre) as [bytes|]; [|cbn; auto].
  cbv zeta.
  change (borrar (escribir (escribir d ZIP_FILE (contenido resp)) MDB_FILE bytes)
            ZIP_FILE MDB_FILE) with (Some bytes).
  cbv beta iota.
  set (d1 := borrar (escribir (escribir d ZIP_FILE (contenido resp))
                       MDB_FILE bytes) ZIP_FILE).
  change (sin_cambios d1 (sha256_hexdigest env bytes))
    with (sin_cambios d (sha256_hexdigest env bytes)).
  destruct (sin_cambios d (sha256_hexdigest env bytes)); [cbn; auto|].
  unfold procesar_datos.
  change (d1 MDB_FILE) with (Some bytes). cbv beta iota.
  destruct (mdb_export env bytes) as [df|]; [|cbn; auto].
  cbv zeta.
  set (texto := Proceso.escritura_hibrida Config.METADATA (Proceso.datos df)).
  clearbody texto.
  unfold escribir_json.
  destruct (escritura env); cbn; auto.
Qed.


Lemma sin_cambios_iff (d : disco) (current_hash : string) :
  sin_cambios d current_hash = true <->
  exists guardado,
    d HASH_FILE = Some guardado /\ current_hash = strip guardado.
Proof.
  unfold sin_cambios. destruct (d HASH_FILE) as [g|].
  - rewrite String.eqb_eq. split.
    + intros E. exists g. auto.
    + intros [g' [E1 E2]]. injection E1 as <-. exact E2.
  - split; [discriminate|]. intros [g [E _]]. discriminate.
Qed.

(** A run that ends with status 0 leaves the digest of the database as
    the stored fingerprint, up to the surrounding blanks of a fingerprint
    that was already there. *)
Lemma main_ok_fingerprint (env : entorno) (d : disco) :
  (forall b, strip (sha256_hexdigest env b) = sha256_hexdigest env b) ->
  exit_status (estado (main env d)) = 0 ->
  exists bytes,
    mdb_descargado env = Some bytes
    /\ sin_cambios (disco_final (main env d)) (sha256_hexdigest env bytes)
       = true.
Proof.
  intros Hh H0. pose proof (main_cases env d) as C. cbv zeta in C.
  destruct (mdb_descargado env) as [bytes|].
  - exists bytes. split; [reflexivity|].
    destruct (sin_cambios d (sha256_hexdigest env bytes)) eqn:G.
    + destruct C as (_ & _ & Eh & _).
      unfold sin_cambios in *. rewrite Eh. exact G.
    + destruct (mdb_export env bytes) as [df|].
      * destruct (escritura env).
        -- destruct C as (_ & _ & Eh & _).
           unfold sin_cambios. rewrite Eh, Hh. apply String.eqb_refl.
        -- destruct C as (Es & _). rewrite Es in H0. discriminate.
        -- destruct C as (Es & _). rewrite Es in H0. discriminate.
      * destruct C as (Es & _). rewrite Es in H0. discriminate.
  - destruct C as (Es & _). rewrite Es in H0. discriminate.
Qed.

End PipelineFacts.

(** C7. When the digest of the extracted database equals the stored
    fingerprint the run ends with status 0 and neither enters the
    processing nor touches the output file; with no stored fingerprint the
    processing is entered; so a second run on the same database, after a
    run that ended with status 0, ends with status 0 and leaves the output
    file as it was. *)
Theorem C7_change_gate_idempotent :
  (forall env d bytes,
     Pipeline.mdb_descargado env = Some bytes ->
     Pipeline.sin_cambios d (Pipeline.sha256_hexdigest env bytes) = true ->
     let r := Pipeline.main env d in
     Pipeline.exit_status (Pipeline.estado r) = 0
     /\ Pipeline.traza r = []
     /\ Pipeline.disco_final r Pipeline.JSON_OUTPUT = d Pipeline.JSON_OUTPUT
     /\ Pipeline.disco_final r Pipeline.HASH_FILE = d Pipeline.HASH_FILE)
  /\ (forall d current_hash,
        Pipeline.sin_cambios d current_hash = true <->
        exists guardado,
          d Pipeline.HASH_FILE = Some guardado
          /\ current_hash = Pipeline.strip guardado)
  /\ (forall env d bytes,
        Pipeline.mdb_descargado env = Some bytes ->
        d Pipeline.HASH_FILE = None ->
        In Pipeline.EvProcesar (Pipeline.traza (Pipeline.main env d)))
  /\ (forall env1 env2 d0,
        (forall b, Pipeline.strip (Pipeline.sha256_hexdigest env1 b)
                   = Pipeline.sha256_hexdigest env1 b) ->
        (forall b, Pipeline.sha256_hexdigest env2 b
                   = Pipeline.sha256_hexdigest env1 b) ->
        Pipeline.mdb_descargado env2 = Pipeline.mdb_descargado env1 ->
        Pipeline.exit_status (Pipeline.estado (Pipeline.main env1 d0)) = 0 ->
        let r1 := Pipeline.main env1 d0 in
        let r2 := Pipeline.main env2 (Pipeline.disco_final r1) in
        Pipeline.exit_status (Pipeline.estado r2) = 0
        /\ Pipeline.traza r2 = []
        /\ Pipeline.disco_final r2 Pipeline.JSON_OUTPUT
           = Pipeline.disco_final r1 Pipeline.JSON_OUTPUT).
Proof.
  split; [|split; [|split]].
  - intros env d bytes Hb Hg.
    pose proof (PipelineFacts.main_cases env d) as C. cbv zeta in C.
    rewrite Hb, Hg in C. destruct C as (Es & Et & Eh & Ej).
    cbv zeta. rewrite Es. auto.
  - exact PipelineFacts.sin_cambios_iff.
  - intros env d bytes Hb Hn.
    pose proof (PipelineFacts.main_cases env d) as C. cbv zeta in C.
    rewrite Hb in C. unfold Pipeline.sin_cambios in C. rewrite Hn in C.
    destruct (Pipeline.mdb_export env bytes) as [df|].
    + destruct (Pipeline.escritura env);
        destruct C as (_ & Et & _); rewrite Et; simpl; auto.
    + destruct C as (_ & Et & _); rewrite Et; simpl; auto.
  - intros env1 env2 d0 Hh Hsame Hart H0. cbv zeta.
    destruct (PipelineFacts.main_ok_fingerprint env1 d0 Hh H0)
      as [bytes [Hb Hg]].
    pose proof (PipelineFacts.main_cases env2
                  (Pipeline.disco_final (Pipeline.main env1 d0))) as C.
    cbv zeta in C. rewrite Hart, Hb, Hsame, Hg in C.
    destruct C as (Es & Et & _ & Ej). rewrite Es. auto.
Qed.

Lemma C7_change_gate_idempotent_witness :
  Pipeline.exit_status
    (Pipeline.estado (Pipeline.main Pipeline.entorno_ejemplo
                        Pipeline.disco_vacio)) = 0
  /\ In Pipeline.EvProcesar
        (Pipeline.traza (Pipeline.main Pipeline.entorno_ejemplo
                           Pipeline.disco_vacio))
  /\ Pipeline.exit_status
       (Pipeline.estado
          (Pipeline.main Pipeline.entorno_ejemplo
             (Pipeline.disco_final
                (Pipeline.main Pipeline.entorno_ejemplo
                   Pipeline.disco_vacio)))) = 0
  /\ Pipeline.traza
       (Pipeline.main Pipeline.entorno_ejemplo
          (Pipeline.disco_final
             (Pipeline.main Pipeline.entorno_ejemplo Pipeline.disco_vacio)))
     = []
  /\ Pipeline.disco_final
       (Pipeline.main Pipeline.entorno_ejemplo
          (Pipeline.disco_final
             (Pipeline.main Pipeline.entorno_ejemplo Pipeline.disco_vacio)))
       Pipeline.JSON_OUTPUT
     = Pipeline.disco_final
         (Pipeline.main Pipeline.entorno_ejemplo Pipeline.disco_vacio)
         Pipeline.JSON_OUTPUT.
Proof.
  destruct C7_change_gate_idempotent as (_ & _ & Hfirst & Hidem).
  assert (H0 : Pipeline.exit_status
                 (Pipeline.estado (Pipeline.main Pipeline.entorno_ejemplo
                                     Pipeline.disco_vacio)) = 0)
    by (vm_compute; reflexivity).
  split; [exact H0|].
  split.
  - apply (Hfirst Pipeline.entorno_ejemplo Pipeline.disco_vacio
             "mdb-bytes"%string); reflexivity.
  - apply (Hidem Pipeline.entorno_ejemplo Pipeline.entorno_ejemplo
             Pipeline.disco_vacio).
    + intros b. reflexivity.
    + intros b. reflexivity.
    + reflexivity.
    + exact H0.
Defined.

(** C8. The stored fingerprint changes, and the fingerprint is written,
    only in a run that has written the whole output file and returns; when
    the download or the extraction from the archive fails, when reading the
    database fails, or when writing the output fails, the exit status is
    not 0 and the stored fingerprint is the one from before. *)
Theorem C8_fingerprint_only_after_success (env : Pipeline.entorno)
    (d : Pipeline.disco) :
  let r := Pipeline.main env d in
  (In Pipeline.EvGuardarHash (Pipeline.traza r)
   \/ Pipeline.disco_final r Pipeline.HASH_FILE <> d Pipeline.HASH_FILE ->
   Pipeline.escritura env = Pipeline.EscrituraOk
   /\ Pipeline.estado r = Pipeline.Retorna
   /\ Pipeline.traza r
      = [Pipeline.EvProcesar; Pipeline.EvEstadisticas;
         Pipeline.EvEscrituraJson; Pipeline.EvGuardarHash]
   /\ exists bytes df,
        Pipeline.mdb_descargado env = Some bytes
        /\ Pipeline.mdb_export env bytes = Some df
        /\ Pipeline.disco_final r Pipeline.JSON_OUTPUT
           = Some (Proceso.escritura_hibrida Config.METADATA
                     (Proceso.datos df))
        /\ Pipeline.disco_final r Pipeline.HASH_FILE
           = Some (Pipeline.sha256_hexdigest env bytes))
  /\ (Pipeline.mdb_descargado env = None ->
      Pipeline.exit_status (Pipeline.estado r) <> 0
      /\ Pipeline.disco_final r Pipeline.HASH_FILE = d Pipeline.HASH_FILE)
  /\ (forall bytes,
        Pipeline.mdb_descargado env = Some bytes ->
        Pipeline.sin_cambios d (Pipeline.sha256_hexdigest env bytes) = false ->
        Pipeline.mdb_export env bytes = None ->
        Pipeline.exit_status (Pipeline.estado r) <> 0
        /\ Pipeline.disco_final r Pipeline.HASH_FILE = d Pipeline.HASH_FILE)
  /\ (forall bytes df,
        Pipeline.mdb_descargado env = Some bytes ->
        Pipeline.sin_cambios d (Pipeline.sha256_hexdigest env bytes) = false ->
        Pipeline.mdb_export env bytes = Some df ->
        Pipeline.escritura env <> Pipeline.EscrituraOk ->
        Pipeline.exit_status (Pipeline.estado r) <> 0
        /\ Pipeline.disco_final r Pipeline.HASH_FILE = d Pipeline.HASH_FILE)
  /\ (Pipeline.exit_status (Pipeline.estado r) <> 0 ->
      Pipeline.disco_final r Pipeline.HASH_FILE = d Pipeline.HASH_FILE).
Proof.
  pose proof (PipelineFacts.main_cases env d) as C. cbv zeta in *.
  set (r := Pipeline.main env d) in *. clearbody r.
  split; [|split; [|split; [|split]]].
  - (* the fingerprint is written only after the output *)
    intros H.
    destruct (Pipeline.mdb_descargado env) as [bytes|] eqn:Hb;
      [destruct (Pipeline.sin_cambios d (Pipeline.sha256_hexdigest env bytes));
       [|destruct (Pipeline.mdb_export env bytes) as [df|] eqn:He;
         [destruct (Pipeline.escritura env) eqn:Hw|]]|];
      destruct C as (Es & Et & Eh & Ej).
    2: { repeat split; auto. exists bytes, df. repeat split; auto. }
    all: exfalso; destruct H as [H|H];
      [rewrite Et in H; simpl in H; intuition discriminate|congruence].
  - (* download or extraction from the archive fails *)
    intros Hn. rewrite Hn in C. destruct C as (Es & _ & Eh & _).
    rewrite Es. split; [discriminate|exact Eh].
  - (* reading the database fails *)
    intros bytes Hb Hg He. rewrite Hb, Hg, He in C.
    destruct C as (Es & _ & Eh & _).
    rewrite Es. split; [discriminate|exact Eh].
  - (* writing the output fails *)
    intros bytes df Hb Hg He Hw. rewrite Hb, Hg, He in C.
    destruct (Pipeline.escritura env); [congruence| |];
      destruct C as (Es & _ & Eh & _);
      rewrite Es; (split; [discriminate|exact Eh]).
  - intros Hx.
    destruct (Pipeline.mdb_descargado env) as [bytes|];
      [destruct (Pipeline.sin_cambios d (Pipeline.sha256_hexdigest env bytes));
       [|destruct (Pipeline.mdb_export env bytes) as [df|];
         [destruct (Pipeline.escritura env)|]]|];
      destruct C as (Es & Et & Eh & Ej); try exact Eh.
    exfalso. apply Hx. rewrite Es. reflexivity.
Qed.

Lemma C8_fingerprint_only_after_success_witness :
  Pipeline.exit_status
    (Pipeline.estado
       (Pipeline.main
          {| Pipeline.requests_get :=
               Pipeline.requests_get Pipeline.entorno_ejemplo;
             Pipeline.sha256_hexdigest := fun _ => "9f86d081884c7d65"%string;
             Pipeline.mdb_export := fun _ => Some Ejemplos.serie_larga;
             Pipeline.escritura := Pipeline.FalloTras 40 |}
          Pipeline.disco_vacio)) <> 0
  /\ Pipeline.disco_final
       (Pipeline.main
          {| Pipeline.requests_get :=
               Pipeline.requests_get Pipeline.entorno_ejemplo;
             Pipeline.sha256_hexdigest := fun _ => "9f86d081884c7d65"%string;
             Pipeline.mdb_export := fun _ => Some Ejemplos.serie_larga;
             Pipeline.escritura := Pipeline.FalloTras 40 |}
          Pipeline.disco_vacio) Pipeline.HASH_FILE
     = Pipeline.disco_vacio Pipeline.HASH_FILE.
Proof.
  apply (proj1 (proj2 (proj2 (proj2
           (C8_fingerprint_only_after_success
              {| Pipeline.requests_get :=
                   Pipeline.requests_get Pipeline.entorno_ejemplo;
                 Pipeline.sha256_hexdigest :=
                   fun _ => "9f86d081884c7d65"%string;
                 Pipeline.mdb_export := fun _ => Some Ejemplos.serie_larga;
                 Pipeline.escritura := Pipeline.FalloTras 40 |}
              Pipeline.disco_vacio))))
           "mdb-bytes"%string Ejemplos.serie_larga).
  - reflexivity.
  - reflexivity.
  - reflexivity.
  - discriminate.
Defined.

(** ** The text that is written *)

Module TextoFacts.
Import Json.

Local Open Scope string_scope.

Lemma append_assoc (a b c : string) : (a ++ b) ++ c = a ++ (b ++ c).
Proof. induction a as [|x a IH]; simpl; [reflexivity|]. rewrite IH. reflexivity. Qed.

Lemma chars_app (a b : string) : chars (a ++ b) = (chars a ++ chars b)%list.
Proof. induction a as [|x a IH]; simpl; [reflexivity|]. rewrite IH. reflexivity. Qed.

Lemma simple_sin_salto (c : ascii) : simple c = true -> sin_salto c = true.
Proof.
  destruct c as [[] [] [] [] [] [] [] []]; vm_compute; congruence.
Qed.

Lemma simple_no_space (c : ascii) : simple c = true -> is_space c = false.
Proof.
  unfold simple. destruct (is_space c); simpl; congruence.
Qed.

Lemma forallb_simple_sin_salto (l : list ascii) :
  forallb simple l = true -> forallb sin_salto l = true.
Proof.
  rewrite !forallb_forall. intros H c Hc. apply simple_sin_salto, H, Hc.
Qed.

(** *** Numbers *)

Lemma string_of_uint_simple (u : Decimal.uint) :
  forallb simple (chars (NilEmpty.string_of_uint u)) = true.
Proof. induction u; simpl; auto. Qed.

Lemma str_N_simple (n : N) : forallb simple (chars (str_N n)) = true.
Proof. apply string_of_uint_simple. Qed.

Lemma digit_simple (d : Z) : (0 <= d <= 9)%Z -> simple (digit d) = true.
Proof.
  intros H.
  assert (C : (d = 0 \/ d = 1 \/ d = 2 \/ d = 3 \/ d = 4 \/ d = 5 \/ d = 6
               \/ d = 7 \/ d = 8 \/ d = 9)%Z) by lia.
  repeat (destruct C as [->|C]; [reflexivity|]). subst d. reflexivity.
Qed.

Lemma frac_digits_simple (fuel : nat) :
  forall num den : Z,
    (0 <= num < den)%Z ->
    forallb simple (chars (frac_digits fuel num den)) = true.
Proof.
  induction fuel as [|k IH]; intros num den H; simpl; [reflexivity|].
  destruct (num =? 0)%Z; [reflexivity|].
  simpl. rewrite IH by (apply Z.mod_pos_bound; lia).
  rewrite digit_simple; [reflexivity|].
  split.
  - apply Z.div_pos; lia.
  - assert (num * 10 / den < 10)%Z; [|lia].
    apply Z.div_lt_upper_bound; lia.
Qed.

Lemma repr_Q_simple (q : Q) : forallb simple (chars (repr_Q q)) = true.
Proof.
  unfold repr_Q. rewrite !chars_app, !forallb_app.
  rewrite str_N_simple.
  assert (F : forallb simple
                (chars (frac_digits 17 (Z.abs (Qnum q) mod Z.pos (Qden q))
                          (Z.pos (Qden q)))) = true)
    by (apply frac_digits_simple, Z.mod_pos_bound; lia).
  destruct (frac_digits 17 _ _) as [|c s]; destruct (Qnum q <? 0)%Z;
    try rewrite F; reflexivity.
Qed.

Lemma float_repr_simple (x : float64) :
  forallb simple (chars (float_repr x)) = true.
Proof. destruct x; [reflexivity|apply repr_Q_simple]. Qed.

(** *** String literals *)

Lemma escape_char_sin_salto (c : ascii) :
  forallb sin_salto (chars (escape_char c)) = true.
Proof. destruct c as [[] [] [] [] [] [] [] []]; reflexivity. Qed.

Lemma escape_sin_salto (s : string) :
  forallb sin_salto (chars (escape s)) = true.
Proof.
  induction s as [|c s IH]; simpl; [reflexivity|].
  rewrite chars_app, forallb_app, escape_char_sin_salto, IH. reflexivity.
Qed.

Lemma py_encode_basestring_sin_salto (s : string) :
  forallb sin_salto (chars (py_encode_basestring s)) = true.
Proof.
  unfold py_encode_basestring. simpl.
  rewrite chars_app, forallb_app, escape_sin_salto. reflexivity.
Qed.

(** Inside a literal, what stands for one character is read whole, and the
    reader is still inside. *)
Lemma fuera_escape_char (c : ascii) (rest : string) :
  fuera_de_cadenas_desde Dentro (escape_char c ++ rest)
  = fuera_de_cadenas_desde Dentro rest.
Proof. destruct c as [[] [] [] [] [] [] [] []]; reflexivity. Qed.

Lemma fuera_escape (s rest : string) :
  fuera_de_cadenas_desde Dentro (escape s ++ String QUOTE rest)
  = fuera_de_cadenas_desde Fuera rest.
Proof.
  induction s as [|c s IH]; simpl; [reflexivity|].
  rewrite append_assoc, fuera_escape_char. exact IH.
Qed.

(** A string literal is read from quote to quote and leaves nothing
    outside. *)
Lemma fuera_basestring (s rest : string) :
  fuera_de_cadenas_desde Fuera (py_encode_basestring s ++ rest)
  = fuera_de_cadenas_desde Fuera rest.
Proof.
  unfold py_encode_basestring. simpl.
  rewrite append_assoc. simpl. apply fuera_escape.
Qed.

(** A token without quotes is outside, whole. *)
Lemma fuera_token (t rest : string) :
  forallb simple (chars t) = true ->
  fuera_de_cadenas_desde Fuera (t ++ rest)
  = (chars t ++ fuera_de_cadenas_desde Fuera rest)%list.
Proof.
  induction t as [|c t IH]; simpl; [reflexivity|].
  intros H. apply andb_true_iff in H as [Hc Ht].
  unfold simple in Hc. apply andb_true_iff in Hc as [_ Hq].
  destruct (Ascii.eqb c QUOTE); [discriminate|].
  rewrite IH by exact Ht. reflexivity.
Qed.


(** *** Records *)

(** What a value that is not a dictionary leaves outside string literals:
    its own text when it is a number or [null], nothing when it is a
    string. *)
Lemma fuera_escalar (level : nat) (v : pyobj) :
  escalar v = true ->
  exists X,
    forallb simple X = true
    /\ forall rest,
         fuera_de_cadenas_desde Fuera (encode None "," ":" level v ++ rest)
         = (X ++ fuera_de_cadenas_desde Fuera rest)%list.
Proof.
  destruct v as [|x|s|items]; simpl; intros H; try discriminate.
  - exists (chars "null"). split; [reflexivity|]. intros rest. reflexivity.
  - exists (chars (float_repr x)). split; [apply float_repr_simple|].
    intros rest. apply fuera_token, float_repr_simple.
  - exists []. split; [reflexivity|]. intros rest. apply fuera_basestring.
Qed.

Lemma escalar_sin_salto (level : nat) (v : pyobj) :
  escalar v = true ->
  forallb sin_salto (chars (encode None "," ":" level v)) = true.
Proof.
  destruct v as [|x|s|items]; simpl; intros H; try discriminate.
  - reflexivity.
  - apply forallb_simple_sin_salto, float_repr_simple.
  - apply py_encode_basestring_sin_salto.
Qed.

Lemma dumps_compact_dict (kv : string * pyobj) (items : list (string * pyobj)) :
  dumps_compact (PyDict (kv :: items))
  = "{" ++ String.concat "," (map item_compact (kv :: items)) ++ "}".
Proof. reflexivity. Qed.

Lemma fuera_item (kv : string * pyobj) :
  escalar (snd kv) = true ->
  exists X,
    forallb simple X = true
    /\ forall rest,
         fuera_de_cadenas_desde Fuera (item_compact kv ++ rest)
         = (X ++ fuera_de_cadenas_desde Fuera rest)%list.
Proof.
  intros H. destruct (fuera_escalar 1 (snd kv) H) as [X [HX E]].
  exists (":"%char :: X). split; [simpl; exact HX|].
  intros rest. unfold item_compact.
  rewrite append_assoc, fuera_basestring, append_assoc.
  simpl. rewrite E. reflexivity.
Qed.

Lemma item_sin_salto (kv : string * pyobj) :
  escalar (snd kv) = true ->
  forallb sin_salto (chars (item_compact kv)) = true.
Proof.
  intros H. unfold item_compact.
  rewrite !chars_app, !forallb_app, py_encode_basestring_sin_salto,
    (escalar_sin_salto 1 _ H).
  reflexivity.
Qed.

Lemma concat_cons (sep x : string) (y : string) (l : list string) :
  String.concat sep (x :: y :: l) = x ++ sep ++ String.concat sep (y :: l).
Proof. reflexivity. Qed.

Lemma fuera_items (items : list (string * pyobj)) :
  forallb (fun kv => escalar (snd kv)) items = true ->
  exists X,
    forallb simple X = true
    /\ forall rest,
         fuera_de_cadenas_desde Fuera
           (String.concat "," (map item_compact items) ++ rest)
         = (X ++ fuera_de_cadenas_desde Fuera rest)%list.
Proof.
  induction items as [|kv items IH]; intros H.
  - exists []. split; reflexivity.
  - simpl in H. apply andb_true_iff in H as [Hkv Hitems].
    destruct (fuera_item kv Hkv) as [X [HX EX]].
    destruct items as [|kv2 items].
    + exists X. split; [exact HX|]. intros rest. simpl. apply EX.
    + destruct (IH Hitems) as [Y [HY EY]].
      exists (X ++ ","%char :: Y)%list. split.
      * rewrite forallb_app, HX. simpl. exact HY.
      * intros rest.
        change (map item_compact (kv :: kv2 :: items))
          with (item_compact kv :: item_compact kv2 :: map item_compact items).
        rewrite concat_cons, !append_assoc, EX. simpl.
        change (item_compact kv2 :: map item_compact items)
          with (map item_compact (kv2 :: items)).
        rewrite EY, <- app_assoc. reflexivity.
Qed.

Lemma items_sin_salto (items : list (string * pyobj)) :
  forallb (fun kv => escalar (snd kv)) items = true ->
  forallb sin_salto (chars (String.concat "," (map item_compact items)))
  = true.
Proof.
  induction items as [|kv items IH]; intros H; [reflexivity|].
  simpl in H. apply andb_true_iff in H as [Hkv Hitems].
  destruct items as [|kv2 items].
  - simpl. apply item_sin_salto, Hkv.
  - change (map item_compact (kv :: kv2 :: items))
      with (item_compact kv :: item_compact kv2 :: map item_compact items).
    rewrite concat_cons, !chars_app, !forallb_app, item_sin_salto by exact Hkv.
    change (item_compact kv2 :: map item_compact items)
      with (map item_compact (kv2 :: items)).
    rewrite IH by exact Hitems. reflexivity.
Qed.

(** A record with no nested dictionary is written on one line. *)
Lemma registro_una_linea (record : pyobj) :
  registro_plano record = true ->
  forallb sin_salto (chars (dumps_compact record)) = true.
Proof.
  destruct record as [| | |items]; try discriminate. simpl registro_plano.
  intros H. destruct items as [|kv items]; [reflexivity|].
  rewrite dumps_compact_dict, !chars_app, !forallb_app.
  rewrite (items_sin_salto _ H). reflexivity.
Qed.

(** In a record with no nested dictionary, nothing outside the string
    literals is a blank. *)
Lemma registro_denso (record : pyobj) :
  registro_plano record = true ->
  forallb (fun c => negb (is_space c))
          (fuera_de_cadenas (dumps_compact record)) = true.
Proof.
  destruct record as [| | |items]; try discriminate. simpl registro_plano.
  intros H. destruct items as [|kv items]; [reflexivity|].
  rewrite dumps_compact_dict. unfold fuera_de_cadenas.
  destruct (fuera_items _ H) as [X [HX E]].
  change ("{" ++ String.concat "," (map item_compact (kv :: items)) ++ "}")
    with (String "{" (String.concat "," (map item_compact (kv :: items)) ++ "}")).
  cbn [fuera_de_cadenas_desde]. change (Ascii.eqb "{" QUOTE) with false.
  cbv iota. rewrite E. simpl.
  rewrite forallb_app. simpl. rewrite andb_true_r.
  rewrite forallb_forall in HX. apply forallb_forall.
  intros c Hc. rewrite (simple_no_space c (HX c Hc)). reflexivity.
Qed.

End TextoFacts.

Module ProcesoFacts.
Import Proceso.

Local Open Scope string_scope.

(** What the columns do to a cell keeps it a value that is not a
    dictionary. *)
Lemma escalar_celda (d : dtype) (v : pyobj) :
  Json.escalar (where_notnull d (celda d v)) = Json.escalar v.
Proof. destruct d, v as [|[|q]|s|items]; reflexivity. Qed.

(** A text or a number is stored as it is, whatever the column. *)
Lemma celda_de_texto (d : dtype) (s : string) :
  where_notnull d (celda d (PyStr s)) = PyStr s.
Proof. destruct d; reflexivity. Qed.

Lemma celda_de_numero (d : dtype) (q : Q) :
  where_notnull d (celda d (PyFloat (Fin q))) = PyFloat (Fin q).
Proof. destruct d; reflexivity. Qed.

(** The rows of the frame have no nested dictionary. *)
Lemma registro_es_plano (k : clave) (s : stats) :
  Json.registro_plano (registro k s) = true.
Proof.
  unfold registro, stats_items. cbn.
  destruct (ma1 s); reflexivity.
Qed.

Lemma a_registro_plano (rows : list pyobj) (row : pyobj) :
  Json.registro_plano row = true ->
  Json.registro_plano (a_registro rows row) = true.
Proof.
  destruct row as [| | |items]; try discriminate.
  cbn [a_registro Json.registro_plano].
  induction items as [|kv items IH]; [reflexivity|].
  cbn [map forallb fst snd]. rewrite escalar_celda.
  intros H. apply andb_true_iff in H as [H1 H2].
  rewrite H1. exact (IH H2).
Qed.

(** A row of the frame is the row of a group with a snapshot. *)
Lemma filas_agrupadas_In (df : list fila) (row : pyobj) :
  In row (filas_agrupadas df) ->
  exists g s,
    In g (groupby df)
    /\ calcular_estadisticas_embalse (snd g) = Some s
    /\ row = registro (fst g) s.
Proof.
  unfold filas_agrupadas. rewrite in_flat_map. intros [g [Hg H]].
  destruct (calcular_estadisticas_embalse (snd g)) as [s|] eqn:E;
    [|contradiction].
  destruct H as [<-|[]]. exists g, s. auto.
Qed.

(** A record is a row of the frame, cell by cell as its columns store
    it. *)
Lemma datos_In (df : list fila) (record : pyobj) :
  In record (datos df) ->
  exists g s,
    In g (groupby df)
    /\ calcular_estadisticas_embalse (snd g) = Some s
    /\ record = a_registro (filas_agrupadas df) (registro (fst g) s).
Proof.
  unfold datos. cbv zeta. rewrite in_map_iff. intros [row [<- Hrow]].
  destruct (filas_agrupadas_In df row Hrow) as (g & s & Hg & Es & ->).
  exists g, s. auto.
Qed.

Lemma datos_length (df : list fila) :
  List.length (datos df) = List.length (filas_agrupadas df).
Proof. unfold datos. cbv zeta. apply length_map. Qed.

(** The cell of a record under a key, from the cell of its row. *)
Lemma campo_a_registro (rows : list pyobj) (items : list (string * pyobj))
    (key : string) :
  campo (a_registro rows (PyDict items)) key
  = option_map (fun v => where_notnull (dtype_columna rows key)
                           (celda (dtype_columna rows key) v))
               (campo (PyDict items) key).
Proof.
  cbn [a_registro campo].
  induction items as [|kv items IH]; [reflexivity|].
  cbn [map List.find fst snd].
  destruct (String.eqb_spec (fst kv) key) as [->|N]; [reflexivity|].
  exact IH.
Qed.

Lemma datos_planos (df : list fila) (record : pyobj) :
  In record (datos df) -> Json.registro_plano record = true.
Proof.
  intros H. destruct (datos_In df record H) as (g & s & _ & _ & ->).
  apply a_registro_plano, registro_es_plano.
Qed.

(** The eight means that are not [ma1] are numbers in the row of a
    series with a row. *)
Lemma medias_son_numeros (df : list fila) (k : clave) :
  df <> [] ->
  exists s,
    calcular_estadisticas_embalse df = Some s
    /\ Forall (numero_en (registro k s)) claves_medias.
Proof.
  intros Hne.
  destruct (sort_values_desc_head df Hne) as [primera [resto [E Eref]]].
  unfold calcular_estadisticas_embalse. rewrite E.
  eexists. split; [reflexivity|].
  unfold media_historica.
  destruct (round_mean_nonempty _
              (columna_nonempty _ (df_dias_head 7 primera resto ltac:(lia))))
    as [q1 E1].
  destruct (round_mean_nonempty _
              (columna_nonempty _ (df_dias_head 14 primera resto ltac:(lia))))
    as [q2 E2].
  destruct (round_mean_nonempty _
              (columna_nonempty _ (df_dias_head 30 primera resto ltac:(lia))))
    as [q3 E3].
  destruct (round_mean_nonempty _
              (columna_nonempty _
                 (df_historica_head 3 primera resto ltac:(lia))))
    as [q4 E4].
  destruct (round_mean_nonempty _
              (columna_nonempty _
                 (df_historica_head 5 primera resto ltac:(lia))))
    as [q5 E5].
  destruct (round_mean_nonempty _
              (columna_nonempty _
                 (df_historica_head 10 primera resto ltac:(lia))))
    as [q6 E6].
  destruct (round_mean_nonempty _
              (columna_nonempty _
                 (df_historica_head 20 primera resto ltac:(lia))))
    as [q7 E7].
  assert (N8 : columna_agua_actual
                 (df_hist_mes (Calendar.month_of (FECHA primera))
                    (primera :: resto)) <> [])
    by (rewrite df_hist_mes_head; discriminate).
  destruct (round_mean_nonempty _ N8) as [q8 E8].
  rewrite E1, E2, E3, E4, E5, E6, E7, E8.
  unfold claves_medias.
  repeat (apply Forall_cons; [eexists; reflexivity|]).
  apply Forall_nil.
Qed.

(** The cell of a mean in the row of a group. *)
Lemma campo_media (k : clave) (s : stats) (key : string) :
  In key claves_medias ->
  campo (registro k s) key = Some (PyFloat (Lectura.media_de s key)).
Proof.
  unfold claves_medias. simpl.
  intros [<-|[<-|[<-|[<-|[<-|[<-|[<-|[<-|[]]]]]]]]]; reflexivity.
Qed.

(** A group of [groupby] has a row. *)
Lemma insert_group_nonempty (r : fila) (gs : list (clave * list fila)) :
  Forall (fun g => snd g <> []) gs ->
  Forall (fun g => snd g <> []) (insert_group r gs).
Proof.
  induction gs as [|[k rows] gs IH]; intros H.
  - repeat constructor. discriminate.
  - cbn [insert_group]. inversion H as [|g0 l0 H1 H2]; subst.
    destruct (compare_clave (clave_de r) k).
    + constructor; [discriminate|exact H2].
    + constructor; [discriminate|exact H].
    + constructor; [exact H1|apply IH, H2].
Qed.

Lemma groupby_nonempty (df : list fila) :
  Forall (fun g => snd g <> []) (groupby df).
Proof.
  induction df as [|r df IH]; [constructor|].
  apply insert_group_nonempty, IH.
Qed.

(** In every record the eight means that are not [ma1] are numbers. *)
Lemma datos_medias_son_numeros (df : list fila) (record : pyobj) :
  In record (datos df) -> Forall (numero_en record) claves_medias.
Proof.
  intros H. destruct (datos_In df record H) as (g & s & Hg & Es & ->).
  pose proof (groupby_nonempty df) as N. rewrite Forall_forall in N.
  destruct (medias_son_numeros (snd g) (fst g) (N g Hg)) as [s' [Es' F]].
  rewrite Es in Es'. injection Es' as <-.
  rewrite Forall_forall in *. intros key Hk.
  destruct (F key Hk) as [q Eq]. exists q.
  unfold registro in *. rewrite campo_a_registro, Eq.
  cbn [option_map]. rewrite celda_de_numero. reflexivity.
Qed.

(** The loop writes a comma after every record but the last. *)
Lemma escribir_registros_lineas (anteriores : list pyobj) (ultimo : pyobj) :
  forall i total : Z,
    total = (i + Z.of_nat (List.length anteriores) + 1)%Z ->
    escribir_registros i total (anteriores ++ [ultimo])
    = lineas_de_datos anteriores ultimo.
Proof.
  induction anteriores as [|record resto IH]; intros i total Ht.
  - simpl in *. destruct (Z.ltb_spec i (total - 1)); [lia|]. reflexivity.
  - cbn [app escribir_registros lineas_de_datos].
    rewrite (IH (i + 1)%Z total)
      by (cbn [List.length] in Ht; rewrite Nat2Z.inj_succ in Ht; lia).
    destruct (Z.ltb_spec i (total - 1)); [reflexivity|].
    cbn [List.length] in Ht. rewrite Nat2Z.inj_succ in Ht. lia.
Qed.

Lemma dump_indent2_metadata :
  Json.dump_indent2 Config.METADATA
  = String.concat nl Config.metadatos_lineas.
Proof. vm_compute. reflexivity. Qed.

(** The whole output, for a dataset with a last record. *)
Lemma escritura_hibrida_layout (anteriores : list pyobj) (ultimo : pyobj) :
  escritura_hibrida Config.METADATA (anteriores ++ [ultimo])
  = "{" ++ nl ++ "  " ++ entre_comillas "metadatos" ++ ": "
    ++ String.concat nl Config.metadatos_lineas
    ++ "," ++ nl ++ "  " ++ entre_comillas "datos" ++ ": [" ++ nl
    ++ lineas_de_datos anteriores ultimo
    ++ "  ]" ++ nl ++ "}" ++ nl.
Proof.
  unfold escritura_hibrida.
  rewrite dump_indent2_metadata.
  rewrite (escribir_registros_lineas anteriores ultimo 0)
    by (rewrite length_app; simpl; lia).
  reflexivity.
Qed.

End ProcesoFacts.

(** C9, as the program has it.  For a dataset with at least one record,
    the output is the opening brace, the metadata block on several
    indented lines, the opening of the data array, one line per record
    with a comma after each but the last, and the closing bracket and
    brace each on a line of its own.  A record line has no line break in
    it and no blank outside its string literals; the blanks of a region
    or reservoir name stay inside the literal that holds the name. *)
Theorem C9_hybrid_layout (df : list fila) (anteriores : list pyobj)
    (ultimo : pyobj) :
  Proceso.datos df = anteriores ++ [ultimo] ->
  Proceso.escritura_hibrida Config.METADATA (Proceso.datos df)
  = ("{" ++ nl ++ "  " ++ entre_comillas "metadatos" ++ ": "
     ++ String.concat nl Config.metadatos_lineas
     ++ "," ++ nl ++ "  " ++ entre_comillas "datos" ++ ": [" ++ nl
     ++ Proceso.lineas_de_datos anteriores ultimo
     ++ "  ]" ++ nl ++ "}" ++ nl)%string
  /\ forall record,
       In record (Proceso.datos df) ->
       forallb Json.sin_salto
               (list_ascii_of_string (Json.dumps_compact record)) = true
       /\ forallb (fun c => negb (is_space c))
                  (Json.fuera_de_cadenas (Json.dumps_compact record)) = true.
Proof.
  intros E. split.
  - rewrite E. apply ProcesoFacts.escritura_hibrida_layout.
  - intros record Hr.
    pose proof (ProcesoFacts.datos_planos df record Hr) as P.
    split.
    + apply TextoFacts.registro_una_linea, P.
    + apply TextoFacts.registro_denso, P.
Qed.

Lemma C9_hybrid_layout_witness :
  Proceso.datos Proceso.dos_embalses
  = [Proceso.registro_la_serena] ++ [Proceso.registro_buendia]
  /\ Proceso.escritura_hibrida Config.METADATA
       (Proceso.datos Proceso.dos_embalses)
     = ("{" ++ nl ++ "  " ++ entre_comillas "metadatos" ++ ": "
        ++ String.concat nl Config.metadatos_lineas
        ++ "," ++ nl ++ "  " ++ entre_comillas "datos" ++ ": [" ++ nl
        ++ Proceso.lineas_de_datos [Proceso.registro_la_serena]
             Proceso.registro_buendia
        ++ "  ]" ++ nl ++ "}" ++ nl)%string
  /\ forall record,
       In record (Proceso.datos Proceso.dos_embalses) ->
       forallb Json.sin_salto
               (list_ascii_of_string (Json.dumps_compact record)) = true
       /\ forallb (fun c => negb (is_space c))
                  (Json.fuera_de_cadenas (Json.dumps_compact record)) = true.
Proof.
  assert (H : Proceso.datos Proceso.dos_embalses
              = [Proceso.registro_la_serena] ++ [Proceso.registro_buendia])
    by (vm_compute; reflexivity).
  split; [exact H|].
  exact (C9_hybrid_layout Proceso.dos_embalses [Proceso.registro_la_serena]
           Proceso.registro_buendia H).
Defined.

(** C9, counterexample to the claim as stated: the line of the reservoir
    La Serena has a blank in it, the one of its name. *)
Lemma C9_record_line_has_a_blank :
  In Proceso.registro_la_serena (Proceso.datos Proceso.dos_embalses)
  /\ In " "%char
        (list_ascii_of_string (Json.dumps_compact Proceso.registro_la_serena))
  /\ is_space " "%char = true
  /\ existsb is_space
       (list_ascii_of_string (Json.dumps_compact Proceso.registro_la_serena))
     = true.
Proof.
  split; [left; vm_compute; reflexivity|].
  split; [vm_compute; tauto|].
  split; vm_compute; reflexivity.
Qed.


(** ** The statistics of one reservoir, on the series as given *)

Section EstadisticasDirectas.
Import Calendar CalendarFacts.

(** The fields of a date built from a year, a month and a day. *)
Lemma campos_de_fecha (y m d : Z) :
  valid_date y m d ->
  year_of (ymd2ord y m d) = y
  /\ month_of (ymd2ord y m d) = m
  /\ day_of (ymd2ord y m d) = d.
Proof.
  intros V. unfold year_of, month_of, day_of.
  rewrite (ord2ymd_ymd2ord y m d V). repeat split.
Qed.


Lemma filter_filter_andb {A : Type} (p q : A -> bool) (l : list A) :
  filter q (filter p l) = filter (fun x => p x && q x) l.
Proof.
  induction l as [|x l IH]; simpl; [reflexivity|].
  destruct (p x); simpl; [destruct (q x)|]; rewrite IH; reflexivity.
Qed.

Lemma mean_over_sorted (p : fila -> bool) (df : list fila) :
  py_round2 (mean (columna_agua_actual (filter p (sort_values_desc df))))
  = mean_over p df.
Proof. apply round_mean_filter. reflexivity. Qed.

(** Every field of the snapshot, read off the series as it is given:
    sorting only serves to find a row of the latest date. *)
Lemma estadisticas_directas (df : list fila) :
  df <> [] ->
  exists s primera,
    calcular_estadisticas_embalse df = Some s
    /\ In primera df
    /\ FECHA primera = max_fecha df
    /\ aa s = Fin (round2 (AGUA_ACTUAL primera))
    /\ at_ s = Fin (round2 (AGUA_TOTAL primera))
    /\ f s = strftime_Ymd (max_fecha df)
    /\ m1s s = mean_over (en_dias 7 df) df
    /\ m2s s = mean_over (en_dias 14 df) df
    /\ m1m s = mean_over (en_dias 30 df) df
    /\ ma1 s = match filter (in_prior_year_window df) df with
               | [] => None
               | _ :: _ => Some (mean_over (in_prior_year_window df) df)
               end
    /\ h3a s = mean_over (en_anios 3 df) df
    /\ h5a s = mean_over (en_anios 5 df) df
    /\ h10a s = mean_over (en_anios 10 df) df
    /\ h20a s = mean_over (en_anios 20 df) df
    /\ ht s = mean_over (en_mes df) df.
Proof.
  intros Hne.
  destruct (sort_values_desc_head df Hne) as [primera [resto [E Eref]]].
  destruct (calcular_estadisticas_embalse df) as [s|] eqn:Es;
    [|unfold calcular_estadisticas_embalse in Es; rewrite E in Es;
      discriminate].
  destruct (estadisticas_redondeadas df s Es) as [p0 [r0 [E0 H]]].
  rewrite E in E0. injection E0 as <- <-. cbv zeta in H.
  destruct H as (Ha & Hb & H1 & H2 & H3 & H4 & H5 & H6 & H7 & H8 & H9).
  unfold calcular_estadisticas_embalse in Es. rewrite E in Es.
  injection Es as Es.
  assert (Ef : f s = strftime_Ymd (max_fecha df))
    by (rewrite <- Es, <- Eref; reflexivity).
  clear Es.
  rewrite <- E in H1, H2, H3, H4, H5, H6, H7, H8, H9.
  rewrite Eref in H1, H2, H3, H4, H5, H6, H7, H8, H9.
  exists s, primera.
  split; [reflexivity|].
  split; [apply (Permutation_in _ (sort_values_desc_perm df)); rewrite E;
          left; reflexivity|].
  split; [exact Eref|].
  split; [exact Ha|]. split; [exact Hb|]. split; [exact Ef|].
  split; [rewrite H1; apply mean_over_sorted|].
  split; [rewrite H2; apply mean_over_sorted|].
  split; [rewrite H3; apply mean_over_sorted|].
  split.
  { rewrite H4. fold (reference_date df). rewrite df_anio_ant_spec.
    pose proof (filter_perm (in_prior_year_window df) _ _
                  (sort_values_desc_perm df)) as P.
    rewrite mean_over_sorted.
    destruct (filter (in_prior_year_window df) (sort_values_desc df))
      as [|a ta];
      destruct (filter (in_prior_year_window df) df) as [|b tb];
      try reflexivity.
    - apply Permutation_nil in P. discriminate.
    - apply Permutation_sym, Permutation_nil in P. discriminate. }
  unfold df_historica, df_hist_mes in H5, H6, H7, H8.
  rewrite filter_filter_andb in H5, H6, H7, H8.
  split; [rewrite H5; apply mean_over_sorted|].
  split; [rewrite H6; apply mean_over_sorted|].
  split; [rewrite H7; apply mean_over_sorted|].
  split; [rewrite H8; apply mean_over_sorted|].
  rewrite H9. apply mean_over_sorted.
Qed.

End EstadisticasDirectas.

(** ** The snapshot in the words of the specification *)

Section Enunciado.
Import Calendar CalendarFacts.

(** [round2] gives a whole number of hundredths at most half a hundredth
    away. *)
Lemma round2_rounded (x : Q) : Spec.rounded_to_2 x (Fin (round2 x)).
Proof.
  destruct (round2_nearest_even x) as [c [E [H _]]].
  exists c. split; [rewrite E; reflexivity|].
  apply Qabs_Qle_condition in H. apply Qabs_Qle_condition.
  rewrite (Qmake_Qdiv c 100).
  change (inject_Z (Z.pos 100)) with 100%Q.
  assert (Ed : (inject_Z c / 100 == inject_Z c * (1 # 100))%Q)
    by (unfold Qdiv; reflexivity).
  rewrite Ed. split; lra.
Qed.

(** The rounded mean over a selection with a row. *)
Lemma mean_over_rounded (p : fila -> bool) (df : list fila) :
  filter p df <> [] -> Spec.rounded_mean (filter p df) (mean_over p df).
Proof.
  intros N. split; [exact N|].
  unfold mean_over. destruct (filter p df) as [|x t]; [congruence|].
  assert (E : py_round2 (mean (columna_agua_actual (x :: t)))
              = Fin (round2 (Spec.arithmetic_mean (x :: t)))).
  { unfold Spec.arithmetic_mean.
    rewrite <- (length_map AGUA_ACTUAL (x :: t)). reflexivity. }
  rewrite E. apply round2_rounded.
Qed.

Lemma mean_over_or_null (p : fila -> bool) (df : list fila) :
  Spec.mean_or_null (filter p df)
    (match filter p df with
     | [] => None
     | _ :: _ => Some (mean_over p df)
     end).
Proof.
  unfold Spec.mean_or_null.
  destruct (filter p df) as [|x t] eqn:E; [reflexivity|].
  eexists. split; [reflexivity|].
  rewrite <- E. apply mean_over_rounded. rewrite E. discriminate.
Qed.

(** Two tests that agree on the rows of a series select the same rows
    and give the same mean. *)
Lemma mean_over_ext_in (p p' : fila -> bool) (df : list fila) :
  (forall r, In r df -> p r = p' r) ->
  filter p df = filter p' df /\ mean_over p df = mean_over p' df.
Proof.
  intros H. assert (E : filter p df = filter p' df)
    by (apply filter_ext_in, H).
  split; [exact E|]. unfold mean_over. rewrite E. reflexivity.
Qed.

(** The maximum date of a series is [max_fecha]. *)
Lemma latest_date_max (df : list fila) (ref : Timestamp) :
  Spec.latest_date df ref -> df <> [] /\ ref = max_fecha df.
Proof.
  intros [[r [Hr Er]] Hall].
  assert (N : df <> []) by (intros ->; contradiction).
  split; [exact N|].
  destruct (max_fecha_spec df N) as [[x [Hx Ex]] Hmax].
  pose proof (Hall x Hx). pose proof (Hmax r Hr). lia.
Qed.

(** The tests of the program and the tests of the specification agree on
    the rows of the series. *)
Lemma en_dias_within_days (n : Z) (df : list fila) (r : fila) :
  In r df -> en_dias n df r = Spec.within_days n (max_fecha df) r.
Proof.
  intros Hr. unfold en_dias, Spec.within_days.
  assert (N : df <> []) by (intros ->; contradiction).
  destruct (max_fecha_spec df N) as [_ Hmax].
  pose proof (Hmax r Hr).
  destruct (Z.leb_spec (FECHA r) (max_fecha df)); [|lia].
  rewrite andb_true_r. reflexivity.
Qed.

(** Within a month, dates go by the day of the month. *)
Lemma ymd2ord_same_month (y m d1 d2 : Z) :
  ymd2ord y m d1 <= ymd2ord y m d2 <-> d1 <= d2.
Proof. unfold ymd2ord. lia. Qed.

Lemma en_anios_within_years (k : Z) (df : list fila) (r : fila) :
  en_anios k df r = Spec.within_years k (max_fecha df) r.
Proof.
  unfold en_anios, Spec.within_years, Spec.same_month, en_mes.
  destruct (Z.eqb_spec (month_of (FECHA r)) (month_of (max_fecha df)))
    as [Em|]; [|reflexivity].
  cbn [andb].
  rewrite ts_sub_years_eq.
  pose proof (ts_sub_years_valid (max_fecha df) k) as V.
  destruct (ord2ymd_spec (FECHA r)) as [Vr Er].
  rewrite Em in Vr, Er.
  set (y := year_of (max_fecha df)) in *.
  set (m := month_of (max_fecha df)) in *.
  set (d := day_of (max_fecha df)) in *.
  set (yr := year_of (FECHA r)) in *.
  set (dr := day_of (FECHA r)) in *.
  rewrite (Z.min_comm d).
  set (dl := Z.min (days_in_month (y - k) m) d) in *.
  rewrite <- Er at 1.
  destruct (Z.ltb_spec (y - k) yr) as [L|L].
  - cbn [orb].
    pose proof (ymd2ord_lt_year (y - k) m dl yr m dr L V
                  (proj1 Vr) (proj1 (proj2 Vr))).
    apply Z.leb_le. lia.
  - cbn [orb]. destruct (Z.eqb_spec yr (y - k)) as [E|N].
    + cbn [andb]. rewrite E.
      apply eq_true_iff_eq. rewrite !Z.leb_le.
      apply ymd2ord_same_month.
    + cbn [andb].
      assert (L' : yr < y - k) by lia.
      pose proof (ymd2ord_lt_year yr m dr (y - k) m dl L' Vr
                    (proj1 V) (proj1 (proj2 V))).
      apply Z.leb_gt. lia.
Qed.

(** The reference row passes the tests of the eight means that are not
    [ma1]. *)
Lemma within_days_reference (n : Z) (ref : Timestamp) (r : fila) :
  0 <= n -> FECHA r = ref -> Spec.within_days n ref r = true.
Proof.
  intros Hn E. unfold Spec.within_days. rewrite E.
  apply andb_true_iff. split; apply Z.leb_le; lia.
Qed.

Lemma same_month_reference (ref : Timestamp) (r : fila) :
  FECHA r = ref -> Spec.same_month ref r = true.
Proof. intros E. unfold Spec.same_month. rewrite E. apply Z.eqb_refl. Qed.

Lemma within_years_reference (k : Z) (ref : Timestamp) (r : fila) :
  1 <= k -> FECHA r = ref -> Spec.within_years k ref r = true.
Proof.
  intros Hk E. unfold Spec.within_years.
  rewrite (same_month_reference ref r E). rewrite E. cbn [andb].
  destruct (Z.ltb_spec (year_of ref - k) (year_of ref)); [reflexivity|lia].
Qed.

Lemma filter_with (p : fila -> bool) (df : list fila) (r : fila) :
  In r df -> p r = true -> filter p df <> [].
Proof.
  intros Hr Hp E.
  assert (I : In r (filter p df)) by (apply filter_In; auto).
  rewrite E in I. contradiction.
Qed.

(** The dates that bound the year-before window, by their calendar
    fields. *)
Lemma fecha_anio_ant_inicio_is_day (t : Timestamp) :
  Spec.is_day (fecha_anio_ant_inicio t)
    (if month_of t =? 1 then year_of t - 2 else year_of t - 1)
    (if month_of t =? 1 then 12 else month_of t - 1)
    (day_of t).
Proof.
  rewrite fecha_anio_ant_inicio_eq.
  destruct (ord2ymd_spec t) as [[Hm Hd] _].
  unfold Spec.is_day.
  destruct (Z.eqb_spec (month_of t) 1) as [E|N].
  - rewrite (Z.min_comm (day_of t)).
    apply campos_de_fecha, valid_date_clamp; lia.
  - rewrite (Z.min_comm (day_of t)).
    apply campos_de_fecha, valid_date_clamp; lia.
Qed.

Lemma un_anio_antes_is_day (t : Timestamp) :
  Spec.is_day (ts_sub t {| years := 1; months := 0 |})
    (year_of t - 1) (month_of t) (day_of t).
Proof.
  rewrite ts_sub_years_eq. unfold Spec.is_day.
  rewrite (Z.min_comm (day_of t)).
  apply campos_de_fecha, ts_sub_years_valid.
Qed.

Lemma fecha_anio_ant_fin_is_day (t : Timestamp) :
  Spec.is_day (fecha_anio_ant_fin t)
    (if month_of t =? 12 then year_of t else year_of t - 1)
    (if month_of t =? 12 then 1 else month_of t + 1)
    (day_of (ts_sub t {| years := 1; months := 0 |})).
Proof.
  destruct (un_anio_antes_is_day t) as (_ & _ & Ed).
  rewrite Ed, (Z.min_comm (day_of t)).
  pose proof (fecha_anio_ant_fin_eq t) as E. cbv zeta in E. rewrite E.
  destruct (ord2ymd_spec t) as [[Hm Hd] _].
  pose proof (ts_sub_years_valid t 1) as [_ [Hd1 _]].
  unfold Spec.is_day.
  destruct (Z.eqb_spec (month_of t) 12) as [E12|N].
  - rewrite (Z.min_comm _ (days_in_month (year_of t) 1)).
    apply campos_de_fecha, valid_date_clamp; lia.
  - rewrite (Z.min_comm _ (days_in_month (year_of t - 1) (month_of t + 1))).
    apply campos_de_fecha, valid_date_clamp; lia.
Qed.

(** A date is known by its calendar fields. *)
Lemma is_day_unique (t t' : Timestamp) (y m d : Z) :
  Spec.is_day t y m d -> Spec.is_day t' y m d -> t = t'.
Proof.
  intros (Ey & Em & Ed) (Ey' & Em' & Ed').
  destruct (ord2ymd_spec t) as [_ E]. destruct (ord2ymd_spec t') as [_ E'].
  rewrite <- E, <- E'. congruence.
Qed.

(** The year-before window: the three tests of the program are the test
    on the calendar fields, and the test between the two bounds. *)
Lemma in_prior_year_window_year_before (df : list fila) (r : fila) :
  in_prior_year_window df r = Spec.year_before (max_fecha df) r.
Proof.
  apply eq_true_iff_eq. rewrite in_prior_year_window_iff.
  unfold Spec.year_before, Spec.same_month, reference_date.
  rewrite andb_true_iff, !Z.eqb_eq. reflexivity.
Qed.

Lemma in_prior_year_window_between (df : list fila) (r : fila) :
  in_prior_year_window df r
  = Spec.between (fecha_anio_ant_inicio (max_fecha df))
      (fecha_anio_ant_fin (max_fecha df)) (max_fecha df) r.
Proof. apply in_prior_year_window_unfold. Qed.

(** Every field of the snapshot of a series, by the tests of the
    specification on the series as it is given. *)
Lemma estadisticas_explicitas (df : list fila) (ref : Timestamp) :
  Spec.latest_date df ref ->
  exists s primera,
    calcular_estadisticas_embalse df = Some s
    /\ In primera df
    /\ FECHA primera = ref
    /\ aa s = Fin (round2 (AGUA_ACTUAL primera))
    /\ at_ s = Fin (round2 (AGUA_TOTAL primera))
    /\ m1s s = mean_over (Spec.within_days 7 ref) df
    /\ m2s s = mean_over (Spec.within_days 14 ref) df
    /\ m1m s = mean_over (Spec.within_days 30 ref) df
    /\ ma1 s = match filter (Spec.year_before ref) df with
               | [] => None
               | _ :: _ => Some (mean_over (Spec.year_before ref) df)
               end
    /\ ma1 s = (let p := Spec.between (fecha_anio_ant_inicio ref)
                           (fecha_anio_ant_fin ref) ref in
                match filter p df with
                | [] => None
                | _ :: _ => Some (mean_over p df)
                end)
    /\ h3a s = mean_over (Spec.within_years 3 ref) df
    /\ h5a s = mean_over (Spec.within_years 5 ref) df
    /\ h10a s = mean_over (Spec.within_years 10 ref) df
    /\ h20a s = mean_over (Spec.within_years 20 ref) df
    /\ ht s = mean_over (Spec.same_month ref) df.
Proof.
  intros L. destruct (latest_date_max df ref L) as [N ->].
  destruct (estadisticas_directas df N)
    as (s & primera & Es & Hp & Ep & Ha & Hb & _ & H1 & H2 & H3 & H4
        & H5 & H6 & H7 & H8 & H9).
  exists s, primera.
  assert (D : forall n, mean_over (en_dias n df) df
                        = mean_over (Spec.within_days n (max_fecha df)) df)
    by (intros n; apply mean_over_ext_in; intros r Hr;
        apply en_dias_within_days, Hr).
  assert (A : forall k, mean_over (en_anios k df) df
                        = mean_over (Spec.within_years k (max_fecha df)) df)
    by (intros k; apply mean_over_ext_in; intros r Hr;
        apply en_anios_within_years).
  destruct (mean_over_ext_in (in_prior_year_window df)
              (Spec.year_before (max_fecha df)) df
              (fun r _ => in_prior_year_window_year_before df r))
    as [F1 M1].
  destruct (mean_over_ext_in (in_prior_year_window df)
              (Spec.between (fecha_anio_ant_inicio (max_fecha df))
                 (fecha_anio_ant_fin (max_fecha df)) (max_fecha df)) df
              (fun r _ => in_prior_year_window_between df r))
    as [F2 M2].
  repeat (split; [assumption|]).
  split; [rewrite H1; apply D|].
  split; [rewrite H2; apply D|].
  split; [rewrite H3; apply D|].
  split; [rewrite H4, F1, M1; reflexivity|].
  split; [cbv zeta; rewrite H4, F2, M2; reflexivity|].
  split; [rewrite H5; apply A|].
  split; [rewrite H6; apply A|].
  split; [rewrite H7; apply A|].
  split; [rewrite H8; apply A|].
  exact H9.
Qed.

End Enunciado.

(** C1. On a series whose maximum date is the reference date, [m1s],
    [m2s] and [m1m] are each the arithmetic mean of [AGUA_ACTUAL] over
    exactly the rows dated in the closed interval from the reference date
    minus 7, 14 and 30 days to the reference date, rounded to 2 decimal
    places: a whole number of hundredths at most half a hundredth from
    the sum of the values divided by their number. *)
Theorem C1_rolling_means (df : list fila) (ref : Timestamp) :
  Spec.latest_date df ref ->
  exists s,
    calcular_estadisticas_embalse df = Some s
    /\ Spec.rounded_mean (filter (Spec.within_days 7 ref) df) (m1s s)
    /\ Spec.rounded_mean (filter (Spec.within_days 14 ref) df) (m2s s)
    /\ Spec.rounded_mean (filter (Spec.within_days 30 ref) df) (m1m s).
Proof.
  intros L.
  destruct (estadisticas_explicitas df ref L)
    as (s & primera & Es & Hp & Ep & _ & _ & H1 & H2 & H3 & _).
  exists s. split; [exact Es|].
  rewrite H1, H2, H3.
  repeat split;
    try (apply mean_over_rounded, (filter_with _ df primera Hp),
           within_days_reference; [lia|exact Ep]).
Qed.

Lemma C1_rolling_means_witness :
  exists s,
    calcular_estadisticas_embalse Ejemplos.serie_larga = Some s
    /\ Spec.rounded_mean
         (filter (Spec.within_days 7 (fecha 2024 6 15)) Ejemplos.serie_larga)
         (m1s s)
    /\ Spec.rounded_mean
         (filter (Spec.within_days 14 (fecha 2024 6 15)) Ejemplos.serie_larga)
         (m2s s)
    /\ Spec.rounded_mean
         (filter (Spec.within_days 30 (fecha 2024 6 15)) Ejemplos.serie_larga)
         (m1m s).
Proof.
  apply (C1_rolling_means Ejemplos.serie_larga (fecha 2024 6 15)).
  split.
  - exists (Ejemplos.fila_de (fecha 2024 6 15) (1000 # 3)).
    split; [simpl; auto|reflexivity].
  - intros r H. simpl in H.
    repeat (destruct H as [<-|H]; [vm_compute; discriminate|]).
    contradiction.
Defined.

(** C3. On a series whose maximum date is the reference date, of year
    [y], month [m] and day [d], take the three dates that calendar
    arithmetic gives: the reference date minus one year and one month
    (day [d] of the month before [m] in the year before, or its last
    day), the reference date minus one year (day [d] of month [m] of year
    [y - 1], or its last day) and that date plus one month.  [ma1] is the
    arithmetic mean of [AGUA_ACTUAL], rounded to 2 decimal places, over
    exactly the rows dated strictly after the first date, on or before the
    third, in a month equal to [m]; it is [None] when there is no such
    row. *)
Theorem C3_same_month_prior_year (df : list fila) (ref : Timestamp) :
  Spec.latest_date df ref ->
  let y := Calendar.year_of ref in
  let m := Calendar.month_of ref in
  let d := Calendar.day_of ref in
  exists s inicio medio fin,
    calcular_estadisticas_embalse df = Some s
    /\ Spec.is_day inicio (if m =? 1 then y - 2 else y - 1)
                          (if m =? 1 then 12 else m - 1) d
    /\ Spec.is_day medio (y - 1) m d
    /\ Spec.is_day fin (if m =? 12 then y else y - 1)
                       (if m =? 12 then 1 else m + 1)
                       (Calendar.day_of medio)
    /\ Spec.mean_or_null (filter (Spec.between inicio fin ref) df) (ma1 s).
Proof.
  intros L. cbv zeta.
  destruct (estadisticas_explicitas df ref L)
    as (s & primera & Es & _ & _ & _ & _ & _ & _ & _ & _ & H4 & _).
  cbv zeta in H4.
  exists s, (fecha_anio_ant_inicio ref),
    (ts_sub ref {| years := 1; months := 0 |}), (fecha_anio_ant_fin ref).
  split; [exact Es|].
  split; [apply fecha_anio_ant_inicio_is_day|].
  split; [apply un_anio_antes_is_day|].
  split; [apply fecha_anio_ant_fin_is_day|].
  rewrite H4. apply mean_over_or_null.
Qed.

Lemma C3_same_month_prior_year_witness :
  exists s inicio medio fin,
    calcular_estadisticas_embalse Ejemplos.serie_larga = Some s
    /\ Spec.is_day inicio 2023 5 15
    /\ Spec.is_day medio 2023 6 15
    /\ Spec.is_day fin 2023 7 (Calendar.day_of medio)
    /\ Spec.mean_or_null
         (filter (Spec.between inicio fin (fecha 2024 6 15))
                 Ejemplos.serie_larga)
         (ma1 s).
Proof.
  apply (C3_same_month_prior_year Ejemplos.serie_larga (fecha 2024 6 15)).
  split.
  - exists (Ejemplos.fila_de (fecha 2024 6 15) (1000 # 3)).
    split; [simpl; auto|reflexivity].
  - intros r H. simpl in H.
    repeat (destruct H as [<-|H]; [vm_compute; discriminate|]).
    contradiction.
Defined.

Section UnSoloRegistroEnunciado.

(** The snapshot of a series of one row. *)
Lemma un_solo_registro (r : fila) :
  exists s,
    calcular_estadisticas_embalse [r] = Some s
    /\ m1s s = Fin (round2 (AGUA_ACTUAL r))
    /\ m2s s = Fin (round2 (AGUA_ACTUAL r))
    /\ m1m s = Fin (round2 (AGUA_ACTUAL r))
    /\ h3a s = Fin (round2 (AGUA_ACTUAL r))
    /\ h5a s = Fin (round2 (AGUA_ACTUAL r))
    /\ h10a s = Fin (round2 (AGUA_ACTUAL r))
    /\ h20a s = Fin (round2 (AGUA_ACTUAL r))
    /\ ht s = Fin (round2 (AGUA_ACTUAL r))
    /\ ma1 s = None.
Proof.
  unfold calcular_estadisticas_embalse.
  change (sort_values_desc [r]) with [r].
  eexists. split; [reflexivity|].
  cbn [m1s m2s m1m h3a h5a h10a h20a ht ma1]. unfold media_historica.
  rewrite !df_dias_single, !df_historica_single by lia.
  rewrite df_hist_mes_head, df_anio_ant_single.
  change (df_hist_mes (Calendar.month_of (FECHA r)) []) with (@nil fila).
  change (columna_agua_actual [r]) with [AGUA_ACTUAL r].
  rewrite round_mean_single.
  repeat split; reflexivity.
Qed.

End UnSoloRegistroEnunciado.

(** C4. On a series of exactly one row, the three rolling means and the
    five historical means are all the same number, the [AGUA_ACTUAL] of
    the row rounded to 2 decimal places (a whole number of hundredths at
    most half a hundredth from it), and [ma1] is [None]. *)
Theorem C4_single_record (r : fila) :
  exists s (z : Z),
    calcular_estadisticas_embalse [r] = Some s
    /\ (Qabs ((z # 100) - AGUA_ACTUAL r) <= 1 # 200)%Q
    /\ m1s s = Fin (z # 100)
    /\ m2s s = Fin (z # 100)
    /\ m1m s = Fin (z # 100)
    /\ h3a s = Fin (z # 100)
    /\ h5a s = Fin (z # 100)
    /\ h10a s = Fin (z # 100)
    /\ h20a s = Fin (z # 100)
    /\ ht s = Fin (z # 100)
    /\ ma1 s = None.
Proof.
  destruct (un_solo_registro r)
    as (s & Es & H1 & H2 & H3 & H4 & H5 & H6 & H7 & H8 & H9).
  destruct (round2_rounded (AGUA_ACTUAL r)) as (z & Ez & Hz).
  exists s, z. rewrite Ez in *.
  repeat (split; [assumption|]). exact H9.
Qed.

(** C5, as the program has it.  Every number of the snapshot is rounded
    to 2 decimal places in the same way: it is a whole number of
    hundredths at most half a hundredth away from what it rounds.  [aa]
    and [at] round the two quantities of a row of the reference date;
    each of the nine means rounds the arithmetic mean of [AGUA_ACTUAL]
    over the rows behind it, and [ma1] is [None] when no row is behind
    it.  Nothing makes a tie go up. *)
Theorem C5_round_to_nearest_hundredth (df : list fila) (s : stats)
    (ref : Timestamp) :
  calcular_estadisticas_embalse df = Some s ->
  Spec.latest_date df ref ->
  (exists r,
     In r df /\ FECHA r = ref
     /\ Spec.rounded_to_2 (AGUA_ACTUAL r) (aa s)
     /\ Spec.rounded_to_2 (AGUA_TOTAL r) (at_ s))
  /\ Forall2 Spec.mean_or_null (Spec.selections df ref) (medias s).
Proof.
  intros Es L.
  destruct (estadisticas_explicitas df ref L)
    as (s' & primera & Es' & Hp & Ep & Ha & Hb & H1 & H2 & H3 & H4 & _
        & H5 & H6 & H7 & H8 & H9).
  rewrite Es in Es'. injection Es' as <-.
  split.
  - exists primera. rewrite Ha, Hb.
    repeat split; try assumption; apply round2_rounded.
  - assert (S : forall p y,
               p primera = true -> y = mean_over p df ->
               Spec.mean_or_null (filter p df) (Some y)).
    { intros p y Hpp ->.
      pose proof (filter_with p df primera Hp Hpp) as N.
      pose proof (mean_over_or_null p df) as M.
      destruct (filter p df); [congruence|exact M]. }
    unfold Spec.selections, medias.
    repeat (apply Forall2_cons; [|]); [..|apply Forall2_nil].
    + apply S; [apply within_days_reference; [lia|exact Ep]|exact H1].
    + apply S; [apply within_days_reference; [lia|exact Ep]|exact H2].
    + apply S; [apply within_days_reference; [lia|exact Ep]|exact H3].
    + rewrite H4. apply mean_over_or_null.
    + apply S; [apply within_years_reference; [lia|exact Ep]|exact H5].
    + apply S; [apply within_years_reference; [lia|exact Ep]|exact H6].
    + apply S; [apply within_years_reference; [lia|exact Ep]|exact H7].
    + apply S; [apply within_years_reference; [lia|exact Ep]|exact H8].
    + apply S; [apply same_month_reference; exact Ep|exact H9].
Qed.

Lemma C5_round_to_nearest_hundredth_witness :
  (exists r,
     In r Ejemplos.serie_12_345 /\ FECHA r = fecha 2024 6 15
     /\ Spec.rounded_to_2 (AGUA_ACTUAL r) (aa Ejemplos.stats_12_345)
     /\ Spec.rounded_to_2 (AGUA_TOTAL r) (at_ Ejemplos.stats_12_345))
  /\ Forall2 Spec.mean_or_null
       (Spec.selections Ejemplos.serie_12_345 (fecha 2024 6 15))
       (medias Ejemplos.stats_12_345).
Proof.
  apply (C5_round_to_nearest_hundredth Ejemplos.serie_12_345
           Ejemplos.stats_12_345 (fecha 2024 6 15)).
  - vm_compute. reflexivity.
  - split.
    + exists (Ejemplos.fila_de (fecha 2024 6 15) (1234 # 100)).
      split; [simpl; auto|reflexivity].
    + intros r H. simpl in H.
      repeat (destruct H as [<-|H]; [vm_compute; discriminate|]).
      contradiction.
Defined.

(** C6.  The code does not do what the claim says, nor what its own
    comment on [where] says.  In a table of two reservoirs, Mequinenza has
    no row in the month of its latest date of the year before: no row is
    behind its [ma1], and its snapshot has [None] there.  Buendia has such
    a row and a number for [ma1].  The column [ma1] of the frame is then a
    column of [float64], [where] leaves its [nan] in place, and the record
    of Mequinenza holds [nan], which is written as the token NaN, not as
    null.  Alone in the table, the same rows give [None], written null. *)
Theorem C6_ma1_is_nan_beside_a_number :
  let tabla := Proceso.con_y_sin_anio_anterior in
  let filas := filas_de ("Ebro"%string, "Mequinenza"%string) tabla in
  exists s mequinenza buendia solo,
    Spec.latest_date filas (fecha 2024 6 15)
    /\ filter (Spec.year_before (fecha 2024 6 15)) filas = []
    /\ calcular_estadisticas_embalse filas = Some s
    /\ ma1 s = None
    /\ Proceso.datos tabla = [mequinenza; buendia]
    /\ Proceso.campo mequinenza "en" = Some (PyStr "Mequinenza")
    /\ Proceso.campo mequinenza "ma1" = Some (PyFloat NaN)
    /\ Json.dumps_compact (PyFloat NaN) = "NaN"%string
    /\ Proceso.campo buendia "ma1" = Some (PyFloat (Fin (25050 # 100)))
    /\ Proceso.datos filas = [solo]
    /\ Proceso.campo solo "ma1" = Some PyNone
    /\ Json.dumps_compact PyNone = "null"%string.
Proof.
  cbv zeta. do 4 eexists.
  split.
  { split.
    - eexists. split; [left; reflexivity|reflexivity].
    - intros r H. vm_compute in H. destruct H as [<-|[]].
      vm_compute. discriminate. }
  split; [vm_compute; reflexivity|].
  split; [vm_compute; reflexivity|].
  split; [reflexivity|].
  split; [vm_compute; reflexivity|].
  split; [vm_compute; reflexivity|].
  split; [vm_compute; reflexivity|].
  split; [vm_compute; reflexivity|].
  split; [vm_compute; reflexivity|].
  split; [vm_compute; reflexivity|].
  split; vm_compute; reflexivity.
Qed.

(** C10. On a series with a row, the rolling means and the month-anchored
    historical means are numbers in the record, never [null]: the reference
    row is in each of their windows.  [ma1] can be [null], as on a series of
    one row.  The same holds of every record of the output, whatever the
    other reservoirs of the table. *)
Theorem C10_only_ma1_can_be_null (df : list fila) (k : Proceso.clave) :
  df <> [] ->
  (exists s,
     calcular_estadisticas_embalse df = Some s
     /\ Forall (Proceso.numero_en (Proceso.registro k s))
               Proceso.claves_medias)
  /\ (exists s1,
        calcular_estadisticas_embalse [Ejemplos.fila_2024] = Some s1
        /\ Proceso.nulo_en (Proceso.registro k s1) "ma1")
  /\ (forall tabla record,
        In record (Proceso.datos tabla) ->
        Forall (Proceso.numero_en record) Proceso.claves_medias)
  /\ (exists record,
        Proceso.datos [Ejemplos.fila_2024] = [record]
        /\ Proceso.nulo_en record "ma1").
Proof.
  intros Hne. split; [|split; [|split]].
  - apply ProcesoFacts.medias_son_numeros, Hne.
  - eexists. split; [vm_compute; reflexivity|].
    unfold Proceso.nulo_en. vm_compute. reflexivity.
  - apply ProcesoFacts.datos_medias_son_numeros.
  - eexists. split; [vm_compute; reflexivity|].
    vm_compute. reflexivity.
Qed.

Lemma C10_only_ma1_can_be_null_witness :
  (exists s,
     calcular_estadisticas_embalse Ejemplos.serie_larga = Some s
     /\ Forall (Proceso.numero_en
                  (Proceso.registro ("Tajo"%string, "Buendia"%string) s))
               Proceso.claves_medias)
  /\ (exists s1,
        calcular_estadisticas_embalse [Ejemplos.fila_2024] = Some s1
        /\ Proceso.nulo_en
             (Proceso.registro ("Tajo"%string, "Buendia"%string) s1) "ma1")
  /\ (forall tabla record,
        In record (Proceso.datos tabla) ->
        Forall (Proceso.numero_en record) Proceso.claves_medias)
  /\ (exists record,
        Proceso.datos [Ejemplos.fila_2024] = [record]
        /\ Proceso.nulo_en record "ma1").
Proof.
  apply (C10_only_ma1_can_be_null Ejemplos.serie_larga). discriminate.
Defined.


(* ================================================================== *)
(** * Part III. Further properties of the program                      *)
(* ================================================================== *)




Section OrdenDeLasFilas.

(** [sort_values_desc] puts the rows by descending date. *)
Lemma insert_desc_sorted (r : fila) (l : list fila) :
  StronglySorted (fun a b => FECHA b <= FECHA a) l ->
  StronglySorted (fun a b => FECHA b <= FECHA a) (insert_desc r l).
Proof.
  induction l as [|x t IH]; intros S; cbn [insert_desc].
  - repeat constructor.
  - inversion S as [|x0 t0 St Fx]; subst.
    destruct (Z.leb_spec (FECHA x) (FECHA r)) as [L|G].
    + constructor; [exact S|]. constructor; [exact L|].
      rewrite Forall_forall in *. intros y Hy. pose proof (Fx y Hy). lia.
    + constructor; [apply IH, St|].
      rewrite Forall_forall in *. intros y Hy.
      apply (Permutation_in _ (insert_desc_perm r t)) in Hy.
      destruct Hy as [<-|Hy]; [lia|apply Fx, Hy].
Qed.

Lemma sort_values_desc_sorted (df : list fila) :
  StronglySorted (fun a b => FECHA b <= FECHA a) (sort_values_desc df).
Proof.
  induction df as [|r df IH]; [constructor|].
  apply insert_desc_sorted, IH.
Qed.

Lemma NoDup_map_In {A B : Type} (g : A -> B) (l : list A) (a b : A) :
  NoDup (map g l) -> In a l -> In b l -> g a = g b -> a = b.
Proof.
  induction l as [|x l IH]; intros N Ha Hb E; [contradiction|].
  cbn [map] in N. inversion N as [|y l0 Nx Nl]; subst.
  destruct Ha as [<-|Ha], Hb as [<-|Hb].
  - reflexivity.
  - exfalso. apply Nx. rewrite E. apply in_map, Hb.
  - exfalso. apply Nx. rewrite <- E. apply in_map, Ha.
  - apply IH; assumption.
Qed.

(** There is one way only to put rows of distinct dates by descending
    date. *)
Lemma sorted_perm_unique (l : list fila) :
  forall l',
    StronglySorted (fun a b => FECHA b <= FECHA a) l ->
    StronglySorted (fun a b => FECHA b <= FECHA a) l' ->
    NoDup (map FECHA l) -> Permutation l l' -> l = l'.
Proof.
  induction l as [|a t IH]; intros l' S S' N P.
  - apply Permutation_nil in P. subst. reflexivity.
  - destruct l' as [|a' t'];
      [apply Permutation_sym, Permutation_nil in P; discriminate|].
    inversion S as [|x0 t0 St Fa]; subst.
    inversion S' as [|x0' t0' St' Fa']; subst.
    rewrite Forall_forall in Fa, Fa'.
    assert (Ha : In a (a' :: t'))
      by (apply (Permutation_in _ P); left; reflexivity).
    assert (Ha' : In a' (a :: t))
      by (apply (Permutation_in _ (Permutation_sym P)); left; reflexivity).
    assert (E : a = a').
    { apply (NoDup_map_In FECHA (a :: t)); [exact N|left; reflexivity|
                                            exact Ha'|].
      assert (L1 : FECHA a <= FECHA a')
        by (destruct Ha as [<-|Ha]; [lia|apply Fa', Ha]).
      assert (L2 : FECHA a' <= FECHA a)
        by (destruct Ha' as [<-|Ha']; [lia|apply Fa, Ha']).
      lia. }
    subst a'. f_equal.
    apply IH; [exact St|exact St'| |apply (Permutation_cons_inv P)].
    cbn [map] in N. inversion N; assumption.
Qed.

Lemma sort_values_desc_unique (df df' : list fila) :
  Permutation df df' -> NoDup (map FECHA df) ->
  sort_values_desc df = sort_values_desc df'.
Proof.
  intros P N.
  apply sorted_perm_unique; try apply sort_values_desc_sorted.
  - apply (Permutation_NoDup
             (Permutation_map FECHA
                (Permutation_sym (sort_values_desc_perm df)))), N.
  - rewrite (sort_values_desc_perm df), P.
    symmetry. apply sort_values_desc_perm.
Qed.

End OrdenDeLasFilas.

(** X3. The order of the rows does not matter when no two rows of the
    series have the same date: two frames with the same rows give the
    same snapshot, field by field. *)
Theorem X3_order_independent (df df' : list fila) :
  Permutation df df' -> NoDup (map FECHA df) ->
  calcular_estadisticas_embalse df = calcular_estadisticas_embalse df'.
Proof.
  intros P N. unfold calcular_estadisticas_embalse.
  rewrite (sort_values_desc_unique df df' P N). reflexivity.
Qed.

Lemma X3_order_independent_witness :
  calcular_estadisticas_embalse Ejemplos.serie_larga
  = calcular_estadisticas_embalse (rev Ejemplos.serie_larga).
Proof.
  apply (X3_order_independent Ejemplos.serie_larga
           (rev Ejemplos.serie_larga)).
  - apply Permutation_rev.
  - vm_compute.
    repeat (constructor;
            [simpl; intros H;
             repeat (destruct H as [H|H]; [discriminate H|]);
             contradiction|]).
    constructor.
Defined.

(** ** How the selections relate *)

Section Ventanas.
Import Calendar CalendarFacts.

(** Going back more years lands earlier. *)
Lemma ts_sub_years_mono (t : Timestamp) (k1 k2 : Z) :
  k1 <= k2 ->
  ts_sub t {| years := k2; months := 0 |}
  <= ts_sub t {| years := k1; months := 0 |}.
Proof.
  intros H. destruct (Z.eq_dec k1 k2) as [->|N]; [lia|].
  rewrite !ts_sub_years_eq. apply Z.lt_le_incl.
  destruct (ord2ymd_spec t) as [[Hm Hd] _].
  pose proof (ts_sub_years_valid t k1) as [_ V1].
  apply ymd2ord_lt_year; [lia|apply ts_sub_years_valid|lia|lia].
Qed.

Lemma in_prior_year_window_eq (df : list fila) (r : fila) :
  in_prior_year_window df r = en_mes_anio_anterior df r.
Proof.
  apply eq_true_iff_eq. rewrite in_prior_year_window_iff.
  unfold en_mes_anio_anterior, en_mes, reference_date.
  rewrite andb_true_iff, !Z.eqb_eq. reflexivity.
Qed.

(** A row of the month of the reference date in the year before it is
    not before the reference date minus three years. *)
Lemma anio_anterior_en_tres_anios (df : list fila) (r : fila) :
  en_mes_anio_anterior df r = true -> en_anios 3 df r = true.
Proof.
  unfold en_mes_anio_anterior, en_anios.
  rewrite !andb_true_iff, Z.eqb_eq, Z.leb_le.
  intros [Hm Hy]. split; [exact Hm|].
  unfold en_mes in Hm. apply Z.eqb_eq in Hm.
  rewrite ts_sub_years_eq.
  destruct (ord2ymd_spec (FECHA r)) as [V E].
  rewrite <- E at 1. apply Z.lt_le_incl.
  destruct V as [VM VD].
  apply ymd2ord_lt_year; [lia|apply ts_sub_years_valid|exact VM|lia].
Qed.

End Ventanas.

(** X4. The selections nest.  On any frame, a row averaged into [m1s] is
    averaged into [m2s], and one of [m2s] into [m1m]; a row averaged into
    [ma1] is averaged into [h3a], one of [h3a] into [h5a], and so on
    through [h10a] and [h20a] to [ht]. *)
Theorem X4_windows_nest (df l : list fila) :
  let ref := reference_date df in
  let mes := Calendar.month_of ref in
  incl (df_dias 7 ref l) (df_dias 14 ref l)
  /\ incl (df_dias 14 ref l) (df_dias 30 ref l)
  /\ incl (df_anio_ant ref mes l) (df_historica 3 ref mes l)
  /\ incl (df_historica 3 ref mes l) (df_historica 5 ref mes l)
  /\ incl (df_historica 5 ref mes l) (df_historica 10 ref mes l)
  /\ incl (df_historica 10 ref mes l) (df_historica 20 ref mes l)
  /\ incl (df_historica 20 ref mes l) (df_hist_mes mes l).
Proof.
  cbv zeta.
  assert (D : forall n1 n2, n1 <= n2 ->
              incl (df_dias n1 (reference_date df) l)
                   (df_dias n2 (reference_date df) l)).
  { intros n1 n2 H r. unfold df_dias, Timedelta.
    rewrite !filter_In, !Z.leb_le. intros [Hr L]. split; [exact Hr|lia]. }
  assert (A : forall k1 k2, k1 <= k2 ->
              incl (df_historica k1 (reference_date df)
                      (Calendar.month_of (reference_date df)) l)
                   (df_historica k2 (reference_date df)
                      (Calendar.month_of (reference_date df)) l)).
  { intros k1 k2 H r. unfold df_historica.
    rewrite !filter_In, !Z.leb_le. intros [Hr L]. split; [exact Hr|].
    pose proof (ts_sub_years_mono (reference_date df) k1 k2 H). lia. }
  split; [apply D; lia|]. split; [apply D; lia|].
  split.
  - intros r. rewrite df_anio_ant_spec. unfold df_historica, df_hist_mes.
    rewrite filter_filter_andb, !filter_In.
    intros [Hr W]. split; [exact Hr|].
    rewrite in_prior_year_window_eq in W.
    apply anio_anterior_en_tres_anios in W. exact W.
  - split; [apply A; lia|]. split; [apply A; lia|]. split; [apply A; lia|].
    intros r. unfold df_historica. rewrite filter_In. tauto.
Qed.



(** X6. The date that bounds [media_historica(anios)] is the reference
    date with the year lowered by [anios]: the same month, and the same
    day of the month unless that month is shorter in the target year, when
    it is the last day of the month (29 February becomes 28 February). *)
Theorem X6_fecha_limite_fields (fecha_referencia : Timestamp) (anios : Z) :
  let fecha_limite :=
    ts_sub fecha_referencia {| years := anios; months := 0 |} in
  Calendar.year_of fecha_limite = Calendar.year_of fecha_referencia - anios
  /\ Calendar.month_of fecha_limite = Calendar.month_of fecha_referencia
  /\ Calendar.day_of fecha_limite
     = Z.min (Calendar.days_in_month
                (Calendar.year_of fecha_referencia - anios)
                (Calendar.month_of fecha_referencia))
             (Calendar.day_of fecha_referencia)
  /\ (Calendar.month_of fecha_referencia = 2 ->
      Calendar.day_of fecha_referencia = 29 ->
      Calendar.is_leap (Calendar.year_of fecha_referencia - anios) = false ->
      Calendar.day_of fecha_limite = 28).
Proof.
  cbv zeta. rewrite ts_sub_years_eq.
  destruct (campos_de_fecha _ _ _ (ts_sub_years_valid fecha_referencia anios))
    as (Ey & Em & Ed).
  rewrite Ey, Em, Ed.
  split; [reflexivity|]. split; [reflexivity|]. split; [reflexivity|].
  intros Hm Hd Hl. rewrite Hm, Hd. unfold Calendar.days_in_month.
  rewrite Hl. reflexivity.
Qed.

(** ** Means stay within the readings *)

Section Cotas.

Lemma rint_mono (p q : Q) : (p <= q)%Q -> rint p <= rint q.
Proof.
  intros H.
  destruct (Z_le_gt_dec (rint p) (rint q)) as [L|G]; [exact L|exfalso].
  destruct (rint_nearest_even p) as [Hp _].
  destruct (rint_nearest_even q) as [Hq _].
  apply Qabs_Qle_condition in Hp. apply Qabs_Qle_condition in Hq.
  assert (I : (inject_Z (rint q) + 1 <= inject_Z (rint p))%Q).
  { assert (I0 : rint q + 1 <= rint p) by lia.
    rewrite Zle_Qle, inject_Z_plus in I0. exact I0. }
  assert (E : (p == q)%Q) by lra.
  apply rint_comp in E. lia.
Qed.

Lemma round2_mono (p q : Q) : (p <= q)%Q -> (round2 p <= round2 q)%Q.
Proof.
  intros H. unfold round2, Qle. cbn [Qnum Qden].
  assert (rint (p * 100) <= rint (q * 100)) by (apply rint_mono; lra).
  lia.
Qed.

Lemma Qsum_bounds (lo hi : Q) (xs : list Q) :
  (forall x, In x xs -> (lo <= x <= hi)%Q) ->
  (inject_Z (Z.of_nat (List.length xs)) * lo <= Qsum xs
   <= inject_Z (Z.of_nat (List.length xs)) * hi)%Q.
Proof.
  induction xs as [|x xs IH]; intros H.
  - cbn [List.length Qsum fold_right Z.of_nat].
    change (inject_Z 0) with 0%Q. split; lra.
  - assert (Hx : (lo <= x <= hi)%Q) by (apply H; left; reflexivity).
    assert (IH' := IH (fun y Hy => H y (or_intror Hy))).
    cbn [List.length Qsum fold_right]. fold (Qsum xs).
    rewrite Nat2Z.inj_succ. unfold Z.succ. rewrite inject_Z_plus.
    change (inject_Z 1) with 1%Q.
    set (n := inject_Z (Z.of_nat (List.length xs))) in *.
    split; lra.
Qed.

Lemma Qmean_bounds (lo hi : Q) (xs : list Q) :
  xs <> [] ->
  (forall x, In x xs -> (lo <= x <= hi)%Q) ->
  (lo <= Qsum xs / inject_Z (Z.of_nat (List.length xs)) <= hi)%Q.
Proof.
  intros Hne H.
  pose proof (Qsum_bounds lo hi xs H) as [B1 B2].
  assert (Hn : (0 < inject_Z (Z.of_nat (List.length xs)))%Q).
  { change 0%Q with (inject_Z 0). rewrite <- Zlt_Qlt.
    destruct xs; [congruence|]. cbn [List.length]. lia. }
  set (n := inject_Z (Z.of_nat (List.length xs))) in *.
  split.
  - apply Qle_shift_div_l; [exact Hn|]. lra.
  - apply Qle_shift_div_r; [exact Hn|]. lra.
Qed.

(** The mean of readings that lie between two bounds lies between them,
    and so does it after rounding, between the rounded bounds. *)
Lemma mean_bounds (lo hi : Q) (xs : list Q) (q : Q) :
  (forall x, In x xs -> (lo <= x <= hi)%Q) ->
  py_round2 (mean xs) = Fin q ->
  (round2 lo <= q <= round2 hi)%Q.
Proof.
  intros H E. destruct xs as [|x t]; [discriminate|].
  change (py_round2 (mean (x :: t)))
    with (Fin (round2 (Qsum (x :: t)
                       / inject_Z (Z.of_nat (List.length (x :: t)))))) in E.
  injection E as <-.
  destruct (Qmean_bounds lo hi (x :: t) ltac:(discriminate) H) as [B1 B2].
  split; apply round2_mono; assumption.
Qed.

Lemma mean_over_bounds (lo hi : Q) (p : fila -> bool) (df : list fila)
    (q : Q) :
  (forall r, In r df -> (lo <= AGUA_ACTUAL r <= hi)%Q) ->
  mean_over p df = Fin q ->
  (round2 lo <= q <= round2 hi)%Q.
Proof.
  intros H E. unfold mean_over in E.
  apply (mean_bounds lo hi (columna_agua_actual (filter p df)) q);
    [|exact E].
  intros x Hx. unfold columna_agua_actual in Hx.
  apply in_map_iff in Hx as [r [<- Hr]].
  apply filter_In in Hr as [Hr _]. apply H, Hr.
Qed.

End Cotas.

(** The readings of a frame have a bound above. *)
Lemma cota_superior (df : list fila) :
  exists hi : Q, forall r, In r df -> (AGUA_ACTUAL r <= hi)%Q.
Proof.
  induction df as [|x df [hi IH]]; [exists 0%Q; intros r []|].
  destruct (Qlt_le_dec hi (AGUA_ACTUAL x)) as [L|L].
  - exists (AGUA_ACTUAL x). intros r [<-|Hr]; [apply Qle_refl|].
    pose proof (IH r Hr). lra.
  - exists hi. intros r [<-|Hr]; [exact L|apply IH, Hr].
Qed.

(** X7. When no reading of a series with a row is negative, no number
    of its snapshot that comes from the readings is: [aa] and the eight
    means that are not [ma1] are numbers and are zero or more, and so is
    [ma1] when it is not [None]. *)
Theorem X7_means_not_negative (df : list fila) :
  df <> [] ->
  (forall r, In r df -> (0 <= AGUA_ACTUAL r)%Q) ->
  exists s,
    calcular_estadisticas_embalse df = Some s
    /\ Forall (fun v : option float64 =>
                 match v with
                 | None => True
                 | Some y => exists q, y = Fin q /\ (0 <= q)%Q
                 end)
              (Some (aa s) :: medias s).
Proof.
  intros Hne H0.
  destruct (cota_superior df) as [hi Hhi].
  assert (H : forall r, In r df -> (0 <= AGUA_ACTUAL r <= hi)%Q)
    by (intros r Hr; split; [apply H0, Hr|apply Hhi, Hr]).
  destruct (estadisticas_directas df Hne)
    as (s & r & Es & Hr & Er & Ha & Hb & Hf & H1 & H2 & H3 & H4 & H5 & H6
        & H7 & H8 & H9).
  destruct (ProcesoFacts.medias_son_numeros df (EmptyString, EmptyString) Hne)
    as [s' [Es' F]].
  rewrite Es in Es'. injection Es' as <-.
  exists s. split; [exact Es|].
  assert (Z0 : forall q, (round2 0 <= q <= round2 hi)%Q -> (0 <= q)%Q).
  { intros q [L _]. change (round2 0) with (0 # 100) in L.
    assert (E0 : (0 # 100 == 0)%Q) by reflexivity. lra. }
  assert (M : forall p key,
             In key Proceso.claves_medias ->
             Lectura.media_de s key = mean_over p df ->
             exists q, Lectura.media_de s key = Fin q /\ (0 <= q)%Q).
  { intros p key Hk E. rewrite Forall_forall in F.
    destruct (F key Hk) as [q Eq].
    rewrite (ProcesoFacts.campo_media _ s key Hk) in Eq. injection Eq as Eq.
    exists q. split; [exact Eq|]. apply Z0.
    rewrite E in Eq. exact (mean_over_bounds _ _ _ _ _ H Eq). }
  unfold medias.
  repeat (apply Forall_cons; [|]); [..|apply Forall_nil].
  - rewrite Ha. eexists. split; [reflexivity|]. apply Z0.
    destruct (H r Hr). split; apply round2_mono; assumption.
  - apply (M (en_dias 7 df) "m1s"%string); [simpl; auto 10|exact H1].
  - apply (M (en_dias 14 df) "m2s"%string); [simpl; auto 10|exact H2].
  - apply (M (en_dias 30 df) "m1m"%string); [simpl; auto 10|exact H3].
  - rewrite H4.
    destruct (filter (in_prior_year_window df) df) as [|a t] eqn:Ef;
      [exact I|].
    unfold mean_over. rewrite Ef.
    eexists. split; [reflexivity|]. apply Z0.
    apply (mean_over_bounds 0 hi (in_prior_year_window df) df); [exact H|].
    unfold mean_over. rewrite Ef. reflexivity.
  - apply (M (en_anios 3 df) "h3a"%string); [simpl; auto 10|exact H5].
  - apply (M (en_anios 5 df) "h5a"%string); [simpl; auto 10|exact H6].
  - apply (M (en_anios 10 df) "h10a"%string); [simpl; auto 10|exact H7].
  - apply (M (en_anios 20 df) "h20a"%string); [simpl; auto 10|exact H8].
  - apply (M (en_mes df) "ht"%string); [simpl; auto 10|exact H9].
Qed.

Lemma X7_means_not_negative_witness :
  exists s,
    calcular_estadisticas_embalse Ejemplos.serie_tres_anios = Some s
    /\ Forall (fun v : option float64 =>
                 match v with
                 | None => True
                 | Some y => exists q, y = Fin q /\ (0 <= q)%Q
                 end)
              (Some (aa s) :: medias s).
Proof.
  apply (X7_means_not_negative Ejemplos.serie_tres_anios).
  - discriminate.
  - intros r [<-|[<-|[]]]; vm_compute; discriminate.
Defined.

(** ** Grouping by region and reservoir *)

Module AgruparFacts.
Import Proceso.

Lemma string_compare_refl (s : string) : String.compare s s = Eq.
Proof.
  induction s as [|c s IH]; simpl; [reflexivity|].
  unfold Ascii.compare. rewrite N.compare_refl. exact IH.
Qed.

Lemma string_compare_lt_trans (a : string) :
  forall b c,
    String.compare a b = Lt -> String.compare b c = Lt ->
    String.compare a c = Lt.
Proof.
  induction a as [|x a IH]; intros [|y b] [|z c]; simpl;
    try discriminate; try reflexivity.
  unfold Ascii.compare.
  destruct (N.compare_spec (N_of_ascii x) (N_of_ascii y)) as [E1|L1|G1];
    try discriminate;
    destruct (N.compare_spec (N_of_ascii y) (N_of_ascii z)) as [E2|L2|G2];
    try discriminate; intros H1 H2.
  - rewrite E1, E2, N.compare_refl. apply (IH b c); assumption.
  - rewrite E1. apply N.compare_lt_iff in L2. rewrite L2. reflexivity.
  - rewrite <- E2. apply N.compare_lt_iff in L1. rewrite L1. reflexivity.
  - assert (L : (N_of_ascii x < N_of_ascii z)%N) by lia.
    apply N.compare_lt_iff in L. rewrite L. reflexivity.
Qed.

Lemma clave_eqb_eq (a b : clave) : clave_eqb a b = true <-> a = b.
Proof.
  unfold clave_eqb. rewrite andb_true_iff, !String.eqb_eq.
  destruct a, b; simpl. split; [intros [-> ->]; reflexivity|].
  intros E. injection E as -> ->. auto.
Qed.

Lemma clave_eqb_refl (a : clave) : clave_eqb a a = true.
Proof. apply clave_eqb_eq. reflexivity. Qed.

Lemma compare_clave_refl (a : clave) : compare_clave a a = Eq.
Proof. unfold compare_clave. rewrite !string_compare_refl. reflexivity. Qed.

Lemma compare_clave_eq (a b : clave) : compare_clave a b = Eq -> a = b.
Proof.
  unfold compare_clave. destruct a as [a1 a2], b as [b1 b2]; simpl.
  destruct (String.compare a1 b1) eqn:E1; try discriminate.
  intros E2. apply String.compare_eq_iff in E1, E2. subst. reflexivity.
Qed.

Lemma compare_clave_antisym (a b : clave) :
  compare_clave a b = CompOpp (compare_clave b a).
Proof.
  unfold compare_clave.
  rewrite (String.compare_antisym (fst a) (fst b)).
  rewrite (String.compare_antisym (snd a) (snd b)).
  destruct (String.compare (fst b) (fst a)); reflexivity.
Qed.

Lemma clave_lt_irrefl (a : clave) : ~ clave_lt a a.
Proof. unfold clave_lt. rewrite compare_clave_refl. discriminate. Qed.

Lemma clave_lt_trans (a b c : clave) :
  clave_lt a b -> clave_lt b c -> clave_lt a c.
Proof.
  unfold clave_lt, compare_clave.
  destruct a as [a1 a2], b as [b1 b2], c as [c1 c2]; simpl.
  destruct (String.compare a1 b1) eqn:E1; try discriminate;
    destruct (String.compare b1 c1) eqn:E2; try discriminate; intros H1 H2.
  - apply String.compare_eq_iff in E1, E2. subst.
    rewrite string_compare_refl.
    apply (string_compare_lt_trans a2 b2 c2); assumption.
  - apply String.compare_eq_iff in E1. subst. rewrite E2. reflexivity.
  - apply String.compare_eq_iff in E2. subst. rewrite E1. reflexivity.
  - rewrite (string_compare_lt_trans a1 b1 c1 E1 E2). reflexivity.
Qed.

Lemma clave_lt_neq (a b : clave) : clave_lt a b -> clave_eqb a b = false.
Proof.
  intros H. destruct (clave_eqb a b) eqn:E; [|reflexivity].
  apply clave_eqb_eq in E. subst. exfalso. exact (clave_lt_irrefl b H).
Qed.

(** A key that sorts before all the keys of a list of groups has no group
    in it. *)
Lemma grupo_de_before (k : clave) (gs : list (clave * list fila)) :
  Forall (clave_lt k) (map fst gs) -> grupo_de k gs = [].
Proof.
  unfold grupo_de. induction gs as [|[k' rows] gs IH]; simpl;
    [reflexivity|].
  intros H. inversion H as [|? ? Hk Hrest]; subst.
  assert (E : clave_eqb k' k = false).
  { destruct (clave_eqb k' k) eqn:E; [|reflexivity].
    apply clave_eqb_eq in E. subst. exfalso. exact (clave_lt_irrefl k Hk). }
  rewrite E. apply IH, Hrest.
Qed.

Lemma insert_group_keys (r : fila) (gs : list (clave * list fila)) (k : clave) :
  In k (map fst (insert_group r gs)) <->
  k = clave_de r \/ In k (map fst gs).
Proof.
  induction gs as [|[k' rows] gs IH]; simpl.
  - intuition.
  - destruct (compare_clave (clave_de r) k') eqn:C; simpl.
    + apply compare_clave_eq in C. rewrite C. intuition.
    + intuition.
    + rewrite IH. intuition.
Qed.

Lemma insert_group_sorted (r : fila) (gs : list (clave * list fila)) :
  StronglySorted clave_lt (map fst gs) ->
  StronglySorted clave_lt (map fst (insert_group r gs)).
Proof.
  induction gs as [|[k' rows] gs IH]; simpl; intros S.
  - constructor; constructor.
  - inversion S as [|? ? Srest Hall]; subst.
    destruct (compare_clave (clave_de r) k') eqn:C; simpl.
    + constructor; assumption.
    + constructor; [exact S|]. constructor; [exact C|].
      eapply Forall_impl; [|exact Hall].
      intros a Ha. eapply clave_lt_trans; eassumption.
    + constructor; [apply IH, Srest|].
      apply Forall_forall. intros a Ha.
      apply insert_group_keys in Ha as [->|Ha].
      * unfold clave_lt. rewrite compare_clave_antisym, C. reflexivity.
      * rewrite Forall_forall in Hall. apply Hall, Ha.
Qed.

(** Inserting a row adds it in front of the rows of its key and leaves
    the rows of every other key as they are. *)
Lemma grupo_de_insert (r : fila) (gs : list (clave * list fila)) (k : clave) :
  StronglySorted clave_lt (map fst gs) ->
  grupo_de k (insert_group r gs)
  = if clave_eqb (clave_de r) k then r :: grupo_de k gs else grupo_de k gs.
Proof.
  induction gs as [|[k' rows] gs IH]; intros S.
  - unfold grupo_de. simpl. destruct (clave_eqb (clave_de r) k); reflexivity.
  - inversion S as [|? ? Srest Hall]; subst. simpl insert_group.
    destruct (compare_clave (clave_de r) k') eqn:C.
    + apply compare_clave_eq in C. rewrite C. unfold grupo_de. simpl.
      destruct (clave_eqb k' k); reflexivity.
    + destruct (clave_eqb (clave_de r) k) eqn:E.
      * unfold grupo_de at 1. simpl. rewrite E. simpl.
        apply clave_eqb_eq in E. subst k.
        rewrite grupo_de_before; [reflexivity|].
        simpl. constructor; [exact C|].
        eapply Forall_impl; [|exact Hall].
        intros a Ha. eapply clave_lt_trans; eassumption.
      * unfold grupo_de at 1. simpl. rewrite E. reflexivity.
    + assert (N : clave_eqb (clave_de r) k' = false).
      { destruct (clave_eqb (clave_de r) k') eqn:E; [|reflexivity].
        apply clave_eqb_eq in E. rewrite E, compare_clave_refl in C.
        discriminate. }
      unfold grupo_de at 1. simpl.
      destruct (clave_eqb k' k) eqn:E'.
      * simpl. apply clave_eqb_eq in E'. subst k'. rewrite N.
        unfold grupo_de. simpl. rewrite clave_eqb_refl. reflexivity.
      * fold (grupo_de k (insert_group r gs)). rewrite (IH Srest).
        unfold grupo_de at 3 4. simpl. rewrite E'. reflexivity.
Qed.

Lemma groupby_sorted (df : list fila) :
  StronglySorted clave_lt (map fst (groupby df)).
Proof.
  induction df as [|r df IH]; simpl; [constructor|].
  apply insert_group_sorted, IH.
Qed.

Lemma groupby_keys (df : list fila) (k : clave) :
  In k (map fst (groupby df)) <-> exists r, In r df /\ clave_de r = k.
Proof.
  induction df as [|r df IH]; simpl.
  - split; [contradiction|]. intros [r [[] _]].
  - rewrite insert_group_keys, IH. split.
    + intros [->|[x [Hx Ex]]]; [exists r; auto|exists x; auto].
    + intros [x [[<-|Hx] Ex]]; [left; auto|right; exists x; auto].
Qed.

Lemma groupby_grupo_de (df : list fila) (k : clave) :
  grupo_de k (groupby df) = filas_de k df.
Proof.
  induction df as [|r df IH]; simpl; [reflexivity|].
  rewrite grupo_de_insert by apply groupby_sorted.
  rewrite IH. unfold filas_de. simpl.
  destruct (clave_eqb (clave_de r) k); reflexivity.
Qed.

Lemma grupo_de_In (gs : list (clave * list fila)) (k : clave)
    (rows : list fila) :
  StronglySorted clave_lt (map fst gs) ->
  In (k, rows) gs -> grupo_de k gs = rows.
Proof.
  induction gs as [|[k' rows'] gs IH]; simpl; intros S H; [contradiction|].
  inversion S as [|? ? Srest Hall]; subst.
  destruct H as [E|H].
  - injection E as -> ->. unfold grupo_de. simpl.
    rewrite clave_eqb_refl. reflexivity.
  - unfold grupo_de. simpl.
    assert (L : clave_lt k' k).
    { rewrite Forall_forall in Hall. apply Hall.
      apply in_map_iff. exists (k, rows). auto. }
    rewrite (clave_lt_neq _ _ L). apply (IH Srest H).
Qed.

(** Each group holds the rows of its key, in the order of the frame, and
    is not empty. *)
Lemma groupby_In (df : list fila) (k : clave) (rows : list fila) :
  In (k, rows) (groupby df) -> rows = filas_de k df /\ rows <> [].
Proof.
  intros H.
  pose proof (grupo_de_In _ _ _ (groupby_sorted df) H) as E.
  rewrite groupby_grupo_de in E. split; [auto|].
  assert (K : In k (map fst (groupby df)))
    by (apply in_map_iff; exists (k, rows); auto).
  apply groupby_keys in K as [r [Hr Er]].
  rewrite <- E. unfold filas_de. intros Z.
  assert (I : In r (filter (fun r0 => clave_eqb (clave_de r0) k) df)).
  { apply filter_In. split; [exact Hr|]. apply clave_eqb_eq, Er. }
  rewrite Z in I. exact I.
Qed.

Lemma StronglySorted_NoDup (l : list clave) :
  StronglySorted clave_lt l -> NoDup l.
Proof.
  induction 1 as [|a l S IH Hall]; constructor; [|exact IH].
  intros Ha. rewrite Forall_forall in Hall.
  exact (clave_lt_irrefl a (Hall a Ha)).
Qed.

End AgruparFacts.

Section RegistrosPorClave.
Import Proceso AgruparFacts.

Local Open Scope string_scope.

(** The records of the frame, group by group. *)
Lemma datos_por_grupo (df : list fila) (gs : list (clave * list fila)) :
  (forall g, In g gs -> snd g = filas_de (fst g) df /\ snd g <> []) ->
  Forall2
    (fun k record =>
       exists s,
         calcular_estadisticas_embalse (filas_de k df) = Some s
         /\ record = registro k s)
    (map fst gs)
    (flat_map (fun g =>
                 match calcular_estadisticas_embalse (snd g) with
                 | Some s => [registro (fst g) s]
                 | None => []
                 end) gs).
Proof.
  induction gs as [|g gs IH]; intros H; simpl; [constructor|].
  destruct (H g (or_introl eq_refl)) as [E N].
  destruct (estadisticas_directas (snd g) N) as [s [p [Es _]]].
  rewrite Es. simpl. constructor.
  - exists s. rewrite <- E. auto.
  - apply IH. intros g' Hg'. apply H. right. exact Hg'.
Qed.

Lemma campo_an_en (rows : list pyobj) (k : clave) (s : stats) :
  campo (a_registro rows (registro k s)) "an" = Some (PyStr (fst k))
  /\ campo (a_registro rows (registro k s)) "en" = Some (PyStr (snd k)).
Proof.
  unfold registro. rewrite !ProcesoFacts.campo_a_registro.
  cbn [campo List.find fst snd String.eqb Ascii.eqb Bool.eqb option_map].
  rewrite !ProcesoFacts.celda_de_texto. split; reflexivity.
Qed.

Lemma Forall2_map_derecha {A B C : Type} (P : A -> C -> Prop) (g : B -> C)
    (l : list A) (l' : list B) :
  Forall2 (fun a b => P a (g b)) l l' -> Forall2 P l (map g l').
Proof. induction 1; constructor; assumption. Qed.

End RegistrosPorClave.

(** X8. The output has one record for each pair of region and reservoir
    present in the frame and no other: the records come in strictly
    ascending order of the pair, so no pair comes twice, and each carries
    its pair under [an] and [en]. *)
Theorem X8_one_record_per_reservoir (df : list fila) :
  exists claves,
    StronglySorted clave_lt claves
    /\ NoDup claves
    /\ (forall k, In k claves <->
                  exists r, In r df /\ Proceso.clave_de r = k)
    /\ Forall2
         (fun k record =>
            Proceso.campo record "an" = Some (PyStr (fst k))
            /\ Proceso.campo record "en" = Some (PyStr (snd k)))
         claves (Proceso.datos df).
Proof.
  exists (map fst (Proceso.groupby df)).
  split; [apply AgruparFacts.groupby_sorted|].
  split; [apply AgruparFacts.StronglySorted_NoDup,
            AgruparFacts.groupby_sorted|].
  split; [apply AgruparFacts.groupby_keys|].
  unfold Proceso.datos. cbv zeta. apply Forall2_map_derecha.
  eapply Forall2_impl;
    [|apply (datos_por_grupo df (Proceso.groupby df))].
  - intros k record [s [_ ->]]. apply campo_an_en.
  - intros [k rows] Hg. simpl. apply AgruparFacts.groupby_In, Hg.
Qed.

(** X9. The date and the means of a record are those of its own
    reservoir: the record carries, under [f] and under the keys of the
    eight means that are not [ma1], the fields of the snapshot of the rows
    of the frame that have its pair of region and reservoir, and under
    [ma1] the mean of that snapshot when it has one; when it has none the
    cell is [None] or [nan]. *)
Theorem X9_record_from_own_rows (df : list fila) :
  Forall2
    (fun k record =>
       exists s,
         calcular_estadisticas_embalse (filas_de k df) = Some s
         /\ (forall key,
               In key ("an" :: "en" :: "f" :: Proceso.claves_medias)%string ->
               Proceso.campo record key
               = Proceso.campo (Proceso.registro k s) key)
         /\ (forall x,
               ma1 s = Some x ->
               Proceso.campo record "ma1" = Some (PyFloat x))
         /\ (ma1 s = None ->
             Proceso.campo record "ma1" = Some PyNone
             \/ Proceso.campo record "ma1" = Some (PyFloat NaN)))
    (map fst (Proceso.groupby df)) (Proceso.datos df).
Proof.
  unfold Proceso.datos. cbv zeta. apply Forall2_map_derecha.
  eapply Forall2_impl;
    [|apply (datos_por_grupo df (Proceso.groupby df))].
  - intros k record [s [Es ->]]. exists s. split; [exact Es|].
    set (rows := Proceso.filas_agrupadas df). clearbody rows.
    assert (Hne : filas_de k df <> [])
      by (intros E; rewrite E in Es; discriminate).
    destruct (ProcesoFacts.medias_son_numeros _ k Hne) as [s' [Es' F]].
    rewrite Es in Es'. injection Es' as <-.
    rewrite Forall_forall in F.
    destruct (estadisticas_redondeadas _ s Es) as (p0 & r0 & _ & H).
    cbv zeta in H.
    destruct H as (_ & _ & _ & _ & _ & H4 & _).
    split; [|split].
    + intros key [<-|[<-|[<-|Hk]]].
      * unfold Proceso.registro.
        rewrite ProcesoFacts.campo_a_registro.
        cbn [Proceso.campo List.find fst snd String.eqb Ascii.eqb Bool.eqb
             option_map].
        rewrite ProcesoFacts.celda_de_texto. reflexivity.
      * unfold Proceso.registro.
        rewrite ProcesoFacts.campo_a_registro.
        cbn [Proceso.campo List.find fst snd String.eqb Ascii.eqb Bool.eqb
             option_map].
        rewrite ProcesoFacts.celda_de_texto. reflexivity.
      * unfold Proceso.registro.
        rewrite ProcesoFacts.campo_a_registro.
        cbn [Proceso.campo Proceso.stats_items List.find fst snd String.eqb
             Ascii.eqb Bool.eqb option_map].
        rewrite ProcesoFacts.celda_de_texto. reflexivity.
      * destruct (F key Hk) as [q Eq].
        unfold Proceso.registro in *.
        rewrite ProcesoFacts.campo_a_registro, Eq.
        cbn [option_map]. rewrite ProcesoFacts.celda_de_numero.
        reflexivity.
    + intros x Ex.
      assert (Hq : exists q, x = Fin q).
      { rewrite Ex in H4.
        destruct (df_anio_ant (FECHA p0) (Calendar.month_of (FECHA p0))
                    (p0 :: r0)) as [|a t] eqn:Ea; [discriminate|].
        injection H4 as ->. eexists. reflexivity. }
      destruct Hq as [q ->].
      unfold Proceso.registro.
      rewrite ProcesoFacts.campo_a_registro.
      cbn [Proceso.campo Proceso.stats_items List.find fst snd String.eqb
           Ascii.eqb Bool.eqb option_map].
      rewrite Ex. cbn [option_map].
      rewrite ProcesoFacts.celda_de_numero. reflexivity.
    + intros En. unfold Proceso.registro.
      rewrite ProcesoFacts.campo_a_registro.
      cbn [Proceso.campo Proceso.stats_items List.find fst snd String.eqb
           Ascii.eqb Bool.eqb option_map].
      rewrite En. cbn [option_map].
      destruct (Proceso.dtype_columna rows "ma1"); [right|left];
        reflexivity.
  - intros [k rows] Hg. simpl. apply AgruparFacts.groupby_In, Hg.
Qed.

(** ** What a reader of the output can rely on *)

Module LecturaFacts.
Import Lectura Proceso.

Local Open Scope string_scope.

Lemma claves_a_registro (rows : list pyobj) (row : pyobj) :
  claves_dict (a_registro rows row) = claves_dict row.
Proof.
  destruct row as [| | |items]; try reflexivity.
  cbn [a_registro claves_dict]. rewrite map_map. reflexivity.
Qed.

Lemma datos_es_registro (df : list fila) (record : pyobj) :
  In record (datos df) ->
  exists k s, claves_dict record = claves_dict (registro k s).
Proof.
  intros H. destruct (ProcesoFacts.datos_In df record H)
    as (g & s & _ & _ & ->).
  exists (fst g), s. apply claves_a_registro.
Qed.

Lemma saltos_app (a b : string) : saltos (a ++ b) = (saltos a + saltos b)%nat.
Proof. unfold saltos. rewrite TextoFacts.chars_app. apply count_occ_app. Qed.

Lemma sin_salto_saltos (s : string) :
  forallb Json.sin_salto (chars s) = true -> saltos s = 0%nat.
Proof.
  unfold saltos. intros H. apply count_occ_not_In.
  rewrite forallb_forall in H. intros I. specialize (H LF I).
  discriminate.
Qed.

Lemma escribir_registros_saltos (records : list pyobj) :
  (forall record, In record records -> Json.registro_plano record = true) ->
  forall i total : Z,
    saltos (escribir_registros i total records) = List.length records.
Proof.
  induction records as [|record rest IH]; intros H i total; [reflexivity|].
  cbn [escribir_registros List.length].
  rewrite !saltos_app, IH by (intros x Hx; apply H; right; exact Hx).
  rewrite (sin_salto_saltos (Json.dumps_compact record))
    by (apply TextoFacts.registro_una_linea, H; left; reflexivity).
  destruct (i <? total - 1)%Z; reflexivity.
Qed.

Lemma frac_digits_hundredths (r : Z) :
  (0 <= r < 100)%Z -> check_decimales r = true.
Proof.
  intros H.
  apply (CalendarFacts.check_upto_sound check_decimales 100 0);
    [vm_compute; reflexivity|lia].
Qed.

End LecturaFacts.

(** X10. Every record has the same fourteen keys in the same order, each
    once, and they are the keys of the key dictionary of the metadata: a
    reader finds the long name of every key of a record there, and the
    dictionary names no key that a record lacks. *)
Theorem X10_records_self_describing (df : list fila) (record : pyobj) :
  In record (Proceso.datos df) ->
  Lectura.claves_dict record
  = ["an"; "en"; "aa"; "at"; "f"; "m1s"; "m2s"; "m1m"; "ma1"; "h3a"; "h5a";
     "h10a"; "h20a"; "ht"]%string
  /\ NoDup (Lectura.claves_dict record)
  /\ Permutation (Lectura.claves_dict record)
                 (Lectura.claves_dict Lectura.mapeo)
  /\ forall key,
       In key (Lectura.claves_dict record) ->
       exists nombre,
         Proceso.campo Lectura.mapeo key = Some (PyStr nombre).
Proof.
  intros H. destruct (LecturaFacts.datos_es_registro df record H)
    as [k [s Ek]].
  assert (E : Lectura.claves_dict record
              = ["an"; "en"; "aa"; "at"; "f"; "m1s"; "m2s"; "m1m"; "ma1";
                 "h3a"; "h5a"; "h10a"; "h20a"; "ht"]%string)
    by (rewrite Ek; reflexivity).
  rewrite E. split; [reflexivity|]. split.
  - repeat (constructor; [simpl; intuition discriminate|]). constructor.
  - split.
    + change (Lectura.claves_dict Lectura.mapeo)
        with ["an"; "en"; "at"; "aa"; "f"; "m1s"; "m2s"; "m1m"; "ma1";
              "h3a"; "h5a"; "h10a"; "h20a"; "ht"]%string.
      apply perm_skip, perm_skip, perm_swap.
    + intros key Hk. cbn [In] in Hk.
      repeat (destruct Hk as [<-|Hk]; [eexists; reflexivity|]).
      contradiction.
Qed.

Lemma X10_records_self_describing_witness :
  Lectura.claves_dict Proceso.registro_la_serena
  = ["an"; "en"; "aa"; "at"; "f"; "m1s"; "m2s"; "m1m"; "ma1"; "h3a"; "h5a";
     "h10a"; "h20a"; "ht"]%string
  /\ NoDup (Lectura.claves_dict Proceso.registro_la_serena)
  /\ Permutation (Lectura.claves_dict Proceso.registro_la_serena)
                 (Lectura.claves_dict Lectura.mapeo)
  /\ forall key,
       In key (Lectura.claves_dict Proceso.registro_la_serena) ->
       exists nombre,
         Proceso.campo Lectura.mapeo key = Some (PyStr nombre).
Proof.
  apply (X10_records_self_describing Proceso.dos_embalses).
  left. vm_compute. reflexivity.
Defined.

(** X11. The output has one line for each record and twenty-three more:
    whatever the names and the numbers, and also when there is no record
    at all, the number of line feeds written is 23 plus the number of
    records. *)
Theorem X11_one_line_per_record (df : list fila) :
  Lectura.saltos
    (Proceso.escritura_hibrida Config.METADATA (Proceso.datos df))
  = (23 + List.length (Proceso.datos df))%nat.
Proof.
  unfold Proceso.escritura_hibrida.
  rewrite ProcesoFacts.dump_indent2_metadata.
  rewrite !LecturaFacts.saltos_app.
  rewrite LecturaFacts.escribir_registros_saltos
    by (intros record Hr; apply (ProcesoFacts.datos_planos df), Hr).
  change (Lectura.saltos (String.concat nl Config.metadatos_lineas))
    with 18%nat.
  change (Lectura.saltos nl) with 1%nat.
  cbn. lia.
Qed.

Section NumerosEscritos.
Import Proceso.

Local Open Scope string_scope.

(** A number that is not negative, rounded, in the text of the output:
    the integer part, the point, and one digit when the hundredths end in
    zero, two digits otherwise. *)
Lemma float_repr_round2 (x : Q) :
  (0 <= x)%Q ->
  let c := rint (x * 100) in
  (0 <= c)%Z
  /\ Json.float_repr (Fin (round2 x))
     = str_N (Z.to_N (c / 100)%Z) ++ "."
       ++ Lectura.decimales (c mod 100)%Z.
Proof.
  intros H0. cbv zeta.
  assert (Hc : (0 <= rint (x * 100))%Z).
  { change 0%Z with (rint (0 * 100)). apply rint_mono.
    apply Qmult_le_compat_r; [exact H0|discriminate]. }
  split; [exact Hc|].
  unfold Json.float_repr, round2, Json.repr_Q.
  cbn [Qnum Qden].
  pose proof (LecturaFacts.frac_digits_hundredths
                (Z.abs (rint (x * 100)) mod 100)
                ltac:(apply Z.mod_pos_bound; lia)) as H.
  unfold Lectura.check_decimales in H. apply String.eqb_eq in H.
  rewrite H. rewrite (Z.abs_eq _ Hc).
  destruct (Z.ltb_spec (rint (x * 100)) 0) as [N|_]; [lia|].
  reflexivity.
Qed.

(** A rounded mean over readings between two bounds rounds a number
    between them. *)
Lemma mean_over_form (lo hi : Q) (p : fila -> bool) (df : list fila)
    (q : Q) :
  (forall r, In r df -> (lo <= AGUA_ACTUAL r <= hi)%Q) ->
  mean_over p df = Fin q ->
  exists x, (lo <= x <= hi)%Q /\ q = round2 x.
Proof.
  intros H E. unfold mean_over in E.
  assert (Hx : forall x, In x (columna_agua_actual (filter p df)) ->
                         (lo <= x <= hi)%Q).
  { intros x Hx. unfold columna_agua_actual in Hx.
    apply in_map_iff in Hx as [r [<- Hr]].
    apply filter_In in Hr as [Hr _]. apply H, Hr. }
  destruct (columna_agua_actual (filter p df)) as [|x t]; [discriminate|].
  change (py_round2 (mean (x :: t)))
    with (Fin (round2 (Qsum (x :: t)
                       / inject_Z (Z.of_nat (List.length (x :: t)))))) in E.
  injection E as <-.
  exists (Qsum (x :: t) / inject_Z (Z.of_nat (List.length (x :: t))))%Q.
  split; [|reflexivity].
  apply (Qmean_bounds lo hi (x :: t)); [discriminate|exact Hx].
Qed.

(** Each of the eight means is the rounded mean over a selection of the
    rows of the series. *)
Lemma media_de_directa (df : list fila) (s : stats) (key : string) :
  calcular_estadisticas_embalse df = Some s ->
  In key claves_medias ->
  exists p, Lectura.media_de s key = mean_over p df.
Proof.
  intros Es Hk.
  assert (N : df <> []) by (intros ->; discriminate).
  destruct (estadisticas_directas df N)
    as (s' & r & Es' & _ & _ & _ & _ & _ & H1 & H2 & H3 & _ & H5 & H6
        & H7 & H8 & H9).
  rewrite Es in Es'. injection Es' as <-.
  unfold claves_medias in Hk. simpl in Hk.
  destruct Hk as [<-|[<-|[<-|[<-|[<-|[<-|[<-|[<-|[]]]]]]]]];
    eexists; cbn [Lectura.media_de String.eqb Ascii.eqb Bool.eqb];
    eassumption.
Qed.

End NumerosEscritos.

(** X12. In a table whose readings are not negative and are below 10^12,
    every one of the eight means that are not [ma1] is written, in every
    record, as digits, a point and one or two decimals: after the integer
    part comes one digit when the hundredths end in zero, and two digits
    otherwise. *)
Theorem X12_two_decimals_at_most (df : list fila) (record : pyobj)
    (key : string) :
  (forall r, In r df ->
             (0 <= AGUA_ACTUAL r)%Q /\ (AGUA_ACTUAL r <= inject_Z (10 ^ 12))%Q) ->
  In record (Proceso.datos df) ->
  In key Proceso.claves_medias ->
  exists (c : Z) (v : pyobj),
    (0 <= c)%Z
    /\ Proceso.campo record key = Some v
    /\ Json.dumps_compact v
       = (str_N (Z.to_N (c / 100)%Z) ++ "."
          ++ Lectura.decimales (c mod 100)%Z)%string.
Proof.
  intros Hb Hrec Hkey.
  destruct (ProcesoFacts.datos_In df record Hrec) as (g & s & Hg & Es & ->).
  destruct g as [k rows]. cbn [fst snd] in *.
  destruct (AgruparFacts.groupby_In df k rows Hg) as [-> Hne].
  destruct (media_de_directa _ s key Es Hkey) as [p Ep].
  destruct (ProcesoFacts.medias_son_numeros _ k Hne) as [s' [Es' F]].
  rewrite Es in Es'. injection Es' as <-.
  rewrite Forall_forall in F. destruct (F key Hkey) as [q Eq].
  rewrite (ProcesoFacts.campo_media k s key Hkey) in Eq. injection Eq as Eq.
  rewrite Ep in Eq.
  destruct (mean_over_form 0 (inject_Z (10 ^ 12)) p (filas_de k df) q)
    as (x & [Hx _] & ->); [|exact Eq|].
  { intros r Hr. apply Hb. unfold filas_de in Hr.
    apply filter_In in Hr as [Hr _]. exact Hr. }
  destruct (float_repr_round2 x Hx) as [Hc Hrepr]. cbv zeta in Hc, Hrepr.
  exists (rint (x * 100)), (PyFloat (Fin (round2 x))).
  split; [exact Hc|]. split; [|exact Hrepr].
  unfold Proceso.registro.
  rewrite ProcesoFacts.campo_a_registro.
  fold (Proceso.registro k s).
  rewrite (ProcesoFacts.campo_media k s key Hkey), Ep, Eq. cbn [option_map].
  rewrite ProcesoFacts.celda_de_numero. reflexivity.
Qed.

Lemma X12_two_decimals_at_most_witness :
  exists (c : Z) (v : pyobj),
    (0 <= c)%Z
    /\ Proceso.campo Proceso.registro_la_serena "m1s" = Some v
    /\ Json.dumps_compact v
       = (str_N (Z.to_N (c / 100)%Z) ++ "."
          ++ Lectura.decimales (c mod 100)%Z)%string.
Proof.
  apply (X12_two_decimals_at_most Proceso.dos_embalses
           Proceso.registro_la_serena "m1s").
  - intros r H. simpl in H.
    repeat (destruct H as [<-|H]; [split; vm_compute; discriminate|]).
    contradiction.
  - left. vm_compute. reflexivity.
  - left. reflexivity.
Defined.

(** ** The download and the temporary files *)

Module DescargaFacts.
Import Pipeline.

Local Open Scope string_scope.

Lemma length_app (a b : string) :
  String.length (a ++ b) = (String.length a + String.length b)%nat.
Proof. induction a as [|c a IH]; simpl; [reflexivity|]. rewrite IH. reflexivity. Qed.

Lemma substring_0_length (s : string) : substring 0 (String.length s) s = s.
Proof. induction s as [|c s IH]; simpl; [reflexivity|]. rewrite IH. reflexivity. Qed.

Lemma substring_app_suffix (p suf : string) :
  substring (String.length p) (String.length suf) (p ++ suf) = suf.
Proof.
  induction p as [|c p IH]; simpl; [apply substring_0_length|exact IH].
Qed.

Lemma substring_split (s : string) :
  forall n, (n <= String.length s)%nat ->
  s = substring 0 n s ++ substring n (String.length s - n) s.
Proof.
  induction s as [|c s IH]; intros [|n] H; simpl in *;
    try reflexivity; try lia.
  - rewrite substring_0_length. reflexivity.
  - rewrite <- (IH n) by lia. reflexivity.
Qed.

(** [endswith]: the text is some text followed by the suffix. *)
Lemma endswith_iff (s suffix : string) :
  endswith s suffix = true <-> exists inicio, s = inicio ++ suffix.
Proof.
  unfold endswith. rewrite andb_true_iff, Nat.leb_le, String.eqb_eq. split.
  - intros [L E]. exists (substring 0 (String.length s - String.length suffix) s).
    pose proof (substring_split s (String.length s - String.length suffix)
                  ltac:(lia)) as S.
    replace (String.length s - (String.length s - String.length suffix))%nat
      with (String.length suffix) in S by lia.
    rewrite E in S. exact S.
  - intros [p ->]. rewrite length_app. split; [lia|].
    replace (String.length p + String.length suffix - String.length suffix)%nat
      with (String.length p) by lia.
    apply substring_app_suffix.
Qed.

Lemma find_first {A : Type} (p : A -> bool) (l : list A) :
  match List.find p l with
  | Some x =>
      exists before after,
        l = (before ++ x :: after)%list /\ p x = true
        /\ forall y, In y before -> p y = false
  | None => forall y, In y l -> p y = false
  end.
Proof.
  induction l as [|a l IH]; simpl; [intros y []|].
  destruct (p a) eqn:E.
  - exists [], l. repeat split; [exact E|intros y []].
  - destruct (List.find p l) as [x|].
    + destruct IH as (before & after & -> & Hx & Hb).
      exists (a :: before), after. repeat split; [exact Hx|].
      intros y [<-|Hy]; [exact E|apply Hb, Hy].
    + intros y [<-|Hy]; [exact E|apply IH, Hy].
Qed.

(** The two temporary files after a run. *)
Lemma main_temporales (env : entorno) (d : disco) :
  let r := main env d in
  match mdb_descargado env with
  | Some bytes =>
      disco_final r ZIP_FILE = None
      /\ disco_final r MDB_FILE
         = (if (exit_status (estado r) =? 0)%Z then None else Some bytes)
  | None =>
      disco_final r MDB_FILE = d MDB_FILE
      /\ disco_final r ZIP_FILE
         = match requests_get env with
           | Some resp => Some (contenido resp)
           | None => d ZIP_FILE
           end
  end.
Proof.
  unfold main, mdb_descargado, descargar_y_extraer.
  destruct (requests_get env) as [resp|]; [|cbn; auto].
  destruct (interrumpida resp); [cbn; auto|].
  destruct (miembros resp) as [ms|]; [|cbn; auto].
  destruct (mdb_interno (map fst ms)) as [nombre|]; [|cbn; auto].
  destruct (zip_open ms nombre) as [bytes|]; [|cbn; auto].
  cbv zeta.
  change (borrar (escribir (escribir d ZIP_FILE (contenido resp)) MDB_FILE bytes)
            ZIP_FILE MDB_FILE) with (Some bytes).
  cbv beta iota.
  set (d1 := borrar (escribir (escribir d ZIP_FILE (contenido resp))
                       MDB_FILE bytes) ZIP_FILE).
  destruct (sin_cambios d1 (sha256_hexdigest env bytes)); [cbn; auto|].
  unfold procesar_datos.
  change (d1 MDB_FILE) with (Some bytes). cbv beta iota.
  destruct (mdb_export env bytes) as [df|]; [|cbn; auto].
  cbv zeta.
  set (texto := Proceso.escritura_hibrida Config.METADATA (Proceso.datos df)).
  clearbody texto.
  unfold escribir_json.
  destruct (escritura env); cbn; auto.
Qed.

End DescargaFacts.

(** X13. The member taken from the archive is the first, in the order of
    the archive, whose name ends in [.mdb] whatever the case of its
    letters; there is none exactly when no name of the archive ends so. *)
Theorem X13_first_mdb_member (nombres : list string) :
  match Pipeline.mdb_interno nombres with
  | Some nombre =>
      exists antes despues,
        nombres = antes ++ nombre :: despues
        /\ termina_en_mdb nombre
        /\ forall otro, In otro antes -> ~ termina_en_mdb otro
  | None => forall otro, In otro nombres -> ~ termina_en_mdb otro
  end.
Proof.
  unfold Pipeline.mdb_interno, termina_en_mdb.
  pose proof (DescargaFacts.find_first
                (fun nombre =>
                   Pipeline.endswith (Pipeline.lower nombre) ".mdb")
                nombres) as F.
  destruct (List.find _ nombres) as [nombre|].
  - destruct F as (antes & despues & E & Hn & Hb).
    exists antes, despues. split; [exact E|]. split.
    + apply DescargaFacts.endswith_iff, Hn.
    + intros otro Ho T. apply DescargaFacts.endswith_iff in T.
      rewrite (Hb otro Ho) in T. discriminate.
  - intros otro Ho T. apply DescargaFacts.endswith_iff in T.
    rewrite (F otro Ho) in T. discriminate.
Qed.

Lemma X13_first_mdb_member_witness :
  termina_en_mdb "datos/BD-Embalses.MDB".
Proof.
  pose proof (X13_first_mdb_member ["LEEME.txt"; "datos/BD-Embalses.MDB"]%string)
    as H.
  change (Pipeline.mdb_interno ["LEEME.txt"; "datos/BD-Embalses.MDB"]%string)
    with (Some "datos/BD-Embalses.MDB"%string) in H.
  destruct H as (antes & despues & _ & T & _). exact T.
Defined.

(** X14. [descargar_y_extraer] either returns, and then the database
    file holds the content of the member it picked from the archive and
    the archive file is gone, or it ends the process with status 1; in
    both cases the fingerprint and the output file are as they were. *)
Theorem X14_descargar_y_extraer_effects (env : Pipeline.entorno)
    (d : Pipeline.disco) :
  let s := fst (Pipeline.descargar_y_extraer env d) in
  let d1 := snd (Pipeline.descargar_y_extraer env d) in
  d1 Pipeline.HASH_FILE = d Pipeline.HASH_FILE
  /\ d1 Pipeline.JSON_OUTPUT = d Pipeline.JSON_OUTPUT
  /\ ((s = Pipeline.Retorna
       /\ d1 Pipeline.ZIP_FILE = None
       /\ exists resp ms nombre bytes,
            Pipeline.requests_get env = Some resp
            /\ Pipeline.interrumpida resp = false
            /\ Pipeline.miembros resp = Some ms
            /\ Pipeline.mdb_interno (map fst ms) = Some nombre
            /\ In (nombre, bytes) ms
            /\ d1 Pipeline.MDB_FILE = Some bytes)
      \/ s = Pipeline.SysExit 1).
Proof.
  cbv zeta. unfold Pipeline.descargar_y_extraer.
  destruct (Pipeline.requests_get env) as [resp|]; [|cbn; auto].
  destruct (Pipeline.interrumpida resp) eqn:Ei; [cbn; auto|].
  destruct (Pipeline.miembros resp) as [ms|] eqn:Em; [|cbn; auto].
  destruct (Pipeline.mdb_interno (map fst ms)) as [nombre|] eqn:En;
    [|cbn; auto].
  destruct (Pipeline.zip_open ms nombre) as [bytes|] eqn:Ez; [|cbn; auto].
  cbn. split; [reflexivity|]. split; [reflexivity|]. left.
  split; [reflexivity|]. split; [reflexivity|].
  exists resp, ms, nombre, bytes. repeat split; try assumption.
  unfold Pipeline.zip_open in Ez.
  destruct (List.find _ (rev ms)) as [m|] eqn:Ef; [|discriminate].
  injection Ez as <-. apply find_some in Ef as [Hin Heq].
  apply String.eqb_eq in Heq. rewrite <- Heq.
  apply in_rev in Hin. destruct m. exact Hin.
Qed.

(** X15. After a run that ends with status 0 neither temporary file is
    left.  After a run that got the database and then failed, the
    database file is left behind with its content; after a download that
    arrived but gave no database, the archive file is left behind with
    what arrived. *)
Theorem X15_temporary_files (env : Pipeline.entorno) (d : Pipeline.disco) :
  let r := Pipeline.main env d in
  (Pipeline.exit_status (Pipeline.estado r) = 0 ->
   Pipeline.disco_final r Pipeline.ZIP_FILE = None
   /\ Pipeline.disco_final r Pipeline.MDB_FILE = None)
  /\ (forall bytes,
        Pipeline.mdb_descargado env = Some bytes ->
        Pipeline.exit_status (Pipeline.estado r) <> 0 ->
        Pipeline.disco_final r Pipeline.ZIP_FILE = None
        /\ Pipeline.disco_final r Pipeline.MDB_FILE = Some bytes)
  /\ (forall resp,
        Pipeline.requests_get env = Some resp ->
        Pipeline.mdb_descargado env = None ->
        Pipeline.disco_final r Pipeline.ZIP_FILE
        = Some (Pipeline.contenido resp)).
Proof.
  pose proof (DescargaFacts.main_temporales env d) as T.
  pose proof (PipelineFacts.main_cases env d) as C.
  cbv zeta in *. set (r := Pipeline.main env d) in *. clearbody r.
  split; [|split].
  - intros H0.
    destruct (Pipeline.mdb_descargado env) as [bytes|].
    + destruct T as [Tz Tm]. rewrite H0 in Tm. auto.
    + destruct C as (Es & _). rewrite Es in H0. discriminate.
  - intros bytes Hb Hx. rewrite Hb in T. destruct T as [Tz Tm].
    split; [exact Tz|]. rewrite Tm.
    destruct (Z.eqb_spec (Pipeline.exit_status (Pipeline.estado r)) 0);
      [contradiction|reflexivity].
  - intros resp Hr Hn. rewrite Hn, Hr in T. apply T.
Qed.

Lemma X15_temporary_files_witness :
  Pipeline.disco_final
    (Pipeline.main Pipeline.entorno_ejemplo Pipeline.disco_vacio)
    Pipeline.ZIP_FILE = None
  /\ Pipeline.disco_final
       (Pipeline.main Pipeline.entorno_ejemplo Pipeline.disco_vacio)
       Pipeline.MDB_FILE = None.
Proof.
  apply (proj1 (X15_temporary_files Pipeline.entorno_ejemplo
                  Pipeline.disco_vacio)).
  vm_compute. reflexivity.
Defined.

(** ** The fingerprint and the change gate *)

Module HuellaFacts.
Import Pipeline Huella.

Local Open Scope string_scope.

Lemma read_app (n : nat) :
  forall resto, fst (read n resto) ++ snd (read n resto) = resto.
Proof.
  induction n as [|n IH]; intros [|c r]; try reflexivity.
  cbn [read]. specialize (IH r). destruct (read n r) as [chunk r'].
  cbn in *. rewrite IH. reflexivity.
Qed.

Lemma read_length (n : nat) :
  forall resto, String.length (fst (read n resto)) = Nat.min n (String.length resto).
Proof.
  induction n as [|n IH]; intros [|c r]; try reflexivity.
  cbn [read]. specialize (IH r). destruct (read n r) as [chunk r'].
  cbn in *. rewrite IH. reflexivity.
Qed.

Lemma app_empty_r (s : string) : s ++ EmptyString = s.
Proof. induction s as [|c s IH]; simpl; [reflexivity|]. rewrite IH. reflexivity. Qed.

(** With a chunk of at least one byte and more fuel than bytes left, the
    loop ends, having fed the hasher all that was left. *)
Lemma bucle_todo (n : nat) (Hn : (0 < n)%nat) :
  forall fuel resto hasher,
    (String.length resto < fuel)%nat ->
    bucle fuel n resto hasher = Some (hasher ++ resto).
Proof.
  induction fuel as [|fuel IH]; intros resto hasher H; [lia|].
  cbn [bucle].
  pose proof (read_app n resto) as A.
  pose proof (read_length n resto) as L.
  destruct (read n resto) as [chunk resto']. cbn [fst snd] in A, L.
  destruct chunk as [|c chunk].
  - cbn in A. subst resto'.
    destruct resto as [|c r]; [rewrite app_empty_r; reflexivity|].
    cbn in L. lia.
  - rewrite IH.
    + rewrite <- A, TextoFacts.append_assoc. reflexivity.
    + rewrite <- A in H. rewrite DescargaFacts.length_app in H.
      cbn in H. lia.
Qed.

(** Text without white space at its first and at its last character. *)
Lemma lstrip_spaces (a s : string) :
  forallb Texto.is_space (Texto.chars a) = true ->
  lstrip (a ++ s) = lstrip s.
Proof.
  induction a as [|c a IH]; intros H; [reflexivity|].
  cbn in H. apply andb_true_iff in H as [Hc Ha].
  cbn. rewrite Hc. apply IH, Ha.
Qed.

Lemma rstrip_spaces (b : string) :
  forallb Texto.is_space (Texto.chars b) = true -> rstrip b = EmptyString.
Proof.
  induction b as [|c b IH]; intros H; [reflexivity|].
  cbn in H. apply andb_true_iff in H as [Hc Hb].
  cbn. rewrite (IH Hb), Hc. reflexivity.
Qed.

Lemma rstrip_app_spaces (a b : string) :
  forallb Texto.is_space (Texto.chars b) = true ->
  rstrip (a ++ b) = rstrip a.
Proof.
  intros H. induction a as [|c a IH]; [apply rstrip_spaces, H|].
  cbn. rewrite IH. reflexivity.
Qed.

Lemma rstrip_sin_espacios (s : string) :
  forallb (fun c => negb (Texto.is_space c)) (Texto.chars s) = true ->
  rstrip s = s.
Proof.
  induction s as [|c s IH]; intros H; [reflexivity|].
  cbn in H. apply andb_true_iff in H as [Hc Hs].
  cbn. rewrite (IH Hs). apply negb_true_iff in Hc. rewrite Hc.
  destruct s; reflexivity.
Qed.

Lemma lstrip_sin_espacios (s t : string) :
  forallb (fun c => negb (Texto.is_space c)) (Texto.chars s) = true ->
  s <> EmptyString ->
  lstrip (s ++ t) = s ++ t.
Proof.
  destruct s as [|c s]; intros H Hne; [contradiction|].
  cbn in H. apply andb_true_iff in H as [Hc _].
  apply negb_true_iff in Hc. cbn. rewrite Hc. reflexivity.
Qed.

Lemma strip_rodeado (antes h despues : string) :
  forallb Texto.is_space (Texto.chars antes) = true ->
  forallb Texto.is_space (Texto.chars despues) = true ->
  forallb (fun c => negb (Texto.is_space c)) (Texto.chars h) = true ->
  strip (antes ++ h ++ despues) = h.
Proof.
  intros Ha Hd Hh. unfold strip. rewrite (lstrip_spaces _ _ Ha).
  destruct h as [|c h].
  - cbn [append].
    replace (lstrip despues) with (lstrip (despues ++ EmptyString))
      by (rewrite app_empty_r; reflexivity).
    rewrite (lstrip_spaces _ _ Hd). reflexivity.
  - rewrite (lstrip_sin_espacios _ _ Hh) by discriminate.
    rewrite (rstrip_app_spaces _ _ Hd). apply rstrip_sin_espacios, Hh.
Qed.

Lemma es_hex_no_space (c : ascii) :
  es_hex c = true -> Texto.is_space c = false.
Proof.
  destruct c as [[] [] [] [] [] [] [] []]; vm_compute; congruence.
Qed.

Lemma hex_sin_espacios (h : string) :
  forallb es_hex (Texto.chars h) = true ->
  forallb (fun c => negb (Texto.is_space c)) (Texto.chars h) = true.
Proof.
  induction h as [|c h IH]; intros H; [reflexivity|].
  cbn in H. apply andb_true_iff in H as [Hc Hh].
  cbn. rewrite (es_hex_no_space _ Hc), (IH Hh). reflexivity.
Qed.

(** The gate reads the fingerprint file only. *)
Lemma sin_cambios_ext (d d' : disco) (h : string) :
  d' HASH_FILE = d HASH_FILE -> sin_cambios d' h = sin_cambios d h.
Proof. unfold sin_cambios. intros ->. reflexivity. Qed.

End HuellaFacts.

(** X16. After a run that got the database and did not end with status 0,
    a second run on the same database whose extraction and writing go
    through processes it again: it returns, the output file holds the
    whole hybrid text of the extracted table, the fingerprint is the
    digest of the database and no temporary file is left. *)
Theorem X16_failed_run_is_retried (env1 env2 : Pipeline.entorno)
    (d0 : Pipeline.disco) (bytes : string) (df : list fila) :
  Pipeline.mdb_descargado env1 = Some bytes ->
  Pipeline.exit_status (Pipeline.estado (Pipeline.main env1 d0)) <> 0 ->
  Pipeline.mdb_descargado env2 = Some bytes ->
  Pipeline.sha256_hexdigest env2 bytes = Pipeline.sha256_hexdigest env1 bytes ->
  Pipeline.mdb_export env2 bytes = Some df ->
  Pipeline.escritura env2 = Pipeline.EscrituraOk ->
  let r2 := Pipeline.main env2 (Pipeline.disco_final (Pipeline.main env1 d0)) in
  Pipeline.estado r2 = Pipeline.Retorna
  /\ Pipeline.traza r2
     = [Pipeline.EvProcesar; Pipeline.EvEstadisticas;
        Pipeline.EvEscrituraJson; Pipeline.EvGuardarHash]
  /\ Pipeline.disco_final r2 Pipeline.JSON_OUTPUT
     = Some (Proceso.escritura_hibrida Config.METADATA (Proceso.datos df))
  /\ Pipeline.disco_final r2 Pipeline.HASH_FILE
     = Some (Pipeline.sha256_hexdigest env2 bytes)
  /\ Pipeline.disco_final r2 Pipeline.ZIP_FILE = None
  /\ Pipeline.disco_final r2 Pipeline.MDB_FILE = None.
Proof.
  intros H1 Hx H2 Hh He Hw.
  pose proof (PipelineFacts.main_cases env1 d0) as C1.
  cbv zeta in C1. rewrite H1 in C1.
  set (r1 := Pipeline.main env1 d0) in *.
  assert (G : Pipeline.sin_cambios (Pipeline.disco_final r1)
                (Pipeline.sha256_hexdigest env2 bytes) = false).
  { rewrite Hh.
    destruct (Pipeline.sin_cambios d0 (Pipeline.sha256_hexdigest env1 bytes))
      eqn:G0.
    - destruct C1 as (Es & _). rewrite Es in Hx. cbn in Hx. contradiction.
    - rewrite <- G0. apply HuellaFacts.sin_cambios_ext.
      destruct (Pipeline.mdb_export env1 bytes) as [df1|].
      + destruct (Pipeline.escritura env1).
        * destruct C1 as (Es & _). rewrite Es in Hx. cbn in Hx.
          contradiction.
        * apply C1.
        * apply C1.
      + apply C1. }
  clearbody r1.
  pose proof (PipelineFacts.main_cases env2 (Pipeline.disco_final r1)) as C2.
  pose proof (DescargaFacts.main_temporales env2 (Pipeline.disco_final r1))
    as T2.
  cbv zeta in C2, T2 |- *. rewrite H2 in C2, T2.
  rewrite G, He, Hw in C2.
  destruct C2 as (Es & Et & Eh & Ej). destruct T2 as (Tz & Tm).
  rewrite Es in Tm. cbn in Tm.
  repeat split; assumption.
Qed.

Lemma X16_failed_run_is_retried_witness :
  let env1 :=
    {| Pipeline.requests_get :=
         Pipeline.requests_get Pipeline.entorno_ejemplo;
       Pipeline.sha256_hexdigest :=
         Pipeline.sha256_hexdigest Pipeline.entorno_ejemplo;
       Pipeline.mdb_export := Pipeline.mdb_export Pipeline.entorno_ejemplo;
       Pipeline.escritura := Pipeline.FalloTras 40 |} in
  let r1 := Pipeline.main env1 Pipeline.disco_vacio in
  let r2 := Pipeline.main Pipeline.entorno_ejemplo (Pipeline.disco_final r1) in
  Pipeline.exit_status (Pipeline.estado r1) = 1
  /\ Pipeline.disco_final r1 Pipeline.JSON_OUTPUT
     = Some (substring 0 40
               (Proceso.escritura_hibrida Config.METADATA
                  (Proceso.datos Ejemplos.serie_larga)))
  /\ Pipeline.disco_final r2 Pipeline.JSON_OUTPUT
     = Some (Proceso.escritura_hibrida Config.METADATA
               (Proceso.datos Ejemplos.serie_larga)).
Proof.
  cbv zeta. split; [vm_compute; reflexivity|].
  split; [vm_compute; reflexivity|].
  refine (proj1 (proj2 (proj2
    (X16_failed_run_is_retried _ Pipeline.entorno_ejemplo
       Pipeline.disco_vacio "mdb-bytes" Ejemplos.serie_larga
       _ _ _ _ _ _)))).
  - vm_compute. reflexivity.
  - vm_compute. discriminate.
  - vm_compute. reflexivity.
  - reflexivity.
  - reflexivity.
  - reflexivity.
Defined.

(** X17. White space around the stored fingerprint does not count: when
    the fingerprint file holds the hexadecimal digest of the database
    between any white space, a line break after it for one, the gate finds
    no change. *)
Theorem X17_gate_ignores_white_space (d : Pipeline.disco)
    (antes current_hash despues : string) :
  forallb Huella.es_hex (Texto.chars current_hash) = true ->
  forallb Texto.is_space (Texto.chars antes) = true ->
  forallb Texto.is_space (Texto.chars despues) = true ->
  d Pipeline.HASH_FILE = Some (antes ++ current_hash ++ despues)%string ->
  Pipeline.strip (antes ++ current_hash ++ despues) = current_hash
  /\ Pipeline.sin_cambios d current_hash = true.
Proof.
  intros Hh Ha Hd E.
  assert (S : Pipeline.strip (antes ++ current_hash ++ despues) = current_hash)
    by (apply HuellaFacts.strip_rodeado;
        [exact Ha|exact Hd|apply HuellaFacts.hex_sin_espacios, Hh]).
  split; [exact S|].
  unfold Pipeline.sin_cambios. rewrite E, S. apply String.eqb_refl.
Qed.

Lemma X17_gate_ignores_white_space_witness :
  Pipeline.sin_cambios
    (Pipeline.escribir Pipeline.disco_vacio Pipeline.HASH_FILE
       (" 9f86d081884c7d65" ++ Texto.nl))
    "9f86d081884c7d65" = true.
Proof.
  apply (X17_gate_ignores_white_space
           (Pipeline.escribir Pipeline.disco_vacio Pipeline.HASH_FILE
              (" 9f86d081884c7d65" ++ Texto.nl))
           " " "9f86d081884c7d65" Texto.nl).
  - vm_compute. reflexivity.
  - vm_compute. reflexivity.
  - vm_compute. reflexivity.
  - reflexivity.
Defined.

(** X18. [get_file_hash] reads the file in chunks of 4096 bytes and
    always comes to its end: the hasher has then been fed the bytes of the
    file, all of them and in order, so the fingerprint is the digest of
    the content of the file, and there is none only when the file is not
    there. *)
Theorem X18_get_file_hash_whole_content (sha256_hexdigest : string -> string)
    (d : Pipeline.disco) (filepath : Pipeline.archivo) :
  Huella.get_file_hash sha256_hexdigest d filepath
  = option_map sha256_hexdigest (d filepath)
  /\ forall fuel contenido hasher,
       (String.length contenido < fuel)%nat ->
       Huella.bucle fuel Huella.BLOQUE contenido hasher
       = Some (hasher ++ contenido)%string.
Proof.
  assert (B : forall fuel contenido hasher,
             (String.length contenido < fuel)%nat ->
             Huella.bucle fuel Huella.BLOQUE contenido hasher
             = Some (hasher ++ contenido)%string).
  { apply HuellaFacts.bucle_todo. unfold Huella.BLOQUE. lia. }
  split; [|exact B].
  unfold Huella.get_file_hash.
  destruct (d filepath) as [contenido|]; [|reflexivity].
  rewrite B by lia. reflexivity.
Qed.

Lemma X18_get_file_hash_whole_content_witness :
  Huella.bucle 10 Huella.BLOQUE "mdb-bytes" EmptyString = Some "mdb-bytes"%string.
Proof.
  apply (proj2 (X18_get_file_hash_whole_content
                  (fun s => s) Pipeline.disco_vacio Pipeline.MDB_FILE)
           10%nat "mdb-bytes"%string EmptyString).
  vm_compute. lia.
Defined.

(** ** The names of the columns *)

Module LimpiezaFacts.
Import Pipeline Limpieza.

Local Open Scope string_scope.

Lemma lstrip_In (s : string) (c : ascii) :
  In c (Texto.chars (lstrip s)) -> In c (Texto.chars s).
Proof.
  induction s as [|a s IH]; [intros []|].
  cbn [lstrip]. destruct (Texto.is_space a); [|auto].
  intros H. right. apply IH, H.
Qed.

Lemma rstrip_In (s : string) (c : ascii) :
  In c (Texto.chars (rstrip s)) -> In c (Texto.chars s).
Proof.
  induction s as [|a s IH]; [intros []|].
  cbn [rstrip]. destruct (rstrip s) as [|b r].
  - destruct (Texto.is_space a); [intros []|].
    intros [<-|[]]. left. reflexivity.
  - intros [<-|H]; [left; reflexivity|right; apply IH, H].
Qed.

Lemma antes_de_comilla_sin_comilla (s : string) :
  ~ In Texto.QUOTE (Texto.chars (antes_de_comilla s)).
Proof.
  induction s as [|a s IH]; [intros []|].
  cbn [antes_de_comilla]. destruct (Ascii.eqb_spec a Texto.QUOTE) as [->|N];
    [intros []|].
  intros [E|H]; [apply N, E|apply IH, H].
Qed.

Lemma antes_de_comilla_fix (s : string) :
  ~ In Texto.QUOTE (Texto.chars s) -> antes_de_comilla s = s.
Proof.
  induction s as [|a s IH]; intros H; [reflexivity|].
  cbn [antes_de_comilla]. destruct (Ascii.eqb_spec a Texto.QUOTE) as [->|N].
  - exfalso. apply H. left. reflexivity.
  - rewrite IH; [reflexivity|]. intros I. apply H. right. exact I.
Qed.

Lemma replace_espacio_In (s : string) (c : ascii) :
  In c (Texto.chars (replace_espacio s)) ->
  c <> " "%char /\ (c = "_"%char \/ In c (Texto.chars s)).
Proof.
  induction s as [|a s IH]; [intros []|].
  cbn [replace_espacio Texto.chars list_ascii_of_string].
  intros [E|H].
  - destruct (Ascii.eqb_spec a " "%char) as [->|N]; subst c.
    + split; [discriminate|left; reflexivity].
    + split; [exact N|right; left; reflexivity].
  - destruct (IH H) as [N [E|I]]; split; auto. right. right. exact I.
Qed.

Lemma replace_espacio_fix (s : string) :
  ~ In " "%char (Texto.chars s) -> replace_espacio s = s.
Proof.
  induction s as [|a s IH]; intros H; [reflexivity|].
  cbn [replace_espacio]. destruct (Ascii.eqb_spec a " "%char) as [->|N].
  - exfalso. apply H. left. reflexivity.
  - rewrite IH; [reflexivity|]. intros I. apply H. right. exact I.
Qed.

Lemma rstrip_idem (s : string) : rstrip (rstrip s) = rstrip s.
Proof.
  induction s as [|a s IH]; [reflexivity|].
  cbn [rstrip]. destruct (rstrip s) as [|b r] eqn:E.
  - destruct (Texto.is_space a) eqn:Ea; [reflexivity|].
    cbn [rstrip]. rewrite Ea. reflexivity.
  - change (rstrip (String a (String b r)))
      with (match rstrip (String b r) with
            | EmptyString =>
                if Texto.is_space a then EmptyString else String a EmptyString
            | String c' r' => String a (String c' r')
            end).
    rewrite IH. reflexivity.
Qed.

(** What [lstrip] gives starts with no white space. *)
Lemma lstrip_head (s : string) :
  match lstrip s with
  | EmptyString => True
  | String c _ => Texto.is_space c = false
  end.
Proof.
  induction s as [|a s IH]; [exact I|].
  cbn [lstrip]. destruct (Texto.is_space a) eqn:E; [exact IH|exact E].
Qed.

(** [rstrip] keeps a first character that is no white space. *)
Lemma rstrip_head (c : ascii) (s : string) :
  Texto.is_space c = false -> exists r, rstrip (String c s) = String c r.
Proof.
  intros H. cbn [rstrip]. destruct (rstrip s) as [|b r].
  - rewrite H. exists EmptyString. reflexivity.
  - exists (String b r). reflexivity.
Qed.

Lemma strip_head (s : string) :
  match strip s with
  | EmptyString => True
  | String c _ => Texto.is_space c = false
  end.
Proof.
  unfold strip. pose proof (lstrip_head s) as H.
  destruct (lstrip s) as [|c r]; [exact I|].
  destruct (rstrip_head c r H) as [r' ->]. exact H.
Qed.

Lemma rstrip_strip (s : string) : rstrip (strip s) = strip s.
Proof. unfold strip. apply rstrip_idem. Qed.

Lemma es_espacio_32 (c : ascii) :
  Texto.is_space c = false -> Ascii.eqb c " " = false.
Proof.
  destruct c as [[] [] [] [] [] [] [] []]; vm_compute; congruence.
Qed.

(** Replacing the blanks keeps a text that [rstrip] leaves alone so. *)
Lemma rstrip_replace (t : string) :
  rstrip t = t -> rstrip (replace_espacio t) = replace_espacio t.
Proof.
  induction t as [|a t IH]; intros H; [reflexivity|].
  cbn [rstrip] in H. cbn [replace_espacio rstrip].
  destruct (rstrip t) as [|b r] eqn:E.
  - destruct (Texto.is_space a) eqn:Ea; [discriminate|].
    injection H as <-. cbn [replace_espacio rstrip].
    rewrite (es_espacio_32 _ Ea), Ea. reflexivity.
  - injection H as H. rewrite IH by exact H. rewrite <- H.
    reflexivity.
Qed.

Lemma lstrip_replace (t : string) :
  match t with
  | EmptyString => True
  | String c _ => Texto.is_space c = false
  end ->
  lstrip (replace_espacio t) = replace_espacio t.
Proof.
  destruct t as [|c t]; intros H; [reflexivity|].
  cbn [replace_espacio lstrip]. rewrite (es_espacio_32 _ H), H. reflexivity.
Qed.

End LimpiezaFacts.

(** X19. A cleaned column name holds no double quote and no blank, has no
    white space at either end, and cleaning it again leaves it as it is;
    a name of ASCII characters with no double quote and no white space,
    [AGUA_TOTAL] for one, is left as it is. *)
Theorem X19_column_names_clean (c : string) :
  let nombre := Limpieza.limpiar_columna c in
  ~ In Texto.QUOTE (Texto.chars nombre)
  /\ ~ In " "%char (Texto.chars nombre)
  /\ Pipeline.strip nombre = nombre
  /\ Limpieza.limpiar_columna nombre = nombre
  /\ (forallb Limpieza.es_llano (Texto.chars c) = true -> nombre = c).
Proof.
  cbv zeta.
  assert (Q : ~ In Texto.QUOTE (Texto.chars (Limpieza.limpiar_columna c))).
  { unfold Limpieza.limpiar_columna. intros H.
    apply LimpiezaFacts.replace_espacio_In in H as [_ [E|H]];
      [discriminate|].
    unfold Pipeline.strip in H.
    apply LimpiezaFacts.rstrip_In, LimpiezaFacts.lstrip_In in H.
    exact (LimpiezaFacts.antes_de_comilla_sin_comilla c H). }
  assert (B : ~ In " "%char (Texto.chars (Limpieza.limpiar_columna c))).
  { unfold Limpieza.limpiar_columna. intros H.
    apply LimpiezaFacts.replace_espacio_In in H as [N _]. apply N.
    reflexivity. }
  assert (S : Pipeline.strip (Limpieza.limpiar_columna c)
              = Limpieza.limpiar_columna c).
  { unfold Limpieza.limpiar_columna.
    set (t := Pipeline.strip (Limpieza.antes_de_comilla c)).
    unfold Pipeline.strip at 1.
    rewrite LimpiezaFacts.lstrip_replace
      by apply LimpiezaFacts.strip_head.
    apply LimpiezaFacts.rstrip_replace, LimpiezaFacts.rstrip_strip. }
  split; [exact Q|]. split; [exact B|]. split; [exact S|]. split.
  - unfold Limpieza.limpiar_columna at 1.
    rewrite (LimpiezaFacts.antes_de_comilla_fix _ Q), S.
    apply LimpiezaFacts.replace_espacio_fix, B.
  - intros H. unfold Limpieza.limpiar_columna.
    assert (Hq : ~ In Texto.QUOTE (Texto.chars c)).
    { intros I. rewrite forallb_forall in H. specialize (H _ I).
      unfold Limpieza.es_llano in H.
      apply andb_true_iff in H as [_ H]. discriminate. }
    assert (Hs : forallb (fun a => negb (Texto.is_space a)) (Texto.chars c)
                 = true).
    { rewrite forallb_forall in *. intros a I. specialize (H _ I).
      unfold Limpieza.es_llano in H.
      apply andb_true_iff in H as [H _].
      apply andb_true_iff in H as [_ H]. exact H. }
    rewrite (LimpiezaFacts.antes_de_comilla_fix _ Hq).
    replace (Pipeline.strip c) with c.
    + apply LimpiezaFacts.replace_espacio_fix. intros I.
      rewrite forallb_forall in Hs. specialize (Hs _ I). discriminate.
    + symmetry.
      pose proof (HuellaFacts.strip_rodeado EmptyString c EmptyString
                    eq_refl eq_refl Hs) as E.
      cbn [append] in E. rewrite HuellaFacts.app_empty_r in E. exact E.
Qed.

Lemma X19_column_names_clean_witness :
  Limpieza.limpiar_columna "AGUA_TOTAL" = "AGUA_TOTAL"%string.
Proof.
  apply (proj2 (proj2 (proj2 (proj2
           (X19_column_names_clean "AGUA_TOTAL"))))).
  vm_compute. reflexivity.
Defined.
